(** * Soundpad Commander: shortcut-to-action dispatch, verified against the Python sources

    Shallow embedding of
      - [Soundpad/soundpad_client.py]            (module [Client])
      - [Soundpad/keyboard_listener_keyboard.py] (modules [Keys], [Registry])
      - [Soundpad/config_manager.py]             (module [Config])
      - the [SoundpadRuntime] class              (module [Runtime])
    followed by the properties proved about them.

    Conventions.  A Python [str] and a Python [bytes] value are both modelled
    by a Rocq [string], read as the sequence of bytes of its UTF-8 encoding;
    a lone surrogate, which a [str] may hold, is kept in its three-byte form
    (ED A0..BF xx), which well-formed UTF-8 excludes.  [encode('utf-8')] is
    then the identity on well-formed UTF-8 and raises [UnicodeEncodeError]
    otherwise; [decode('utf-8')] is the identity on well-formed UTF-8 and
    raises [UnicodeDecodeError] otherwise.  [lower] and [strip] are the ASCII
    ones, which is what they are on every byte below 128; a slice of a [str]
    counts characters, a slice of [bytes] counts bytes.  Python [int] is [Z].
    Floating-point seconds of [time.time()] are integer microseconds. *)

From Stdlib Require Import ZArith Ascii Lia Bool.
From stdpp Require Import base list strings gmap sorting.

Local Open Scope Z_scope.

(** ** Python built-ins used by the sources *)

Module Py.

(** [s.startswith(p)] *)
Definition startswith (s p : string) : bool := String.prefix p s.

(** [not s] for a string: true exactly for the empty string. *)
Definition is_empty (s : string) : bool :=
  match s with "" => true | String _ _ => false end.

Definition lower_char (a : ascii) : ascii :=
  let n := N_of_ascii a in
  if ((65 <=? n) && (n <=? 90))%N then ascii_of_N (n + 32) else a.

(** [s.lower()] *)
Fixpoint lower (s : string) : string :=
  match s with
  | "" => ""
  | String a t => String (lower_char a) (lower t)
  end.

(** [str.isspace] on one character: tab, LF, VT, FF, CR, the four
    separators 0x1c-0x1f and the space. *)
Definition isspace (a : ascii) : bool :=
  let n := N_of_ascii a in
  (((9 <=? n) && (n <=? 13)) || ((28 <=? n) && (n <=? 32)))%N.

Fixpoint lstrip_by (p : ascii → bool) (s : string) : string :=
  match s with
  | "" => ""
  | String a t => if p a then lstrip_by p t else s
  end.

Fixpoint rstrip_by (p : ascii → bool) (s : string) : string :=
  match s with
  | "" => ""
  | String a t =>
      let t' := rstrip_by p t in
      if p a && is_empty t' then "" else String a t'
  end.

(** [s.strip()] *)
Definition strip (s : string) : string := lstrip_by isspace (rstrip_by isspace s).

(** [s.rstrip('\0')] *)
Definition rstrip_nul (s : string) : string :=
  rstrip_by (λ a, (N_of_ascii a =? 0)%N) s.

(** [sub in s] for strings *)
Fixpoint contains (sub s : string) : bool :=
  String.prefix sub s ||
  match s with
  | "" => false
  | String _ t => contains sub t
  end.

(** [b[:n]] for [bytes]: the first [n] bytes. *)
Definition slice_to (n : nat) (s : string) : string := String.substring 0 n s.

(** [d.get(k)] on a dict literal with string keys, kept in source order. *)
Fixpoint dict_get {V} (d : list (string * V)) (k : string) : option V :=
  match d with
  | [] => None
  | (k', v) :: d => if decide (k' = k) then Some v else dict_get d k
  end.

(** [sorted(l)] on strings: the result is the unique ordered permutation,
    whatever the algorithm, because the order is total and antisymmetric. *)
Definition sorted (l : list string) : list string := merge_sort String.le l.

(** [str(b).lower()] for a bool *)
Definition bool_lower (b : bool) : string := if b then "true" else "false".

Definition digit_char (d : N) : ascii := ascii_of_N (48 + d).

(** The decimal digits of [n], most significant first, in front of [acc];
    [fuel] bounds the number of digits. *)
Fixpoint digits (fuel : nat) (n : N) (acc : string) : string :=
  match fuel with
  | O => acc
  | S fuel =>
      let acc := String (digit_char (n mod 10)) acc in
      if (n / 10 =? 0)%N then acc else digits fuel (n / 10)%N acc
  end.

(** [str(i)] for an int *)
Definition str_int (i : Z) : string :=
  match i with
  | Z0 => "0"
  | Zpos p => digits (S (N.size_nat (Npos p))) (Npos p) ""
  | Zneg p => String "-" (digits (S (N.size_nat (Npos p))) (Npos p) "")
  end.

Definition digit_val (a : ascii) : option Z :=
  let n := N_of_ascii a in
  if ((48 <=? n) && (n <=? 57))%N then Some (Z.of_N n - 48) else None.

(** The digits of a decimal literal: single underscores are allowed
    between two digits only. *)
Fixpoint parse_digits (acc : Z) (after_digit : bool) (s : string) : option Z :=
  match s with
  | "" => if after_digit then Some acc else None
  | String a t =>
      match digit_val a with
      | Some d => parse_digits (10 * acc + d) true t
      | None =>
          if (N_of_ascii a =? 95)%N && after_digit
          then parse_digits acc false t
          else None
      end
  end.

(** [int(s)]: [None] stands for [ValueError]. *)
Definition int (s : string) : option Z :=
  match strip s with
  | String "-" t => Z.opp <$> parse_digits 0 false t
  | String "+" t => parse_digits 0 false t
  | t => parse_digits 0 false t
  end.

(** Well-formed UTF-8 (RFC 3629), on the byte values. *)
Definition cont (lo hi : N) (b : N) : bool := ((lo <=? b) && (b <=? hi))%N.

Fixpoint utf8_valid (fuel : nat) (bs : list N) : bool :=
  match fuel with
  | O => match bs with [] => true | _ :: _ => false end
  | S fuel =>
      match bs with
      | [] => true
      | b0 :: r =>
          if (b0 <=? 127)%N then utf8_valid fuel r
          else if cont 194 223 b0 then
            match r with
            | b1 :: r => cont 128 191 b1 && utf8_valid fuel r
            | _ => false
            end
          else if cont 224 239 b0 then
            match r with
            | b1 :: b2 :: r =>
                (if (b0 =? 224)%N then cont 160 191 b1
                 else if (b0 =? 237)%N then cont 128 159 b1
                 else cont 128 191 b1)
                && cont 128 191 b2 && utf8_valid fuel r
            | _ => false
            end
          else if cont 240 244 b0 then
            match r with
            | b1 :: b2 :: b3 :: r =>
                (if (b0 =? 240)%N then cont 144 191 b1
                 else if (b0 =? 244)%N then cont 128 143 b1
                 else cont 128 191 b1)
                && cont 128 191 b2 && cont 128 191 b3 && utf8_valid fuel r
            | _ => false
            end
          else false
      end
  end.

Fixpoint byte_values (s : string) : list N :=
  match s with
  | "" => []
  | String a t => N_of_ascii a :: byte_values t
  end.

(** [b.decode('utf-8')]: [None] stands for [UnicodeDecodeError]. *)
Definition decode_utf8 (b : string) : option string :=
  if utf8_valid (String.length b) (byte_values b) then Some b else None.

(** [s.encode('utf-8')]: [None] stands for [UnicodeEncodeError], which a
    [str] with a lone surrogate raises. *)
Definition encode_utf8 (s : string) : option string :=
  if utf8_valid (String.length s) (byte_values s) then Some s else None.

(** [s.isascii()] *)
Fixpoint isascii (s : string) : bool :=
  match s with
  | "" => true
  | String a t => (N_of_ascii a <=? 127)%N && isascii t
  end.

(** [s[:n]] for a [str]: its first [n] characters, each of them a byte that
    is not a continuation byte followed by its continuation bytes. *)
Definition is_continuation (a : ascii) : bool := cont 128 191 (N_of_ascii a).

Fixpoint str_slice_to (n : nat) (s : string) : string :=
  match s with
  | "" => ""
  | String a t =>
      if is_continuation a then String a (str_slice_to n t)
      else
        match n with
        | O => ""
        | S n' => String a (str_slice_to n' t)
        end
  end.

End Py.

(** ** Exceptions, the operating system, and the effect monad *)

(** The exception classes the modelled code raises or catches.  Every other
    member of the [OSError] family is represented by [OSError] itself. *)
Inductive exn_class :=
  | FileNotFoundError | PermissionError | OSError
  | ValueError | UnicodeDecodeError | UnicodeEncodeError | TypeError | AttributeError
  | RuntimeError.

Global Instance exn_class_eq_dec : EqDecision exn_class.
Proof. solve_decision. Defined.

(** [exn_text] is [str(e)]; [exn_errno] is [e.errno] where there is one. *)
Record exn := Exn { exn_cls : exn_class; exn_errno : option Z; exn_text : string }.

(** [isinstance(e, OSError)] *)
Definition is_OSError (e : exn) : bool :=
  match exn_cls e with
  | FileNotFoundError | PermissionError | OSError => true
  | _ => false
  end.

(** A failure reported by an [os] call: always of the [OSError] family,
    with its [errno] and [strerror]. *)
Inductive os_class := EFileNotFound | EPermission | EOther.

Record os_error := OsError { oe_class : os_class; oe_errno : Z; oe_strerror : string }.

(** [str(e)] of the [OSError] that an [os] call on a descriptor raises. *)
Definition os_error_str (e : os_error) : string :=
  "[Errno " +:+ Py.str_int (oe_errno e) +:+ "] " +:+ oe_strerror e.

Definition exn_of_os_error (e : os_error) : exn :=
  Exn (match oe_class e with
       | EFileNotFound => FileNotFoundError
       | EPermission => PermissionError
       | EOther => OSError
       end) (Some (oe_errno e)) (os_error_str e).

(** What the process does to its environment, in order. *)
Inductive event :=
  | EvOpen (path : string)
  | EvWrite (fd : Z) (data : string)
  | EvRead (fd : Z) (size : N)
  | EvClose (fd : Z)
  | EvSleep (microseconds : Z)
  | EvPrint (line : string)
  | EvAddHotkey (hotkey : string) (suppress : bool)
  | EvRemoveHotkey (handler : nat).

Global Instance event_eq_dec : EqDecision event.
Proof. solve_decision. Defined.

(** The environment: what each successive [os.open], [os.write], [os.read],
    [time.time()] and [keyboard.add_hotkey] call will answer (a simulated
    channel and hotkey backend), how many of each have been made, and the
    trace of events so far.  The interpreter belongs to it as well: the text
    [str(e)] that it gives the [UnicodeDecodeError] for some bytes and the
    [UnicodeEncodeError] for some [str]. *)
Record World := {
  open_script : nat → os_error + Z;
  write_script : nat → option os_error;
  read_script : nat → os_error + string;
  clock_script : nat → Z;
  hotkey_script : nat → option string;
  decode_error_text : string → string;
  encode_error_text : string → string;
  opens : nat;
  writes : nat;
  reads : nat;
  ticks : nat;
  hooks : nat;
  trace : list event;
}.

Definition with_counters (o wr r t h : nat) (tr : list event) (w : World) : World :=
  {| open_script := open_script w; write_script := write_script w;
     read_script := read_script w; clock_script := clock_script w;
     hotkey_script := hotkey_script w;
     decode_error_text := decode_error_text w;
     encode_error_text := encode_error_text w;
     opens := o; writes := wr; reads := r; ticks := t; hooks := h; trace := tr |}.

Definition emit (ev : event) (w : World) : World :=
  with_counters (opens w) (writes w) (reads w) (ticks w) (hooks w) (trace w ++ [ev]) w.

Definition next_open (w : World) : World :=
  with_counters (S (opens w)) (writes w) (reads w) (ticks w) (hooks w) (trace w) w.

Definition next_write (w : World) : World :=
  with_counters (opens w) (S (writes w)) (reads w) (ticks w) (hooks w) (trace w) w.

Definition next_read (w : World) : World :=
  with_counters (opens w) (writes w) (S (reads w)) (ticks w) (hooks w) (trace w) w.

Definition next_tick (w : World) : World :=
  with_counters (opens w) (writes w) (reads w) (S (ticks w)) (hooks w) (trace w) w.

Definition next_hook (w : World) : World :=
  with_counters (opens w) (writes w) (reads w) (ticks w) (S (hooks w)) (trace w) w.

(** Result of a call: a value, or an exception in flight. *)
Inductive outcome (A : Type) :=
  | Ok (a : A)
  | Raise (e : exn).
Arguments Ok {A} a.
Arguments Raise {A} e.

(** A computation over an object state [S] and the world.  The state and the
    world reached when an exception is raised are kept: Python does not roll
    back assignments. *)
Definition M (S A : Type) : Type := S → World → outcome A * S * World.

Definition ret {S A} (a : A) : M S A := λ s w, (Ok a, s, w).

Definition bind {S A B} (m : M S A) (k : A → M S B) : M S B :=
  λ s w,
    match m s w with
    | (Ok a, s', w') => k a s' w'
    | (Raise e, s', w') => (Raise e, s', w')
    end.

Definition raise {S A} (e : exn) : M S A := λ s w, (Raise e, s, w).

(** [try: m  except <classes matched by h> as e: h e]; an exception on which
    [h] is [None] propagates. *)
Definition try_except {S A} (m : M S A) (h : exn → option (M S A)) : M S A :=
  λ s w,
    match m s w with
    | (Ok a, s', w') => (Ok a, s', w')
    | (Raise e, s', w') =>
        match h e with
        | Some k => k s' w'
        | None => (Raise e, s', w')
        end
    end.

Definition get {S} : M S S := λ s w, (Ok s, s, w).
Definition put {S} (s : S) : M S unit := λ _ w, (Ok tt, s, w).
Definition modify {S} (f : S → S) : M S unit := λ s w, (Ok tt, f s, w).

(** Run a computation of a component object inside its owner. *)
Definition zoom {S T A} (proj : S → T) (inj : T → S → S) (m : M T A) : M S A :=
  λ s w, let '(r, t', w') := m (proj s) w in (r, inj t' s, w').

Declare Scope py_scope.
Delimit Scope py_scope with py.
Notation "x <- m ;; k" := (bind m (λ x, k))
  (at level 100, m at next level, right associativity) : py_scope.
Notation "m ;; k" := (bind m (λ _, k))
  (at level 100, right associativity) : py_scope.
Local Open Scope py_scope.

(** The [os], [time] and [print] calls. *)
Module Os.

(** [os.open(path, flags)]: the answer as a value; the caller's [except]
    clauses inspect it. *)
Definition open {S} (path : string) : M S (os_error + Z) :=
  λ s w, (Ok (open_script w (opens w)), s, next_open (emit (EvOpen path) w)).

(** [os.write(fd, data)]; the byte count it returns is not used. *)
Definition write {S} (fd : Z) (data : string) : M S unit :=
  λ s w,
    let w' := next_write (emit (EvWrite fd data) w) in
    match write_script w (writes w) with
    | None => (Ok tt, s, w')
    | Some e => (Raise (exn_of_os_error e), s, w')
    end.

(** [os.read(fd, n)]: at most [n] bytes of what the channel delivers. *)
Definition read {S} (fd : Z) (n : N) : M S string :=
  λ s w,
    let w' := next_read (emit (EvRead fd n) w) in
    match read_script w (reads w) with
    | inr data => (Ok (Py.slice_to (N.to_nat n) data), s, w')
    | inl e => (Raise (exn_of_os_error e), s, w')
    end.

(** [os.close(fd)] inside [try ... except OSError: pass]. *)
Definition close_quietly {S} (fd : Z) : M S unit :=
  λ s w, (Ok tt, s, emit (EvClose fd) w).

(** [time.time()] *)
Definition time {S} : M S Z :=
  λ s w, (Ok (clock_script w (ticks w)), s, next_tick w).

(** [time.sleep] *)
Definition sleep {S} (us : Z) : M S unit :=
  λ s w, (Ok tt, s, emit (EvSleep us) w).

Definition print {S} (line : string) : M S unit :=
  λ s w, (Ok tt, s, emit (EvPrint line) w).

(** [keyboard.add_hotkey(hotkey, callback, suppress=...)]: the handler it
    returns is identified by the number of the call; a failure is any
    [Exception], given by its text. *)
Definition add_hotkey {S} (hotkey : string) (suppress : bool) : M S (string + nat) :=
  λ s w,
    let w' := next_hook (emit (EvAddHotkey hotkey suppress) w) in
    match hotkey_script w (hooks w) with
    | None => (Ok (inr (hooks w)), s, w')
    | Some msg => (Ok (inl msg), s, w')
    end.

(** [keyboard.remove_hotkey(handler)] inside [try ... except: pass]. *)
Definition remove_hotkey_quietly {S} (handler : nat) : M S unit :=
  λ s w, (Ok tt, s, emit (EvRemoveHotkey handler) w).

End Os.

(** The exceptions of the UTF-8 codec, with the interpreter's text. *)
Module Codec.

Definition decode_error {S A} (b : string) : M S A :=
  λ s w, (Raise (Exn UnicodeDecodeError None (decode_error_text w b)), s, w).

Definition encode_error {S A} (t : string) : M S A :=
  λ s w, (Raise (Exn UnicodeEncodeError None (encode_error_text w t)), s, w).

End Codec.

(** ** [soundpad_client.py] *)

Module Client.

Inductive PlayStatus := STOPPED | PLAYING | PAUSED | SEEKING.

Definition PlayStatus_value (p : PlayStatus) : string :=
  match p with
  | STOPPED => "STOPPED" | PLAYING => "PLAYING"
  | PAUSED => "PAUSED" | SEEKING => "SEEKING"
  end.

(** [PlayStatus(response)]: [None] stands for [ValueError]. *)
Definition PlayStatus_of_value (s : string) : option PlayStatus :=
  if decide (s = "STOPPED") then Some STOPPED
  else if decide (s = "PLAYING") then Some PLAYING
  else if decide (s = "PAUSED") then Some PAUSED
  else if decide (s = "SEEKING") then Some SEEKING
  else None.

(** The attributes of a [SoundpadClient] object. *)
Record SoundpadClient := {
  print_errors : bool;
  pipe : option Z;
  last_request_timestamp : Z;
}.

Definition CLIENT_VERSION : string := "1.1.2".
Definition PIPE_PATH : string := "\\.\pipe\sp_remote_control".

Definition set_pipe (p : option Z) (c : SoundpadClient) : SoundpadClient :=
  {| print_errors := print_errors c; pipe := p;
     last_request_timestamp := last_request_timestamp c |}.

Definition set_last_request_timestamp (t : Z) (c : SoundpadClient) : SoundpadClient :=
  {| print_errors := print_errors c; pipe := pipe c;
     last_request_timestamp := t |}.

(** [SoundpadClient.__init__] *)
Definition new (print_errors : bool) : M unit SoundpadClient :=
  t <- Os.time ;;
  ret {| print_errors := print_errors; pipe := None; last_request_timestamp := t |}.

Definition init : M SoundpadClient unit :=
  c <- get ;;
  match pipe c with
  | Some _ => ret tt
  | None =>
      r <- Os.open PIPE_PATH ;;
      match r with
      | inr fd => modify (set_pipe (Some fd))
      | inl e =>
          match oe_class e with
          | EFileNotFound =>
              raise (Exn FileNotFoundError None
                "Cannot connect to Soundpad. Make sure Soundpad is running and the remote control interface is enabled.")
          | EPermission =>
              raise (Exn PermissionError None
                "Permission denied accessing Soundpad pipe. Try running as administrator or check Windows security settings.")
          | EOther =>
              if decide (oe_errno e = 2) then
                raise (Exn FileNotFoundError None
                  "Soundpad named pipe not found. Ensure Soundpad is running and remote control is enabled.")
              else if decide (oe_errno e = 13) then
                raise (Exn PermissionError None
                  ("Access denied to Soundpad pipe. Error code: " +:+ Py.str_int (oe_errno e)
                   +:+ ". Try running as administrator."))
              else if decide (oe_errno e = 32) then
                raise (Exn OSError None
                  "Soundpad pipe is busy. Another application may be using the remote control interface.")
              else
                raise (Exn OSError None
                  ("Failed to open Soundpad pipe. Windows error code: " +:+ Py.str_int (oe_errno e)
                   +:+ ". " +:+ oe_strerror e))
          end
      end
  end.

Definition uninit : M SoundpadClient unit :=
  c <- get ;;
  match pipe c with
  | Some fd =>
      Os.close_quietly fd ;;
      modify (set_pipe None)
  | None => ret tt
  end.

(** [os.write(self.pipe, ...)] and [os.read(self.pipe, ...)] read the
    attribute at the call; [None] is not a file descriptor. *)
Definition with_pipe {A} (k : Z → M SoundpadClient A) : M SoundpadClient A :=
  c <- get ;;
  match pipe c with
  | Some fd => k fd
  | None => raise (Exn TypeError None "an integer is required (got type NoneType)")
  end.

Definition send_request (request : string) : M SoundpadClient string :=
  init ;;
  current_time <- Os.time ;;
  c <- get ;;
  (if Z.abs (current_time - last_request_timestamp c) <? 1000
   then Os.sleep 1000 else ret tt) ;;
  try_except
    (match Py.encode_utf8 request with
     | None => Codec.encode_error request
     | Some request_bytes =>
         with_pipe (λ fd, Os.write fd request_bytes) ;;
         first_byte <- with_pipe (λ fd, Os.read fd 1%N) ;;
         if Py.is_empty first_byte then
           raise (Exn OSError None "No response from Soundpad")
         else
           remaining_data <- with_pipe (λ fd, Os.read fd 8192%N) ;;
           let response_bytes := first_byte +:+ remaining_data in
           match Py.decode_utf8 response_bytes with
           | None => Codec.decode_error response_bytes
           | Some decoded =>
               let response := Py.rstrip_nul decoded in
               t <- Os.time ;;
               modify (set_last_request_timestamp t) ;;
               ret response
           end
     end)
    (λ e,
       if is_OSError e then
         Some (uninit ;;
               raise (Exn OSError None
                        ("Failed to communicate with Soundpad: " +:+ exn_text e)))
       else None).

Definition send_request_safe (request : string) : M SoundpadClient string :=
  try_except (send_request request)
    (λ e,
       if is_OSError e then
         Some (c <- get ;;
               (if print_errors c
                then Os.print ("Soundpad communication error: " +:+ exn_text e)
                else ret tt) ;;
               uninit ;;
               ret "")
       else None).

Definition _print_error (message : string) : M SoundpadClient unit :=
  c <- get ;;
  if print_errors c then Os.print ("Soundpad Error: " +:+ message) else ret tt.

Definition _is_success (response : string) : bool :=
  Py.startswith response "R-200".

(** The [error_messages] dict literal, in source order. *)
Definition error_messages : list (string * string) :=
  [ ("R-400", "Bad Request - Invalid command format");
    ("R-404", "Not Found - Invalid sound/category index");
    ("R-403", "Forbidden - Command not allowed in trial version");
    ("R-500", "Internal Server Error - Soundpad error");
    ("R-503", "Service Unavailable - Soundpad busy") ].

Definition _handle_error_response (response command : string) : string :=
  if Py.is_empty response then "No response from Soundpad"
  else if Py.startswith response "R-" then
    let error_code := Py.str_slice_to 5 response in
    match Py.dict_get error_messages error_code with
    | Some base_msg =>
        let base_msg :=
          if Py.contains "trial" (Py.lower response)
          then base_msg +:+ " (Trial version limitation)" else base_msg in
        base_msg +:+ ": " +:+ response
    | None => "Soundpad error " +:+ error_code +:+ ": " +:+ response
    end
  else "Unexpected response: " +:+ response.

Definition _handle_numeric_response (request : string) : M SoundpadClient Z :=
  response <- send_request_safe request ;;
  if Py.is_empty response then
    _print_error "No response from Soundpad" ;; ret (-1)
  else if Py.startswith response "R" then
    let error_msg := _handle_error_response response request in
    _print_error error_msg ;; ret (-1)
  else
    match Py.int response with
    | Some n => ret n
    | None =>
        _print_error ("Expected numeric response, got: " +:+ response) ;; ret (-1)
    end.

Definition _handle_string_response (request : string) : M SoundpadClient string :=
  response <- send_request_safe request ;;
  if Py.is_empty response then
    _print_error "No response from Soundpad" ;; ret ""
  else if Py.startswith response "R" then
    let error_msg := _handle_error_response response request in
    _print_error error_msg ;; ret ""
  else ret response.

Definition play_random_sound_from_category
    (category_index : Z) (speakers microphone : bool) : M SoundpadClient bool :=
  let request :=
    "DoPlayRandomSoundFromCategory(" +:+ Py.str_int category_index +:+ ", "
    +:+ Py.bool_lower speakers +:+ ", " +:+ Py.bool_lower microphone +:+ ")" in
  response <- send_request_safe request ;;
  ret (_is_success response).

Definition toggle_pause : M SoundpadClient bool :=
  response <- send_request_safe "DoTogglePause()" ;;
  ret (_is_success response).

Definition get_play_status : M SoundpadClient PlayStatus :=
  response <- send_request_safe "GetPlayStatus()" ;;
  if Py.startswith response "R" then
    _print_error ("Failed to get play status: " +:+ response) ;; ret STOPPED
  else
    match PlayStatus_of_value response with
    | Some p => ret p
    | None => _print_error ("Unknown play status: " +:+ response) ;; ret STOPPED
    end.

Definition is_alive : M SoundpadClient bool :=
  response <- send_request_safe "IsAlive()" ;;
  ret (_is_success response).

Definition get_volume : M SoundpadClient Z :=
  n <- _handle_numeric_response "GetVolume()" ;;
  ret (Z.max 0 n).

(** [create_client] *)
Definition create_client (print_errors : bool) : M unit SoundpadClient :=
  new print_errors.

End Client.

(** ** [keyboard_listener_keyboard.py]: key-combination helpers *)

Module Keys.

(** The [key_aliases] dict literal. *)
Definition key_aliases : list (string * string) :=
  [ ("control", "ctrl"); ("ctrl_l", "ctrl"); ("ctrl_r", "ctrl");
    ("alt_l", "alt"); ("alt_r", "alt");
    ("shift_l", "shift"); ("shift_r", "shift");
    ("cmd_l", "cmd"); ("cmd_r", "cmd");
    ("windows", "cmd"); ("win", "cmd") ].

Definition modifier_order : list string := ["ctrl"; "alt"; "shift"; "cmd"].

(** One iteration body of the first loop: the cleaned-up key. *)
Definition clean_key (key : string) : string :=
  let key := Py.strip (Py.lower key) in
  default key (Py.dict_get key_aliases key).

(** The first loop, threading the list [normalized]. *)
Fixpoint collect (keys normalized : list string) : list string :=
  match keys with
  | [] => normalized
  | key :: keys =>
      let key := clean_key key in
      if negb (Py.is_empty key) && negb (bool_decide (key ∈ normalized))
      then collect keys (normalized ++ [key])
      else collect keys normalized
  end.

(** The second loop: [modifiers] and [other_keys]. *)
Fixpoint split_modifiers (normalized : list string) : list string * list string :=
  match normalized with
  | [] => ([], [])
  | key :: rest =>
      let '(modifiers, other_keys) := split_modifiers rest in
      if bool_decide (Py.lower key ∈ modifier_order)
      then (Py.lower key :: modifiers, other_keys)
      else (modifiers, key :: other_keys)
  end.

(** The third loop: the modifiers present, in the fixed order. *)
Definition sort_modifiers (modifiers : list string) : list string :=
  filter (λ m, m ∈ modifiers) modifier_order.

Definition normalize_key_combination (keys : list string) : list string :=
  let normalized := collect keys [] in
  let '(modifiers, other_keys) := split_modifiers normalized in
  sort_modifiers modifiers ++ Py.sorted other_keys.

End Keys.

(** ** [config_manager.py] *)

Module Config.

Record CategoryConfig := {
  soundpad_category_id : Z;
  keyboard_shortcut : list string;
  folder_path : string;
  enabled : bool;
  sound_count : Z;
}.

Record AppSettings := {
  play_on_speakers : bool;
  play_on_microphone : bool;
  log_level : string;
  show_notifications : bool;
  auto_start_with_windows : bool;
}.

(** The ['settings'] mapping of the loaded file: each known key may be
    absent, and keys [AppSettings] does not declare may be present. *)
Record SettingsConfig := {
  cfg_play_on_speakers : option bool;
  cfg_play_on_microphone : option bool;
  cfg_log_level : option string;
  cfg_show_notifications : option bool;
  cfg_auto_start_with_windows : option bool;
  cfg_unknown_keys : list string;
}.

(** [config_data]: the ['categories'] mapping in file order (names are
    dict keys), the ['shortcuts']['stop_playback'] list ([[]] when absent)
    and the ['settings'] mapping. *)
Record ConfigManager := {
  categories : list (string * CategoryConfig);
  stop_playback : list string;
  settings : SettingsConfig;
}.

Definition get_all_categories (cm : ConfigManager) : list (string * CategoryConfig) :=
  categories cm.

Definition get_enabled_categories (cm : ConfigManager) : list (string * CategoryConfig) :=
  filter (λ nc, enabled nc.2 = true) (get_all_categories cm).

Definition get_stop_shortcut (cm : ConfigManager) : list string :=
  stop_playback cm.

(** [conflicts[key].append(item)] on a [defaultdict(list)], which keeps
    its keys in insertion order. *)
Fixpoint dd_append (key : list string) (item : string)
    (conflicts : list (list string * list string)) : list (list string * list string) :=
  match conflicts with
  | [] => [(key, [item])]
  | (k, v) :: rest =>
      if decide (k = key) then (k, v ++ [item]) :: rest
      else (k, v) :: dd_append key item rest
  end.

(** The loop over [categories.items()]. *)
Fixpoint collect_categories (cats : list (string * CategoryConfig))
    (conflicts : list (list string * list string)) : list (list string * list string) :=
  match cats with
  | [] => conflicts
  | (name, config) :: cats =>
      match keyboard_shortcut config with
      | [] => collect_categories cats conflicts
      | _ :: _ =>
          let shortcut_key := Py.sorted (keyboard_shortcut config) in
          collect_categories cats (dd_append shortcut_key ("category:" +:+ name) conflicts)
      end
  end.

Definition get_conflicting_shortcuts (cm : ConfigManager)
    : list (list string * list string) :=
  let conflicts := collect_categories (get_all_categories cm) [] in
  let conflicts :=
    match get_stop_shortcut cm with
    | [] => conflicts
    | _ :: _ =>
        let shortcut_key := Py.sorted (get_stop_shortcut cm) in
        dd_append shortcut_key "pause_resume" conflicts
    end in
  filter (λ kv, (1 < length kv.2)%nat) conflicts.

(** [get_app_settings]: the dataclass [AppSettings] built from the
    ['settings'] mapping passed as keyword arguments. *)
Definition get_app_settings (cm : ConfigManager) : exn + AppSettings :=
  let c := settings cm in
  match cfg_unknown_keys c with
  | k :: _ =>
      inl (Exn TypeError None
             ("AppSettings.__init__() got an unexpected keyword argument '" +:+ k +:+ "'"))
  | [] =>
      inr {| play_on_speakers := default true (cfg_play_on_speakers c);
             play_on_microphone := default true (cfg_play_on_microphone c);
             log_level := default "INFO" (cfg_log_level c);
             show_notifications := default true (cfg_show_notifications c);
             auto_start_with_windows := default false (cfg_auto_start_with_windows c) |}
  end.

End Config.

(** ** [keyboard_listener_keyboard.py]: the [KeyboardListener] registry *)

Module Registry.
Section Registry.

(** The callbacks are opaque to the registry. *)
Context {Callback : Type}.

Record KeyCombination := {
  keys : list string;
  callback : Callback;
  description : string;
  enabled : bool;
  combo_id : string;
}.

(** The attributes of a [KeyboardListener].  [with self._lock] delimits the
    critical sections; a single caller always finds the lock free and
    leaves it free, also when the body raises. *)
Record KeyboardListener := {
  running : bool;
  suppress_keys : bool;
  registered_combinations : gmap string KeyCombination;
  hotkey_handlers : list (string * nat);
}.

Definition set_registered (m : gmap string KeyCombination) (l : KeyboardListener)
    : KeyboardListener :=
  {| running := running l; suppress_keys := suppress_keys l;
     registered_combinations := m; hotkey_handlers := hotkey_handlers l |}.

Definition set_handlers (h : list (string * nat)) (l : KeyboardListener)
    : KeyboardListener :=
  {| running := running l; suppress_keys := suppress_keys l;
     registered_combinations := registered_combinations l; hotkey_handlers := h |}.

(** ['+'.join(parts)] *)
Fixpoint join (sep : string) (parts : list string) : string :=
  match parts with
  | [] => ""
  | [p] => p
  | p :: rest => p +:+ sep +:+ join sep rest
  end.

Fixpoint all_digits (s : string) : bool :=
  match s with
  | "" => true
  | String a t => bool_decide (is_Some (Py.digit_val a)) && all_digits t
  end.

(** [s.isdigit()] *)
Definition isdigit (s : string) : bool := negb (Py.is_empty s) && all_digits s.

Definition hotkey_part (key : string) : string :=
  let key_lower := Py.strip (Py.lower key) in
  if bool_decide (key_lower ∈ ["ctrl"; "control"]) then "ctrl"
  else if decide (key_lower = "alt") then "alt"
  else if decide (key_lower = "shift") then "shift"
  else if bool_decide (key_lower ∈ ["cmd"; "win"; "windows"]) then "windows"
  else if Py.startswith key_lower "f"
          && isdigit (match key_lower with String _ t => t | "" => "" end)
       then key_lower
  else key_lower.

Definition _keys_to_hotkey_string (keys : list string) : string :=
  join "+" (hotkey_part <$> keys).

Definition _register_hotkey (hotkey_string : string) (cb : Callback)
    : M KeyboardListener unit :=
  l <- get ;;
  r <- Os.add_hotkey hotkey_string (suppress_keys l) ;;
  match r with
  | inr handler =>
      modify (λ l, set_handlers (hotkey_handlers l ++ [(hotkey_string, handler)]) l)
  | inl e =>
      Os.print ("Failed to register hotkey '" +:+ hotkey_string +:+ "': " +:+ e)
  end.

Definition register_combination (keys : list string) (cb : Callback)
    (combo_id : option string) (description : string) : M KeyboardListener string :=
  match keys with
  | [] => raise (Exn ValueError None "Key combination cannot be empty")
  | _ :: _ =>
      let combo_id := default (join "+" keys) combo_id in
      let hotkey_string := _keys_to_hotkey_string keys in
      l <- get ;;
      match registered_combinations l !! combo_id with
      | Some _ =>
          raise (Exn ValueError None
                   ("Combination '" +:+ combo_id +:+ "' is already registered"))
      | None =>
          let combination :=
            {| keys := keys; callback := cb; description := description;
               enabled := true; combo_id := combo_id |} in
          modify (λ l, set_registered (<[combo_id := combination]> (registered_combinations l)) l) ;;
          l <- get ;;
          (if running l then _register_hotkey hotkey_string cb else ret tt) ;;
          ret combo_id
      end
  end.

End Registry.
Arguments KeyCombination : clear implicits.
Arguments KeyboardListener : clear implicits.
End Registry.

(** ** The [SoundpadRuntime] class *)

Module Runtime.

Record ActionLog := {
  timestamp : Z;
  action : string;
  category : option string;
  success : bool;
  details : string;
}.

(** The [stats] dict: its five keys are fixed at construction. *)
Record Stats := {
  sounds_played : Z;
  pauses_triggered : Z;
  errors : Z;
  start_time : option Z;
  last_action : option string;
}.

(** The attributes of [SoundpadRuntime] that the callbacks and the
    connection monitor read or write. *)
Record SoundpadRuntime := {
  config_manager : option Config.ConfigManager;
  soundpad_client : option Client.SoundpadClient;
  soundpad_connected : bool;
  action_log : list ActionLog;
  stats : Stats;
}.

Definition set_client (c : option Client.SoundpadClient) (rt : SoundpadRuntime) :=
  {| config_manager := config_manager rt; soundpad_client := c;
     soundpad_connected := soundpad_connected rt;
     action_log := action_log rt; stats := stats rt |}.

Definition set_connected (b : bool) (rt : SoundpadRuntime) :=
  {| config_manager := config_manager rt; soundpad_client := soundpad_client rt;
     soundpad_connected := b;
     action_log := action_log rt; stats := stats rt |}.

Definition set_action_log (l : list ActionLog) (rt : SoundpadRuntime) :=
  {| config_manager := config_manager rt; soundpad_client := soundpad_client rt;
     soundpad_connected := soundpad_connected rt;
     action_log := l; stats := stats rt |}.

Definition set_stats (s : Stats) (rt : SoundpadRuntime) :=
  {| config_manager := config_manager rt; soundpad_client := soundpad_client rt;
     soundpad_connected := soundpad_connected rt;
     action_log := action_log rt; stats := s |}.

(** [self.stats['sounds_played'] += 1] and its siblings. *)
Definition incr_sounds_played (s : Stats) : Stats :=
  {| sounds_played := sounds_played s + 1; pauses_triggered := pauses_triggered s;
     errors := errors s; start_time := start_time s; last_action := last_action s |}.

Definition incr_pauses_triggered (s : Stats) : Stats :=
  {| sounds_played := sounds_played s; pauses_triggered := pauses_triggered s + 1;
     errors := errors s; start_time := start_time s; last_action := last_action s |}.

Definition incr_errors (s : Stats) : Stats :=
  {| sounds_played := sounds_played s; pauses_triggered := pauses_triggered s;
     errors := errors s + 1; start_time := start_time s; last_action := last_action s |}.

Definition set_last_action (a : string) (s : Stats) : Stats :=
  {| sounds_played := sounds_played s; pauses_triggered := pauses_triggered s;
     errors := errors s; start_time := start_time s; last_action := Some a |}.

(** A method call on [self.soundpad_client]; on [None] it is an
    [AttributeError]. *)
Definition on_client {A} (m : M Client.SoundpadClient A) : M SoundpadRuntime A :=
  λ rt w,
    match soundpad_client rt with
    | Some c => let '(r, c', w') := m c w in (r, set_client (Some c') rt, w')
    | None =>
        (Raise (Exn AttributeError None "'NoneType' object has no attribute"), rt, w)
    end.

(** [self.config_manager.get_app_settings()] *)
Definition app_settings : M SoundpadRuntime Config.AppSettings :=
  rt <- get ;;
  match config_manager rt with
  | None => raise (Exn AttributeError None "'NoneType' object has no attribute")
  | Some cm =>
      match Config.get_app_settings cm with
      | inr s => ret s
      | inl e => raise e
      end
  end.

(** [l[-50:]] *)
Definition last_50 (l : list ActionLog) : list ActionLog :=
  drop (length l - 50)%nat l.

Definition log_action (action : string) (category : option string)
    (success : bool) (details : string) : M SoundpadRuntime unit :=
  now <- Os.time ;;
  let log_entry :=
    {| timestamp := now; action := action; category := category;
       success := success; details := details |} in
  modify (λ rt, set_action_log (action_log rt ++ [log_entry]) rt) ;;
  rt <- get ;;
  if decide (50 < length (action_log rt))%nat
  then modify (λ rt, set_action_log (last_50 (action_log rt)) rt)
  else ret tt.

(** [not self.soundpad_client or not self.soundpad_connected]; a client
    object is truthy. *)
Definition not_connected (rt : SoundpadRuntime) : bool :=
  negb (bool_decide (is_Some (soundpad_client rt))) || negb (soundpad_connected rt).

(** The closure returned by [create_category_callback]. *)
Definition category_callback (category_name : string)
    (config : Config.CategoryConfig) : M SoundpadRuntime unit :=
  log_action "debug" (Some category_name) true
    ("Shortcut triggered for '" +:+ category_name +:+ "'") ;;
  rt <- get ;;
  if not_connected rt then
    log_action "play_failed" (Some category_name) false "Not connected to Soundpad"
  else
    try_except
      (settings <- app_settings ;;
       ok <- on_client
               (Client.play_random_sound_from_category
                  (Config.soundpad_category_id config)
                  (Config.play_on_speakers settings)
                  (Config.play_on_microphone settings)) ;;
       if ok : bool then
         modify (λ rt, set_stats (incr_sounds_played (stats rt)) rt) ;;
         modify (λ rt, set_stats
                         (set_last_action ("Played from '" +:+ category_name +:+ "'")
                                          (stats rt)) rt) ;;
         log_action "play_sound" (Some category_name) true ""
       else
         modify (λ rt, set_stats (incr_errors (stats rt)) rt) ;;
         log_action "play_failed" (Some category_name) false "Soundpad command failed")
      (λ e,
         Some (modify (λ rt, set_stats (incr_errors (stats rt)) rt) ;;
               log_action "play_failed" (Some category_name) false (exn_text e))).

(** The closure returned by [create_pause_callback]. *)
Definition pause_callback : M SoundpadRuntime unit :=
  log_action "debug" None true "Pause/resume shortcut triggered" ;;
  rt <- get ;;
  if not_connected rt then
    log_action "pause_failed" None false "Not connected to Soundpad"
  else
    try_except
      (current_status <- on_client Client.get_play_status ;;
       ok <- on_client Client.toggle_pause ;;
       if ok : bool then
         modify (λ rt, set_stats (incr_pauses_triggered (stats rt)) rt) ;;
         match current_status with
         | Client.PLAYING =>
             modify (λ rt, set_stats (set_last_action "Paused sound" (stats rt)) rt) ;;
             log_action "pause_sound" None true ""
         | Client.PAUSED =>
             modify (λ rt, set_stats (set_last_action "Resumed sound" (stats rt)) rt) ;;
             log_action "resume_sound" None true ""
         | _ =>
             modify (λ rt, set_stats (set_last_action "Toggled pause/resume" (stats rt)) rt) ;;
             log_action "toggle_pause" None true ""
         end
       else
         modify (λ rt, set_stats (incr_errors (stats rt)) rt) ;;
         log_action "pause_failed" None false "Soundpad command failed")
      (λ e,
         Some (modify (λ rt, set_stats (incr_errors (stats rt)) rt) ;;
               log_action "pause_failed" None false (exn_text e))).

Definition monitor_soundpad_connection : M SoundpadRuntime unit :=
  rt <- get ;;
  match soundpad_client rt with
  | None => ret tt
  | Some _ =>
      try_except
        (is_alive <- on_client Client.is_alive ;;
         rt <- get ;;
         if (is_alive : bool) && negb (soundpad_connected rt) then
           modify (set_connected true) ;;
           log_action "reconnected" None true "Soundpad connection restored"
         else if negb is_alive && soundpad_connected rt then
           modify (set_connected false) ;;
           log_action "disconnected" None false "Lost connection to Soundpad"
         else ret tt)
        (λ _,
           Some (rt <- get ;;
                 if soundpad_connected rt then
                   modify (set_connected false) ;;
                   log_action "disconnected" None false "Connection error"
                 else ret tt))
  end.

End Runtime.

(** ** Two callers of [send_request] on one client object

    A hotkey callback thread and the monitoring loop call the same client.
    [send_request] is cut at its channel operations: between two of them the
    interpreter may run the other thread.  The pieces are those of
    [Client.send_request], in order; [Interleaving.run_alone] puts them back
    together. *)

Module Interleaving.

Import Client.

(** Where a caller stands inside [send_request]. *)
Inductive position :=
  | AtStart
  | AtWrite
  | AtReadFirst
  | AtReadRest (first_byte : string)
  | Finished (result : outcome string).

(** The [except OSError] clause of [send_request], ending the call. *)
Definition guarded (m : M SoundpadClient position) : M SoundpadClient position :=
  λ c w,
    match m c w with
    | (Ok p, c', w') => (Ok p, c', w')
    | (Raise e, c', w') =>
        if is_OSError e then
          let '(_, c'', w'') := uninit c' w' in
          (Ok (Finished (Raise (Exn OSError None
                 ("Failed to communicate with Soundpad: " +:+ exn_text e)))), c'', w'')
        else (Ok (Finished (Raise e)), c', w')
    end.

(** The statements before the [try]: an exception there ends the call. *)
Definition unguarded (m : M SoundpadClient position) : M SoundpadClient position :=
  λ c w,
    match m c w with
    | (Ok p, c', w') => (Ok p, c', w')
    | (Raise e, c', w') => (Ok (Finished (Raise e)), c', w')
    end.

Definition step (request : string) (p : position) : M SoundpadClient position :=
  match p with
  | AtStart =>
      unguarded
        (init ;;
         current_time <- Os.time ;;
         c <- get ;;
         (if Z.abs (current_time - last_request_timestamp c) <? 1000
          then Os.sleep 1000 else ret tt) ;;
         ret AtWrite)
  | AtWrite =>
      guarded
        (match Py.encode_utf8 request with
         | None => Codec.encode_error request
         | Some request_bytes =>
             with_pipe (λ fd, Os.write fd request_bytes) ;; ret AtReadFirst
         end)
  | AtReadFirst =>
      guarded
        (first_byte <- with_pipe (λ fd, Os.read fd 1%N) ;;
         if Py.is_empty first_byte then
           raise (Exn OSError None "No response from Soundpad")
         else ret (AtReadRest first_byte))
  | AtReadRest first_byte =>
      guarded
        (remaining_data <- with_pipe (λ fd, Os.read fd 8192%N) ;;
         let response_bytes := first_byte +:+ remaining_data in
         match Py.decode_utf8 response_bytes with
         | None => Codec.decode_error response_bytes
         | Some decoded =>
             let response := Py.rstrip_nul decoded in
             t <- Os.time ;;
             modify (set_last_request_timestamp t) ;;
             ret (Finished (Ok response))
         end)
  | Finished r => ret (Finished r)
  end.

(** One caller running its four pieces without interruption. *)
Definition run_alone (request : string) : M SoundpadClient position :=
  p <- step request AtStart ;;
  p <- step request p ;;
  p <- step request p ;;
  step request p.

Inductive caller := CallerA | CallerB.

(** Both callers share the client object and the world. *)
Record system := {
  posA : position;
  posB : position;
  client : SoundpadClient;
  world : World;
}.

Definition start (c : SoundpadClient) (w : World) : system :=
  {| posA := AtStart; posB := AtStart; client := c; world := w |}.

(** The scheduler lets one caller execute its next piece. *)
Definition schedule_step (requestA requestB : string) (t : caller) (s : system) : system :=
  match t with
  | CallerA =>
      match step requestA (posA s) (client s) (world s) with
      | (Ok p, c, w) => {| posA := p; posB := posB s; client := c; world := w |}
      | (Raise _, c, w) => {| posA := posA s; posB := posB s; client := c; world := w |}
      end
  | CallerB =>
      match step requestB (posB s) (client s) (world s) with
      | (Ok p, c, w) => {| posA := posA s; posB := p; client := c; world := w |}
      | (Raise _, c, w) => {| posA := posA s; posB := posB s; client := c; world := w |}
      end
  end.

Definition run_schedule (requestA requestB : string) (sched : list caller) (s : system)
    : system :=
  foldl (λ s t, schedule_step requestA requestB t s) s sched.

(** A request is in flight from the moment it has been written until its
    response has been read. *)
Definition in_flight (p : position) : nat :=
  match p with
  | AtReadFirst | AtReadRest _ => 1
  | _ => 0
  end.

Definition requests_in_flight (s : system) : nat :=
  in_flight (posA s) + in_flight (posB s).

(** At most one request in flight now and after every step of [sched]. *)
Fixpoint exclusive_throughout (requestA requestB : string)
    (sched : list caller) (s : system) : Prop :=
  (requests_in_flight s ≤ 1)%nat ∧
  match sched with
  | [] => True
  | t :: sched =>
      exclusive_throughout requestA requestB sched (schedule_step requestA requestB t s)
  end.

End Interleaving.

(** ** [soundpad_client.py]: the other operations of the client *)

Module ClientOps.

Import Client.

Definition get_categories (with_sounds with_icons : bool) : M SoundpadClient string :=
  let request :=
    "GetCategories(" +:+ Py.bool_lower with_sounds +:+ ", "
    +:+ Py.bool_lower with_icons +:+ ")" in
  _handle_string_response request.

Definition get_soundlist (from_index to_index : option Z) : M SoundpadClient string :=
  let request :=
    match from_index, to_index with
    | Some f, Some t => "GetSoundlist(" +:+ Py.str_int f +:+ ", " +:+ Py.str_int t +:+ ")"
    | Some f, None => "GetSoundlist(" +:+ Py.str_int f +:+ ")"
    | None, _ => "GetSoundlist()"
    end in
  _handle_string_response request.

Definition get_version : M SoundpadClient string :=
  _handle_string_response "GetVersion()".

Definition get_remote_control_version : M SoundpadClient string :=
  _handle_string_response "GetRemoteControlVersion()".

Definition is_compatible : M SoundpadClient bool :=
  version <- get_remote_control_version ;;
  ret (bool_decide (CLIENT_VERSION = version)).

Definition is_trial : M SoundpadClient bool :=
  response <- send_request_safe "IsTrial()" ;;
  if Py.is_empty response || Py.startswith response "R" then ret false
  else
    match Py.int response with
    | Some n => ret (bool_decide (n = 1))
    | None => ret false
    end.

Definition set_volume (volume : Z) : M SoundpadClient bool :=
  let volume := Z.max 0 (Z.min 100 volume) in
  response <- send_request_safe ("SetVolume(" +:+ Py.str_int volume +:+ ")") ;;
  ret (_is_success response).

Definition is_muted : M SoundpadClient bool :=
  response <- send_request_safe "IsMuted()" ;;
  if Py.is_empty response || Py.startswith response "R" then ret false
  else
    match Py.int response with
    | Some n => ret (bool_decide (n = 1))
    | None => ret false
    end.

(** [with client: body]: [__enter__], the body, and [__exit__] on the way
    out, also when the body raises; [__exit__] returns [None], so the
    exception of the body propagates. *)
Definition __enter__ : M SoundpadClient unit := init.

Definition __exit__ : M SoundpadClient unit := uninit.

Definition with_client {A} (body : M SoundpadClient A) : M SoundpadClient A :=
  __enter__ ;;
  λ c w,
    match body c w with
    | (r, c', w') =>
        match __exit__ c' w' with
        | (Ok _, c'', w'') => (r, c'', w'')
        | (Raise e, c'', w'') => (Raise e, c'', w'')
        end
    end.

End ClientOps.

(** ** More Python string methods *)

Module PyText.

Definition upper_char (a : ascii) : ascii :=
  let n := N_of_ascii a in
  if ((97 <=? n) && (n <=? 122))%N then ascii_of_N (n - 32) else a.

(** [s.upper()] *)
Fixpoint upper (s : string) : string :=
  match s with
  | "" => ""
  | String a t => String (upper_char a) (upper t)
  end.

(** [s.capitalize()]: the first character in upper case, the rest in lower
    case. *)
Definition capitalize (s : string) : string :=
  match s with
  | "" => ""
  | String a t => String (upper_char a) (Py.lower t)
  end.

(** [s[1:]] *)
Definition slice_from_1 (s : string) : string :=
  match s with
  | "" => ""
  | String _ t => t
  end.

End PyText.

(** ** [keyboard_listener_keyboard.py]: the display form of a combination *)

Module KeyText.

(** The chain of [if key == ...] over the sorted modifiers; a modifier that
    matches none of the four names adds nothing. *)
Definition format_modifier (key : string) : option string :=
  if decide (key = "ctrl") then Some "Ctrl"
  else if decide (key = "alt") then Some "Alt"
  else if decide (key = "shift") then Some "Shift"
  else if decide (key = "cmd") then Some "Win"
  else None.

Definition format_key (key : string) : string :=
  if Py.startswith key "f" && Registry.isdigit (PyText.slice_from_1 key)
  then PyText.upper key
  else PyText.capitalize key.

(** The loops that separate and order the modifiers are those of
    [normalize_key_combination]. *)
Definition key_combination_to_string (keys : list string) : string :=
  match keys with
  | [] => ""
  | _ :: _ =>
      let '(modifiers, other_keys) := Keys.split_modifiers keys in
      let sorted_modifiers := Keys.sort_modifiers modifiers in
      let formatted_keys :=
        omap format_modifier sorted_modifiers
        ++ (format_key <$> Py.sorted other_keys) in
      Registry.join "+" formatted_keys
  end.

End KeyText.

(** ** [keyboard_listener_keyboard.py]: the other operations of the registry *)

Module RegistryOps.
Section RegistryOps.

Import Registry.

Context {Callback : Type}.

(** Whether [keyboard.remove_hotkey] raises for a handler: the [keyboard]
    library is not part of the repository, its answer is a parameter. *)
Context (removal_fails : nat → bool).

Definition set_running (b : bool) (l : KeyboardListener Callback)
    : KeyboardListener Callback :=
  {| running := b; suppress_keys := suppress_keys l;
     registered_combinations := registered_combinations l;
     hotkey_handlers := hotkey_handlers l |}.

(** [combination.enabled = b] *)
Definition set_enabled (b : bool) (k : KeyCombination Callback)
    : KeyCombination Callback :=
  {| keys := keys k; callback := callback k; description := description k;
     enabled := b; combo_id := combo_id k |}.

(** [keyboard.remove_hotkey(handler)]: whether it returned. *)
Definition remove_hotkey (handler : nat) : M (KeyboardListener Callback) bool :=
  λ l w, (Ok (negb (removal_fails handler)), l, emit (EvRemoveHotkey handler) w).

(** The first entry of [hotkey_handlers] registered under [hotkey_string],
    with its index: where the [for i, (hs, handler) in enumerate(...)] loop
    reaches its [break]. *)
Fixpoint find_handler (hotkey_string : string) (i : nat)
    (handlers : list (string * nat)) : option (nat * nat) :=
  match handlers with
  | [] => None
  | (hs, handler) :: rest =>
      if decide (hs = hotkey_string) then Some (i, handler)
      else find_handler hotkey_string (S i) rest
  end.

(** The loop itself: the entry is deleted only when the library call
    returned; [except: pass] swallows its failure. *)
Definition remove_first_handler (hotkey_string : string)
    : M (KeyboardListener Callback) unit :=
  l <- get ;;
  match find_handler hotkey_string 0 (hotkey_handlers l) with
  | None => ret tt
  | Some (i, handler) =>
      removed <- remove_hotkey handler ;;
      if removed : bool
      then modify (λ l, set_handlers (delete i (hotkey_handlers l)) l)
      else ret tt
  end.

Definition unregister_combination (combo_id : string)
    : M (KeyboardListener Callback) bool :=
  l <- get ;;
  match registered_combinations l !! combo_id with
  | None => ret false
  | Some combination =>
      let hotkey_string := _keys_to_hotkey_string (keys combination) in
      modify (λ l, set_registered (delete combo_id (registered_combinations l)) l) ;;
      l <- get ;;
      (if running l then remove_first_handler hotkey_string else ret tt) ;;
      ret true
  end.

Definition enable_combination (combo_id : string)
    : M (KeyboardListener Callback) bool :=
  l <- get ;;
  match registered_combinations l !! combo_id with
  | None => ret false
  | Some combination =>
      (if negb (enabled combination) then
         modify (λ l, set_registered
                        (<[combo_id := set_enabled true combination]>
                           (registered_combinations l)) l) ;;
         l <- get ;;
         if running l then
           let hotkey_string := _keys_to_hotkey_string (keys combination) in
           _register_hotkey hotkey_string (callback combination)
         else ret tt
       else ret tt) ;;
      ret true
  end.

Definition disable_combination (combo_id : string)
    : M (KeyboardListener Callback) bool :=
  l <- get ;;
  match registered_combinations l !! combo_id with
  | None => ret false
  | Some combination =>
      (if enabled combination then
         modify (λ l, set_registered
                        (<[combo_id := set_enabled false combination]>
                           (registered_combinations l)) l) ;;
         l <- get ;;
         if running l then
           let hotkey_string := _keys_to_hotkey_string (keys combination) in
           remove_first_handler hotkey_string
         else ret tt
       else ret tt) ;;
      ret true
  end.

(** The loop of [_unregister_all_hotkeys]: each removal is inside its own
    [try ... except: pass]. *)
Fixpoint remove_all (handlers : list (string * nat))
    : M (KeyboardListener Callback) unit :=
  match handlers with
  | [] => ret tt
  | (_, handler) :: rest => Os.remove_hotkey_quietly handler ;; remove_all rest
  end.

Definition _unregister_all_hotkeys : M (KeyboardListener Callback) unit :=
  l <- get ;;
  remove_all (hotkey_handlers l) ;;
  modify (set_handlers []).

Definition stop : M (KeyboardListener Callback) unit :=
  l <- get ;;
  if negb (running l) then ret tt
  else
    modify (set_running false) ;;
    _unregister_all_hotkeys.

End RegistryOps.
End RegistryOps.

(** ** [config_manager.py]: editing the configuration *)

Module ConfigOps.

Import Config.

Section Dict.
Context {K V : Type} `{EqDecision K}.

(** [d.get(k)] on a dict kept in insertion order. *)
Fixpoint dict_lookup (k : K) (d : list (K * V)) : option V :=
  match d with
  | [] => None
  | (k', v) :: d => if decide (k' = k) then Some v else dict_lookup k d
  end.

(** [d[k] = v]: a key that is present keeps its place, a new key goes to
    the end. *)
Fixpoint dict_set (k : K) (v : V) (d : list (K * V)) : list (K * V) :=
  match d with
  | [] => [(k, v)]
  | (k', v') :: rest =>
      if decide (k' = k) then (k, v) :: rest else (k', v') :: dict_set k v rest
  end.

(** [del d[k]] *)
Fixpoint dict_del (k : K) (d : list (K * V)) : list (K * V) :=
  match d with
  | [] => []
  | (k', v') :: rest =>
      if decide (k' = k) then rest else (k', v') :: dict_del k rest
  end.

End Dict.

Definition set_categories (cats : list (string * CategoryConfig)) (cm : ConfigManager)
    : ConfigManager :=
  {| categories := cats; stop_playback := stop_playback cm; settings := settings cm |}.

Definition add_category (name : string) (soundpad_id : Z) (folder_path : string)
    (shortcut : option (list string)) (cm : ConfigManager) : ConfigManager :=
  let category_config :=
    {| soundpad_category_id := soundpad_id;
       keyboard_shortcut := default [] shortcut;
       folder_path := folder_path;
       enabled := true;
       sound_count := 0 |} in
  set_categories (dict_set name category_config (categories cm)) cm.

Definition remove_category (name : string) (cm : ConfigManager) : bool * ConfigManager :=
  match dict_lookup name (categories cm) with
  | Some _ => (true, set_categories (dict_del name (categories cm)) cm)
  | None => (false, cm)
  end.

Definition get_category (name : string) (cm : ConfigManager) : option CategoryConfig :=
  dict_lookup name (categories cm).

(** [categories[name][field] = value], by the three methods below: the
    entry is changed in place. *)
Definition with_shortcut (shortcut : list string) (c : CategoryConfig) : CategoryConfig :=
  {| soundpad_category_id := soundpad_category_id c; keyboard_shortcut := shortcut;
     folder_path := folder_path c; enabled := enabled c; sound_count := sound_count c |}.

Definition with_sound_count (count : Z) (c : CategoryConfig) : CategoryConfig :=
  {| soundpad_category_id := soundpad_category_id c;
     keyboard_shortcut := keyboard_shortcut c;
     folder_path := folder_path c; enabled := enabled c; sound_count := count |}.

Definition with_enabled (b : bool) (c : CategoryConfig) : CategoryConfig :=
  {| soundpad_category_id := soundpad_category_id c;
     keyboard_shortcut := keyboard_shortcut c;
     folder_path := folder_path c; enabled := b; sound_count := sound_count c |}.

Definition update_category_shortcut (name : string) (shortcut : list string)
    (cm : ConfigManager) : bool * ConfigManager :=
  match dict_lookup name (categories cm) with
  | Some c =>
      (true, set_categories (dict_set name (with_shortcut shortcut c) (categories cm)) cm)
  | None => (false, cm)
  end.

Definition update_category_sound_count (name : string) (count : Z)
    (cm : ConfigManager) : bool * ConfigManager :=
  match dict_lookup name (categories cm) with
  | Some c =>
      (true, set_categories (dict_set name (with_sound_count count c) (categories cm)) cm)
  | None => (false, cm)
  end.

Definition set_category_enabled (name : string) (enabled : bool)
    (cm : ConfigManager) : bool * ConfigManager :=
  match dict_lookup name (categories cm) with
  | Some c =>
      (true, set_categories (dict_set name (with_enabled enabled c) (categories cm)) cm)
  | None => (false, cm)
  end.

(** The loop of [get_shortcut_mapping] over the enabled categories. *)
Fixpoint map_categories (cats : list (string * CategoryConfig))
    (shortcut_map : list (list string * string)) : list (list string * string) :=
  match cats with
  | [] => shortcut_map
  | (name, config) :: cats =>
      match keyboard_shortcut config with
      | [] => map_categories cats shortcut_map
      | _ :: _ =>
          let shortcut_key := Py.sorted (keyboard_shortcut config) in
          map_categories cats (dict_set shortcut_key name shortcut_map)
      end
  end.

Definition get_shortcut_mapping (cm : ConfigManager) : list (list string * string) :=
  let shortcut_map := map_categories (get_enabled_categories cm) [] in
  match get_stop_shortcut cm with
  | [] => shortcut_map
  | _ :: _ =>
      dict_set (Py.sorted (get_stop_shortcut cm)) "__pause_resume__" shortcut_map
  end.

End ConfigOps.

(** ** [SoundpadRuntime.setup_keyboard_shortcuts] *)

Module Setup.

(** The closures that [create_category_callback] and
    [create_pause_callback] return, as data: calling the first is
    [Runtime.category_callback category_name config], calling the second
    [Runtime.pause_callback]. *)
Inductive Callback :=
  | CategoryCallback (category_name : string) (config : Config.CategoryConfig)
  | PauseCallback.

(** A [SoundpadRuntime] object with the two attributes that the set-up of
    the shortcuts uses besides those of [Runtime.SoundpadRuntime]. *)
Record RuntimeShortcuts := {
  runtime : Runtime.SoundpadRuntime;
  keyboard_listener : option (Registry.KeyboardListener Callback);
  shortcuts_loaded : Z;
}.

Definition set_runtime (rt : Runtime.SoundpadRuntime) (st : RuntimeShortcuts)
    : RuntimeShortcuts :=
  {| runtime := rt; keyboard_listener := keyboard_listener st;
     shortcuts_loaded := shortcuts_loaded st |}.

Definition set_listener (l : option (Registry.KeyboardListener Callback))
    (st : RuntimeShortcuts) : RuntimeShortcuts :=
  {| runtime := runtime st; keyboard_listener := l;
     shortcuts_loaded := shortcuts_loaded st |}.

(** [self.shortcuts_loaded += 1] *)
Definition incr_shortcuts_loaded (st : RuntimeShortcuts) : RuntimeShortcuts :=
  {| runtime := runtime st; keyboard_listener := keyboard_listener st;
     shortcuts_loaded := shortcuts_loaded st + 1 |}.

(** [KeyboardListener(suppress_keys)]: the constructor refuses to build a
    listener when the [keyboard] library could not be imported; whether it
    could is the module-level flag [KEYBOARD_AVAILABLE], a parameter. *)
Definition new_listener {S} (keyboard_available : bool) (suppress_keys : bool)
    : M S (Registry.KeyboardListener Callback) :=
  if keyboard_available then
    ret {| Registry.running := false; Registry.suppress_keys := suppress_keys;
           Registry.registered_combinations := ∅; Registry.hotkey_handlers := [] |}
  else raise (Exn RuntimeError None "keyboard library is required for keyboard monitoring").

(** [self.log_action(...)] *)
Definition log_action (action : string) (category : option string) (success : bool)
    (details : string) : M RuntimeShortcuts unit :=
  zoom runtime set_runtime (Runtime.log_action action category success details).

(** A method call on [self.keyboard_listener]. *)
Definition on_listener {A} (m : M (Registry.KeyboardListener Callback) A)
    : M RuntimeShortcuts A :=
  λ st w,
    match keyboard_listener st with
    | Some l => let '(r, l', w') := m l w in (r, set_listener (Some l') st, w')
    | None =>
        (Raise (Exn AttributeError None "'NoneType' object has no attribute"), st, w)
    end.

(** The loop over the enabled categories. *)
Fixpoint register_categories (categories : list (string * Config.CategoryConfig))
    : M RuntimeShortcuts unit :=
  match categories with
  | [] => ret tt
  | (name, config) :: categories =>
      match Config.keyboard_shortcut config with
      | [] => ret tt
      | _ :: _ =>
          let callback := CategoryCallback name config in
          combo_id <- on_listener
                        (Registry.register_combination
                           (Config.keyboard_shortcut config) callback
                           (Some ("category_" +:+ name))
                           ("Play random sound from " +:+ name)) ;;
          let shortcut_str :=
            KeyText.key_combination_to_string (Config.keyboard_shortcut config) in
          let hotkey_str :=
            Registry._keys_to_hotkey_string (Config.keyboard_shortcut config) in
          log_action "debug" None true
            ("Registered " +:+ shortcut_str +:+ " -> '" +:+ hotkey_str +:+ "' for '"
             +:+ name +:+ "'") ;;
          modify incr_shortcuts_loaded
      end ;;
      register_categories categories
  end.

(** [console.print] writes a line to the terminal; so does the prompt of
    [input], whose answer is discarded and whose [EOFError] is caught. *)
Definition setup_keyboard_shortcuts (keyboard_available : bool)
    : M RuntimeShortcuts bool :=
  st <- get ;;
  match Runtime.config_manager (runtime st) with
  | None => ret false
  | Some config_manager =>
      try_except
        (l <- new_listener keyboard_available false ;;
         modify (set_listener (Some l)) ;;
         log_action "debug" None true "KeyboardListener created" ;;
         let categories := Config.get_enabled_categories config_manager in
         register_categories categories ;;
         let pause_resume_shortcut := Config.get_stop_shortcut config_manager in
         match pause_resume_shortcut with
         | [] => ret tt
         | _ :: _ =>
             let callback := PauseCallback in
             combo_id <- on_listener
                           (Registry.register_combination pause_resume_shortcut
                              callback (Some "pause_resume") "Toggle pause/resume") ;;
             let shortcut_str :=
               KeyText.key_combination_to_string pause_resume_shortcut in
             let hotkey_str := Registry._keys_to_hotkey_string pause_resume_shortcut in
             log_action "debug" None true
               ("Registered pause/resume " +:+ shortcut_str +:+ " -> '" +:+ hotkey_str
                +:+ "'") ;;
             modify incr_shortcuts_loaded
         end ;;
         ret true)
        (λ e,
           Some (Os.print ("[red]Error setting up shortcuts: " +:+ exn_text e
                           +:+ "[/red]") ;;
                 log_action "debug" None false
                   ("Error setting up shortcuts: " +:+ exn_text e) ;;
                 Os.print (String (ascii_of_N 10) "Press Enter to continue...") ;;
                 ret false))
  end.

End Setup.

(** ** [ConfigManager.validate_config] *)

Module Validation.
Section Validation.

Import Config.

(** The file system as [os.path.exists], [os.path.isdir] and
    [os.access(path, os.X_OK)], [os.access(path, os.R_OK)] see it, and the
    path that [get_soundpad_executable_path] reads from the ['soundpad']
    section of the file, which the model of the configuration does not
    carry: parameters. *)
Context (path_exists path_isdir access_x access_r : string → bool).
Context (soundpad_executable_path : string).

(** [s.endswith(suffix)] *)
Fixpoint endswith (s suffix : string) : bool :=
  bool_decide (s = suffix)
  || match s with
     | "" => false
     | String _ t => endswith t suffix
     end.

(** The characters of a string, each as a string: [set('abc...')]. *)
Fixpoint characters (s : string) : list string :=
  match s with
  | "" => []
  | String a t => String a "" :: characters t
  end.

Definition valid_keys : list string :=
  [ "ctrl"; "alt"; "shift"; "cmd";
    "f1"; "f2"; "f3"; "f4"; "f5"; "f6"; "f7"; "f8"; "f9"; "f10"; "f11"; "f12";
    "space"; "enter"; "tab"; "esc"; "backspace"; "delete";
    "up"; "down"; "left"; "right"; "home"; "end"; "page_up"; "page_down";
    "insert"; "pause"; "print_screen"; "scroll_lock"; "num_lock"; "caps_lock" ]
  ++ characters "abcdefghijklmnopqrstuvwxyz0123456789".

(** [len(l)] in a message *)
Definition str_len {A} (l : list A) : string := Py.str_int (Z.of_nat (length l)).

Definition executable_issues : list string :=
  let soundpad_path := soundpad_executable_path in
  if negb (Py.is_empty soundpad_path) then
    if negb (path_exists soundpad_path) then
      ["Soundpad executable not found: " +:+ soundpad_path]
    else if negb (endswith (Py.lower soundpad_path) ".exe") then
      ["Soundpad path should point to executable (.exe): " +:+ soundpad_path]
    else if negb (access_x soundpad_path) then
      ["Soundpad executable is not executable: " +:+ soundpad_path]
    else []
  else ["Soundpad executable path is not configured"].

Definition folder_issues (name : string) (config : CategoryConfig) : list string :=
  if negb (Py.is_empty (folder_path config)) then
    if negb (path_exists (folder_path config)) then
      ["Category '" +:+ name +:+ "' folder not found: " +:+ folder_path config]
    else if negb (path_isdir (folder_path config)) then
      ["Category '" +:+ name +:+ "' path is not a directory: " +:+ folder_path config]
    else if negb (access_r (folder_path config)) then
      ["Category '" +:+ name +:+ "' folder is not readable: " +:+ folder_path config]
    else []
  else ["Category '" +:+ name +:+ "' has no folder path configured"].

Definition id_issues (name : string) (config : CategoryConfig) : list string :=
  if soundpad_category_id config <=? 0 then
    ["Category '" +:+ name +:+ "' has invalid Soundpad ID: "
     +:+ Py.str_int (soundpad_category_id config)]
  else [].

(** The loop [for key in config.keyboard_shortcut]. *)
Definition key_issues (name : string) (shortcut : list string) : list string :=
  omap (λ key,
          if bool_decide (Py.lower key ∈ valid_keys) then None
          else Some ("Category '" +:+ name +:+ "' has invalid key in shortcut: '"
                     +:+ key +:+ "'"))
       shortcut.

Definition shortcut_issues (name : string) (config : CategoryConfig) : list string :=
  match keyboard_shortcut config with
  | [] => []
  | _ :: _ =>
      (if (length (keyboard_shortcut config) =? 0)%nat then
         ["Category '" +:+ name +:+ "' has empty keyboard shortcut"]
       else if (4 <? length (keyboard_shortcut config))%nat then
         ["Category '" +:+ name +:+ "' has too many keys in shortcut (max 4): "
          +:+ str_len (keyboard_shortcut config)]
       else [])
      ++ key_issues name (keyboard_shortcut config)
  end.

(** The body of the loop over [categories.items()]. *)
Definition category_issues (nc : string * CategoryConfig) : list string :=
  folder_issues nc.1 nc.2 ++ id_issues nc.1 nc.2 ++ shortcut_issues nc.1 nc.2.

Definition stop_issues (stop_shortcut : list string) : list string :=
  match stop_shortcut with
  | [] => []
  | _ :: _ =>
      if (length stop_shortcut =? 0)%nat then
        ["Pause/resume shortcut is configured but empty"]
      else if (4 <? length stop_shortcut)%nat then
        ["Pause/resume shortcut has too many keys (max 4): " +:+ str_len stop_shortcut]
      else []
  end.

(** The loop over [conflicts.items()]. *)
Definition conflict_issue (conflict : list string * list string) : string :=
  let shortcut_str := Registry.join "+" (Py.sorted conflict.1) in
  let items_str := Registry.join ", " conflict.2 in
  "Shortcut conflict '" +:+ shortcut_str +:+ "': " +:+ items_str.

Definition enabled_issues (cm : ConfigManager) : list string :=
  let enabled_categories := get_enabled_categories cm in
  (match enabled_categories with
   | [] => ["No enabled categories found - run setup tool first"]
   | _ :: _ => []
   end)
  ++ (let categories_with_shortcuts :=
        length (filter (λ nc, keyboard_shortcut nc.2 ≠ []) enabled_categories) in
      if (categories_with_shortcuts =? 0)%nat then
        ["No categories have keyboard shortcuts assigned"]
      else []).

(** The issues are appended section by section, in this order. *)
Definition validate_config (cm : ConfigManager) : list string :=
  executable_issues
  ++ (get_all_categories cm ≫= category_issues)
  ++ stop_issues (get_stop_shortcut cm)
  ++ (conflict_issue <$> get_conflicting_shortcuts cm)
  ++ enabled_issues cm.

End Validation.
End Validation.

(** ** [SoundpadConfig._check_shortcut_conflicts] *)

Module SoundpadConfig.
Section SoundpadConfig.

Import Config.

(** [Confirm.ask] of the [rich] library and the built-in [input] talk to
    the user: parameters.  The state is [self.config_manager], [None] until
    the configuration is initialised. *)
Context (Confirm_ask : string → M (option ConfigManager) bool).
Context (input : string → M (option ConfigManager) string).

(** The loop that fills [existing_shortcuts], a dict from sorted key tuples
    to the name that claimed the tuple last. *)
Fixpoint collect_existing (selected_category : string)
    (categories : list (string * CategoryConfig))
    (existing_shortcuts : gmap (list string) string) : gmap (list string) string :=
  match categories with
  | [] => existing_shortcuts
  | (name, config) :: categories =>
      collect_existing selected_category categories
        (if bool_decide (name ≠ selected_category) then
           match keyboard_shortcut config with
           | [] => existing_shortcuts
           | _ :: _ =>
               let existing_key := Py.sorted (keyboard_shortcut config) in
               <[existing_key := name]> existing_shortcuts
           end
         else existing_shortcuts)
  end.

Definition existing_shortcuts (selected_category : string) (cm : ConfigManager)
    : gmap (list string) string :=
  let all_categories := get_all_categories cm in
  let existing_shortcuts := collect_existing selected_category all_categories ∅ in
  let stop_shortcut := get_stop_shortcut cm in
  match stop_shortcut with
  | [] => existing_shortcuts
  | _ :: _ =>
      let stop_key := Py.sorted stop_shortcut in
      <[stop_key := "stop_playback"]> existing_shortcuts
  end.

(** The question to the user, with its fallbacks: [except Exception] and
    the bare [except] catch every exception of the model. *)
Definition assign_anyway : M (option ConfigManager) bool :=
  try_except (Confirm_ask "Assign anyway?")
    (λ _,
       Some (try_except
               (response <- input "Assign anyway? [y/n]: " ;;
                let response := Py.strip (Py.lower response) in
                ret (bool_decide (response ∈ ["y"; "yes"])))
               (λ _, Some (ret false)))).

Definition _check_shortcut_conflicts (selected_category : string)
    (new_shortcut : list string) : M (option ConfigManager) bool :=
  let shortcut_key := Py.sorted new_shortcut in
  config_manager <- get ;;
  match config_manager with
  | None =>
      raise (Exn AttributeError None
               "'NoneType' object has no attribute 'get_all_categories'")
  | Some cm =>
      match existing_shortcuts selected_category cm !! shortcut_key with
      | Some conflicting_item =>
          let combo_str := KeyText.key_combination_to_string new_shortcut in
          Os.print "[red]Warning: Conflict detected![/red]" ;;
          Os.print ("[red]Shortcut '" +:+ combo_str +:+ "' is already used by: "
                    +:+ conflicting_item +:+ "[/red]") ;;
          assign_anyway
      | None => ret true
      end
  end.

End SoundpadConfig.
End SoundpadConfig.

(** ** Simulated channels and sample objects *)

(** A channel that answers every [os.open] with [o], every [os.write] with
    [wr], the first read of each exchange with [first] and the second with
    [rest]; the clock advances 5 ms per reading.  The codec errors carry the
    texts of the two samples below: the byte 0xFF that does not decode, and
    the lone surrogate U+DC80 that does not encode. *)
Definition scripted (o : os_error + Z) (wr : option os_error)
    (first rest : os_error + string) : World :=
  {| open_script := λ _, o;
     write_script := λ _, wr;
     read_script := λ k, if Nat.even k then first else rest;
     clock_script := λ k, 5000 * Z.of_nat k;
     hotkey_script := λ _, None;
     decode_error_text :=
       λ _, "'utf-8' codec can't decode byte 0xff in position 0: invalid start byte";
     encode_error_text :=
       λ _, "'utf-8' codec can't encode character '\udc80' in position 0: surrogates not allowed";
     opens := 0; writes := 0; reads := 0; ticks := 0; hooks := 0;
     trace := [] |}.

(** A healthy channel whose remote process answers [answer]. *)
Definition answering (answer : string) : World :=
  scripted (inr 3) None (inr answer)
    (inr (match answer with String _ t => t | "" => "" end)).

Definition no_such_pipe : os_error := OsError EFileNotFound 2 "No such file or directory".
Definition access_denied : os_error := OsError EPermission 13 "Permission denied".
Definition broken_pipe : os_error := OsError EOther 32 "Broken pipe".

Definition fresh_client : Client.SoundpadClient :=
  {| Client.print_errors := false; Client.pipe := None;
     Client.last_request_timestamp := 0 |}.

(** The same client with [print_errors] set, as [create_client] makes it by
    default. *)
Definition loud_client : Client.SoundpadClient :=
  {| Client.print_errors := true; Client.pipe := None;
     Client.last_request_timestamp := 0 |}.

(** A category bound to Soundpad category 5, a configuration that holds it
    with default settings, and two runtimes around a client whose channel
    is not open yet: one believes Soundpad is reachable, the other carries a
    cleared liveness flag. *)
Definition category_5 : Config.CategoryConfig :=
  {| Config.soundpad_category_id := 5; Config.keyboard_shortcut := ["alt"; "5"];
     Config.folder_path := "C:\sounds\fx"; Config.enabled := true;
     Config.sound_count := 12 |}.

Definition sample_config : Config.ConfigManager :=
  {| Config.categories := [("fx", category_5)];
     Config.stop_playback := ["ctrl"; "alt"; "p"];
     Config.settings :=
       {| Config.cfg_play_on_speakers := None; Config.cfg_play_on_microphone := None;
          Config.cfg_log_level := None; Config.cfg_show_notifications := None;
          Config.cfg_auto_start_with_windows := None;
          Config.cfg_unknown_keys := [] |} |}.

Definition category_with (id : Z) (shortcut : list string) : Config.CategoryConfig :=
  {| Config.soundpad_category_id := id; Config.keyboard_shortcut := shortcut;
     Config.folder_path := ""; Config.enabled := true; Config.sound_count := 0 |}.

(** Two categories and the pause/resume binding on the same keys, in
    different orders. *)
Definition clash_config : Config.ConfigManager :=
  {| Config.categories :=
       [("fx", category_with 5 ["alt"; "5"]); ("meme", category_with 6 ["5"; "alt"]);
        ("voice", category_with 7 ["alt"; "7"])];
     Config.stop_playback := ["alt"; "5"];
     Config.settings := Config.settings sample_config |}.

(** A listener that has been started and holds no combination yet. *)
Definition empty_listener : Registry.KeyboardListener unit :=
  {| Registry.running := true; Registry.suppress_keys := false;
     Registry.registered_combinations := ∅; Registry.hotkey_handlers := [] |}.

Definition no_stats : Runtime.Stats :=
  {| Runtime.sounds_played := 0; Runtime.pauses_triggered := 0; Runtime.errors := 0;
     Runtime.start_time := None; Runtime.last_action := None |}.

Definition sample_runtime (connected : bool) : Runtime.SoundpadRuntime :=
  {| Runtime.config_manager := Some sample_config;
     Runtime.soundpad_client := Some fresh_client;
     Runtime.soundpad_connected := connected;
     Runtime.action_log := []; Runtime.stats := no_stats |}.

(** What the volume query returns on a healthy channel whose remote process
    answers with an error marker, and with the volume 0. *)
Definition reply_404 : outcome string * Client.SoundpadClient * World :=
  Eval vm_compute in
    Client.send_request_safe "GetVolume()" fresh_client (answering "R-404").

Definition reply_0 : outcome string * Client.SoundpadClient * World :=
  Eval vm_compute in
    Client.send_request_safe "GetVolume()" fresh_client (answering "0").

(** More sample objects: a response that is not UTF-8 (the single byte
    0xFF), a request that does not encode (the lone surrogate U+DC80, in its
    three-byte form), and what the version query returns on a healthy
    channel. *)
Definition undecodable_reply : string := String (ascii_of_N 255) "".

Definition lone_surrogate : string :=
  String (ascii_of_N 237) (String (ascii_of_N 178) (String (ascii_of_N 128) "")).

Definition version_reply : outcome string * Client.SoundpadClient * World :=
  Eval vm_compute in
    Client._handle_string_response "GetVersion()" fresh_client (answering "3.3.2").

(** A listener that has not been started and holds no combination. *)
Definition stopped_listener : Registry.KeyboardListener unit :=
  {| Registry.running := false; Registry.suppress_keys := false;
     Registry.registered_combinations := ∅; Registry.hotkey_handlers := [] |}.

(** A runtime whose shortcuts have not been set up yet. *)
Definition sample_shortcuts : Setup.RuntimeShortcuts :=
  {| Setup.runtime := sample_runtime true; Setup.keyboard_listener := None;
     Setup.shortcuts_loaded := 0 |}.

(** ** Vocabulary of the statements *)

(** The channel faults of one exchange started in client state [c] and world
    [w]: the channel cannot be opened (absent, permission denied, busy, any
    other failure), the write fails, a read fails, or the first read delivers
    nothing. *)
Inductive channel_fault (c : Client.SoundpadClient) (w : World) : Prop :=
  | open_failure e :
      Client.pipe c = None → open_script w (opens w) = inl e → channel_fault c w
  | write_failure e :
      write_script w (writes w) = Some e → channel_fault c w
  | read_failure e :
      read_script w (reads w) = inl e → channel_fault c w
  | empty_response :
      read_script w (reads w) = inr "" → channel_fault c w
  | read_rest_failure e :
      read_script w (S (reads w)) = inl e → channel_fault c w.

(** An I/O failure during the write or a read of an exchange. *)
Inductive io_failure (w : World) : Prop :=
  | io_write e : write_script w (writes w) = Some e → io_failure w
  | io_read e : read_script w (reads w) = inl e → io_failure w
  | io_empty : read_script w (reads w) = inr "" → io_failure w
  | io_read_rest e : read_script w (S (reads w)) = inl e → io_failure w.

(** The channel is open already or the next [os.open] succeeds. *)
Definition channel_available (c : Client.SoundpadClient) (w : World) : Prop :=
  is_Some (Client.pipe c) ∨ ∃ fd, open_script w (opens w) = inr fd.

(** The operation [op], started in client state [c] and world [w], absorbs
    the fault: it returns [neutral] with the handle reset, and when
    [print_errors] is set the communication error is among the lines it
    prints. *)
Definition absorbed {A} (op : M Client.SoundpadClient A) (neutral : A)
    (c : Client.SoundpadClient) (w : World) : Prop :=
  ∃ w' evs,
    op c w = (Ok neutral, Client.set_pipe None c, w')
    ∧ trace w' = trace w ++ evs
    ∧ (Client.print_errors c = true →
       ∃ message, EvPrint ("Soundpad communication error: " +:+ message) ∈ evs).

(** The part of a trace added by a call. *)
Definition added_events (before after : World) (evs : list event) : Prop :=
  trace after = trace before ++ evs.

(** The payloads written to the channel, in order. *)
Definition written (evs : list event) : list string :=
  omap (λ ev, match ev with EvWrite _ data => Some data | _ => None end) evs.

(** The runtime after [log_action] has appended [entry]: the log keeps its
    last 50 entries. *)
Definition logged (entry : Runtime.ActionLog) (rt : Runtime.SoundpadRuntime)
    : Runtime.SoundpadRuntime :=
  Runtime.set_action_log
    (if decide (50 < length (Runtime.action_log rt ++ [entry]))%nat
     then Runtime.last_50 (Runtime.action_log rt ++ [entry])
     else Runtime.action_log rt ++ [entry]) rt.

Definition debug_entry (now : Z) (category : option string) (details : string)
    : Runtime.ActionLog :=
  {| Runtime.timestamp := now; Runtime.action := "debug";
     Runtime.category := category; Runtime.success := true;
     Runtime.details := details |}.

Definition failure_entry (now : Z) (action : string) (category : option string)
    (details : string) : Runtime.ActionLog :=
  {| Runtime.timestamp := now; Runtime.action := action;
     Runtime.category := category; Runtime.success := false;
     Runtime.details := details |}.

Definition success_entry (now : Z) (action : string) (category : option string)
    : Runtime.ActionLog :=
  {| Runtime.timestamp := now; Runtime.action := action;
     Runtime.category := category; Runtime.success := true;
     Runtime.details := "" |}.

(** A key token as the first loop of [normalize_key_combination] leaves it:
    not empty, unchanged by the clean-up and in lower case. *)
Definition canonical_key (x : string) : Prop :=
  x ≠ "" ∧ Keys.clean_key x = x ∧ Py.lower x = x.

(** The result built from the de-duplicated canonical tokens [l]: the
    modifiers present, in the fixed order, then the others sorted. *)
Definition canonical_shape (l : list string) : list string :=
  filter (λ m, m ∈ l) Keys.modifier_order
  ++ Py.sorted (filter (λ x, x ∉ Keys.modifier_order) l).

(** The candidate bindings of a configuration, in the order the resolver
    visits them: every category under its identifier, then the reserved
    pause/resume binding. *)
Definition bindings (cm : Config.ConfigManager) : list (string * list string) :=
  ((λ nc : string * Config.CategoryConfig,
      ("category:" +:+ nc.1, Config.keyboard_shortcut nc.2))
     <$> Config.get_all_categories cm)
  ++ [("pause_resume", Config.get_stop_shortcut cm)].

(** What a binding contributes to the resolver: nothing when its key list
    is empty, else its sorted key tuple and its identifier. *)
Definition entry_of (b : string * list string) : option (list string * string) :=
  match b.2 with
  | [] => None
  | _ :: _ => Some (Py.sorted b.2, b.1)
  end.

(** The identifiers filed under the key tuple [k], in order. *)
Definition owners_of (k : list string) (es : list (list string * string)) : list string :=
  (filter (λ e, e.1 = k) es).*2.

(** [conflicts.get(k)] on the resolver's dictionary. *)
Fixpoint dd_get (k : list string) (d : list (list string * list string))
    : option (list string) :=
  match d with
  | [] => None
  | (k', v) :: d => if decide (k' = k) then Some v else dd_get k d
  end.

(** One step of the resolver's loops: [conflicts[key].append(id)]. *)
Definition file_entry (d : list (list string * list string))
    (e : list string * string) : list (list string * list string) :=
  Config.dd_append e.1 e.2 d.

(** [returns P m]: whenever [m] returns a value, the value satisfies [P]. *)
Definition returns {S A} (P : A → Prop) (m : M S A) : Prop :=
  ∀ s w a s' w', m s w = (Ok a, s', w') → P a.

(** How far a caller is inside [send_request]. *)
Definition rank (p : Interleaving.position) : nat :=
  match p with
  | Interleaving.AtStart => 0
  | Interleaving.AtWrite => 1
  | Interleaving.AtReadFirst => 2
  | Interleaving.AtReadRest _ => 3
  | Interleaving.Finished _ => 4
  end.

(** One piece ends the call or moves the caller to the next position. *)
Definition advanced (p p' : Interleaving.position) : Prop :=
  match p' with
  | Interleaving.Finished _ => True
  | _ => rank p' = S (rank p)
  end.

(** The request string built by [play_random_sound_from_category]. *)
Definition play_request (category : Z) (speakers microphone : bool) : string :=
  "DoPlayRandomSoundFromCategory(" +:+ Py.str_int category +:+ ", "
  +:+ Py.bool_lower speakers +:+ ", " +:+ Py.bool_lower microphone +:+ ")".

(** The runtime after the category callback has logged its trigger at time
    [now], made the client call with result [call], and booked the outcome. *)
Definition booked (name : string) (rt : Runtime.SoundpadRuntime) (now : Z)
    (call : outcome bool * Client.SoundpadClient * World) : Runtime.SoundpadRuntime :=
  let rt1 :=
    Runtime.set_client (Some call.1.2)
      (logged (debug_entry now (Some name)
                 ("Shortcut triggered for '" +:+ name +:+ "'")) rt) in
  let later := clock_script call.2 (ticks call.2) in
  match call.1.1 with
  | Ok true =>
      logged (success_entry later "play_sound" (Some name))
        (Runtime.set_stats
           (Runtime.set_last_action ("Played from '" +:+ name +:+ "'")
              (Runtime.incr_sounds_played (Runtime.stats rt1))) rt1)
  | Ok false =>
      logged (failure_entry later "play_failed" (Some name) "Soundpad command failed")
        (Runtime.set_stats (Runtime.incr_errors (Runtime.stats rt1)) rt1)
  | Raise e =>
      logged (failure_entry later "play_failed" (Some name) (exn_text e))
        (Runtime.set_stats (Runtime.incr_errors (Runtime.stats rt1)) rt1)
  end.

(** [emits P m]: running [m] only appends events to the trace, all of which
    satisfy [P]. *)
Definition emits {S A} (P : event → Prop) (m : M S A) : Prop :=
  ∀ s w, ∃ evs, trace (m s w).2 = trace w ++ evs ∧ Forall P evs.

(** [w'] is [w] with more events. *)
Definition extends (w w' : World) : Prop := ∃ evs, trace w' = trace w ++ evs.

Definition not_a_write (ev : event) : Prop :=
  match ev with EvWrite _ _ => False | _ => True end.

(** The parts of [Client.send_request], named for the proofs: the body of
    its [try], its [except OSError] clause, and the world after the pacing
    test of its prelude. *)
Definition exchange (request_bytes : string) : M Client.SoundpadClient string :=
  Client.with_pipe (λ fd, Os.write fd request_bytes) ;;
  first_byte <- Client.with_pipe (λ fd, Os.read fd 1%N) ;;
  if Py.is_empty first_byte then
    raise (Exn OSError None "No response from Soundpad")
  else
    remaining_data <- Client.with_pipe (λ fd, Os.read fd 8192%N) ;;
    let response_bytes := first_byte +:+ remaining_data in
    match Py.decode_utf8 response_bytes with
    | None => Codec.decode_error response_bytes
    | Some decoded =>
        let response := Py.rstrip_nul decoded in
        t <- Os.time ;;
        modify (Client.set_last_request_timestamp t) ;;
        ret response
    end.

Definition encoded_exchange (request : string) : M Client.SoundpadClient string :=
  match Py.encode_utf8 request with
  | None => Codec.encode_error request
  | Some request_bytes => exchange request_bytes
  end.

(** The [UnicodeDecodeError] for the bytes [b] and the [UnicodeEncodeError]
    for the [str] [t], as raised in world [w]. *)
Definition decode_exn (w : World) (b : string) : exn :=
  Exn UnicodeDecodeError None (decode_error_text w b).

Definition encode_exn (w : World) (t : string) : exn :=
  Exn UnicodeEncodeError None (encode_error_text w t).

Definition on_os_error (e : exn) : option (M Client.SoundpadClient string) :=
  if is_OSError e then
    Some (Client.uninit ;;
          raise (Exn OSError None
                   ("Failed to communicate with Soundpad: " +:+ exn_text e)))
  else None.

(** The [OSError] that the [except] clause of [send_request] raises in place
    of [e]. *)
Definition wrapped (e : exn) : exn :=
  Exn OSError None ("Failed to communicate with Soundpad: " +:+ exn_text e).

Definition paced (c : Client.SoundpadClient) (w : World) : World :=
  if Z.abs (clock_script w (ticks w) - Client.last_request_timestamp c) <? 1000
  then emit (EvSleep 1000) (next_tick w)
  else next_tick w.

(** More vocabulary: events that are not an [os.open], and the bytes that
    [send_request] assembles from the two reads of a response. *)
Definition not_an_open (ev : event) : Prop :=
  match ev with EvOpen _ => False | _ => True end.

Definition response_bytes (data rest : string) : string :=
  Py.slice_to 1 data +:+ Py.slice_to (N.to_nat 8192) rest.

(** The events of the pacing test of [send_request]. *)
Definition pacing_events (c : Client.SoundpadClient) (w : World) : list event :=
  if Z.abs (clock_script w (ticks w) - Client.last_request_timestamp c) <? 1000
  then [EvSleep 1000] else [].

(** What an enabled category contributes to [get_shortcut_mapping], and the
    entries the mapping is built from, in order: the enabled categories
    with a shortcut, then the pause/resume shortcut. *)
Definition mapping_entry (nc : string * Config.CategoryConfig)
    : option (list string * string) :=
  match Config.keyboard_shortcut nc.2 with
  | [] => None
  | _ :: _ => Some (Py.sorted (Config.keyboard_shortcut nc.2), nc.1)
  end.

Definition mapping_entries (cm : Config.ConfigManager) : list (list string * string) :=
  omap mapping_entry (Config.get_enabled_categories cm)
  ++ match Config.get_stop_shortcut cm with
     | [] => []
     | _ :: _ => [(Py.sorted (Config.get_stop_shortcut cm), "__pause_resume__")]
     end.

(** One step of the loops: [shortcut_map[key] = name]. *)
Definition set_entry (d : list (list string * string)) (e : list string * string)
    : list (list string * string) :=
  ConfigOps.dict_set e.1 e.2 d.

(** [never_raises m]: from every state and world [m] returns a value. *)
Definition never_raises {S A} (m : M S A) : Prop :=
  ∀ s w, ∃ a s' w', m s w = (Ok a, s', w').

(** What the liveness probe of the monitor finds: the answer of
    [is_alive], or [False] when the probe raises. *)
Definition probed_alive (r : outcome bool * Client.SoundpadClient * World) : bool :=
  match r.1.1 with
  | Ok b => b
  | Raise _ => false
  end.

(** The combinations that the set-up registers: one per enabled category
    with a shortcut, and one for the pause/resume shortcut. *)
Definition category_combination (name : string) (config : Config.CategoryConfig)
    : Registry.KeyCombination Setup.Callback :=
  {| Registry.keys := Config.keyboard_shortcut config;
     Registry.callback := Setup.CategoryCallback name config;
     Registry.description := "Play random sound from " +:+ name;
     Registry.enabled := true;
     Registry.combo_id := "category_" +:+ name |}.

Definition pause_combination (shortcut : list string)
    : Registry.KeyCombination Setup.Callback :=
  {| Registry.keys := shortcut;
     Registry.callback := Setup.PauseCallback;
     Registry.description := "Toggle pause/resume";
     Registry.enabled := true;
     Registry.combo_id := "pause_resume" |}.

Definition registration (nc : string * Config.CategoryConfig)
    : option (string * Registry.KeyCombination Setup.Callback) :=
  match Config.keyboard_shortcut nc.2 with
  | [] => None
  | _ :: _ => Some ("category_" +:+ nc.1, category_combination nc.1 nc.2)
  end.

(** One registration: [registered_combinations[combo_id] = combination]. *)
Definition registered_with
    (m : gmap string (Registry.KeyCombination Setup.Callback))
    (e : string * Registry.KeyCombination Setup.Callback)
    : gmap string (Registry.KeyCombination Setup.Callback) :=
  <[e.1 := e.2]> m.

(** [item] holds the keys of [new_shortcut], in some order, for the check
    of a new shortcut of [selected_category]: the pause/resume shortcut, or
    the shortcut of another category. *)
Definition claims_keys (cm : Config.ConfigManager) (selected_category : string)
    (new_shortcut : list string) (item : string) : Prop :=
  (item = "stop_playback" ∧ Config.get_stop_shortcut cm ≠ []
   ∧ Config.get_stop_shortcut cm ≡ₚ new_shortcut)
  ∨ (∃ config, (item, config) ∈ Config.get_all_categories cm
               ∧ item ≠ selected_category
               ∧ Config.keyboard_shortcut config ≠ []
               ∧ Config.keyboard_shortcut config ≡ₚ new_shortcut).

(** The world after the two lines of the conflict warning. *)
Definition warned (new_shortcut : list string) (item : string) (w : World) : World :=
  emit (EvPrint ("[red]Shortcut '" +:+ KeyText.key_combination_to_string new_shortcut
                 +:+ "' is already used by: " +:+ item +:+ "[/red]"))
    (emit (EvPrint "[red]Warning: Conflict detected![/red]") w).

(** * Properties *)

(** ** Strings *)

Lemma app_cons (a : ascii) (p t : string) : String a p +:+ t = String a (p +:+ t).
Proof. reflexivity. Qed.

Lemma app_empty_l (t : string) : "" +:+ t = t.
Proof. reflexivity. Qed.

Lemma startswith_app (s p : string) :
  Py.startswith s p = true ↔ ∃ t, s = p +:+ t.
Proof.
  unfold Py.startswith. revert s. induction p as [|a p IH]; intros s.
  - split; [intros _; exists s; reflexivity | intros _; destruct s; reflexivity].
  - destruct s as [|b s]; simpl.
    + split; [discriminate | intros [t Ht]; discriminate].
    + destruct (ascii_dec a b) as [->|Hne].
      * rewrite IH. split; intros [t Ht]; exists t;
          rewrite ?app_cons in *; congruence.
      * split; [discriminate | intros [t Ht]; rewrite app_cons in Ht; congruence].
Qed.

Lemma slice_to_app (p t : string) :
  Py.slice_to (String.length p) (p +:+ t) = p.
Proof.
  unfold Py.slice_to. induction p as [|a p IH].
  - rewrite app_empty_l. destruct t; reflexivity.
  - rewrite app_cons. simpl. f_equal. exact IH.
Qed.

Lemma is_empty_true (s : string) : Py.is_empty s = true ↔ s = "".
Proof. destruct s; simpl; split; congruence. Qed.

Lemma startswith_not_empty (s : string) a p :
  Py.startswith s (String a p) = true → Py.is_empty s = false.
Proof. destruct s; [discriminate | reflexivity]. Qed.

(** ** Response classification *)

Lemma is_success_false_of_code (response code : string) :
  Py.startswith response code = true →
  String.length code = 5%nat → code ≠ "R-200" →
  Client._is_success response = false.
Proof.
  intros [t ->]%startswith_app Hlen Hne.
  destruct (Client._is_success (code +:+ t)) eqn:Hs; [|reflexivity].
  apply startswith_app in Hs as [t' Ht']. exfalso. apply Hne.
  apply (f_equal (Py.slice_to 5)) in Ht'.
  rewrite <- Hlen in Ht' at 1. rewrite slice_to_app in Ht'.
  change 5%nat with (String.length "R-200") in Ht'.
  rewrite slice_to_app in Ht'. exact Ht'.
Qed.

(** A [str] slice is a prefix of the string. *)
Lemma str_slice_to_prefix n (s : string) : Py.startswith s (Py.str_slice_to n s) = true.
Proof.
  unfold Py.startswith. revert n. induction s as [|a s IH]; intros n; [done|].
  simpl. destruct (Py.is_continuation a).
  - simpl. destruct (ascii_dec a a); [apply IH|done].
  - destruct n; [done|]. simpl. destruct (ascii_dec a a); [apply IH|done].
Qed.

Lemma decode_utf8_valid (s : string) :
  Py.decode_utf8 s = Some s
  ↔ Py.utf8_valid (String.length s) (Py.byte_values s) = true.
Proof. unfold Py.decode_utf8. destruct (Py.utf8_valid _ _); split; done. Qed.

(** Well-formed UTF-8 does not begin with a continuation byte. *)
Lemma str_slice_to_0_valid (t : string) :
  Py.utf8_valid (String.length t) (Py.byte_values t) = true → Py.str_slice_to 0 t = "".
Proof.
  destruct t as [|a t]; [done|]. simpl.
  unfold Py.is_continuation, Py.cont.
  destruct (N.leb_spec 128 (N_of_ascii a)), (N.leb_spec (N_of_ascii a) 191);
    simpl; try done.
  destruct (N.leb_spec (N_of_ascii a) 127); [lia|].
  destruct (N.leb_spec 194 (N_of_ascii a)); [lia|]. simpl.
  destruct (N.leb_spec 224 (N_of_ascii a)); [lia|]. simpl.
  destruct (N.leb_spec 240 (N_of_ascii a)); [lia|]. done.
Qed.

(** The first five characters of a well-formed response that begins with a
    five-letter code are the code. *)
Lemma str_slice_to_code (code t : string) :
  code ∈ ["R-400"; "R-404"; "R-403"; "R-500"; "R-503"] →
  Py.decode_utf8 (code +:+ t) = Some (code +:+ t) →
  Py.str_slice_to 5 (code +:+ t) = code.
Proof.
  intros Hin Hvalid. apply decode_utf8_valid in Hvalid.
  pose proof (str_slice_to_0_valid t) as H0.
  repeat (apply elem_of_cons in Hin as [-> | Hin];
          [simpl in Hvalid |- *; change ("" +:+ t) with t in *;
           by rewrite (H0 Hvalid)|]).
  by apply elem_of_nil in Hin.
Qed.

Lemma handle_error_code (response command code msg : string) :
  Py.decode_utf8 response = Some response →
  (code, msg) ∈ Client.error_messages →
  Py.startswith response code = true →
  Client._is_success response = false
  ∧ Client._handle_error_response response command
    = msg
      +:+ (if Py.contains "trial" (Py.lower response)
           then " (Trial version limitation)" else "")
      +:+ ": " +:+ response.
Proof.
  intros Hvalid Hin Hp.
  assert (String.length code = 5%nat ∧ code ≠ "R-200" ∧
          Py.dict_get Client.error_messages code = Some msg ∧
          Py.startswith code "R-" = true ∧
          (∀ t, Py.decode_utf8 (code +:+ t) = Some (code +:+ t) →
                Py.str_slice_to 5 (code +:+ t) = code))
    as (Hlen & Hne & Hget & HR & Hslice).
  { unfold Client.error_messages in Hin.
    repeat (apply elem_of_cons in Hin as [Hin|Hin];
            [inversion Hin; subst; repeat split; try done;
             intros t Ht; apply str_slice_to_code; [set_solver|done]|]).
    by apply elem_of_nil in Hin. }
  split; [by eapply is_success_false_of_code|].
  apply startswith_app in Hp as [t ->].
  rewrite <- (Hslice t Hvalid) at 3.
  unfold Client._handle_error_response.
  assert (Py.is_empty (code +:+ t) = false) as ->.
  { destruct code; [done|reflexivity]. }
  assert (Py.startswith (code +:+ t) "R-" = true) as ->.
  { apply startswith_app in HR as [u ->]. apply startswith_app.
    exists (u +:+ t). clear. reflexivity. }
  cbv zeta iota. rewrite (Hslice t Hvalid), Hget.
  destruct (Py.contains "trial" _).
  - generalize (code +:+ t). intros s. clear.
    induction msg as [|a msg IH]; [reflexivity|].
    rewrite !app_cons. by f_equal.
  - reflexivity.
Qed.

(** C5.  For every response, as [decode] returns it (well-formed UTF-8):
    the response is a success exactly when it is the marker "R-200" followed
    by anything.  A response that begins with "R-400", "R-404", "R-403",
    "R-500" or "R-503" is not a success, and [_handle_error_response]
    answers "Bad Request - Invalid command format", "Not Found - Invalid
    sound/category index", "Forbidden - Command not allowed in trial
    version", "Internal Server Error - Soundpad error" and "Service
    Unavailable - Soundpad busy" respectively, followed by the trial note
    when the response mentions a trial, a colon and the response.  Any other
    response that begins with "R-" gets "Soundpad error", its first five
    characters, a colon and the response.  The empty response is not a
    success and is answered "No response from Soundpad". *)
Theorem response_classification (response command : string) :
  Py.decode_utf8 response = Some response →
  let note :=
    if Py.contains "trial" (Py.lower response)
    then " (Trial version limitation)" else "" in
  (Client._is_success response = true ↔ ∃ rest, response = "R-200" +:+ rest)
  ∧ (Py.startswith response "R-400" = true →
     Client._is_success response = false
     ∧ Client._handle_error_response response command
       = "Bad Request - Invalid command format" +:+ note +:+ ": " +:+ response)
  ∧ (Py.startswith response "R-404" = true →
     Client._is_success response = false
     ∧ Client._handle_error_response response command
       = "Not Found - Invalid sound/category index" +:+ note +:+ ": " +:+ response)
  ∧ (Py.startswith response "R-403" = true →
     Client._is_success response = false
     ∧ Client._handle_error_response response command
       = "Forbidden - Command not allowed in trial version" +:+ note +:+ ": "
         +:+ response)
  ∧ (Py.startswith response "R-500" = true →
     Client._is_success response = false
     ∧ Client._handle_error_response response command
       = "Internal Server Error - Soundpad error" +:+ note +:+ ": " +:+ response)
  ∧ (Py.startswith response "R-503" = true →
     Client._is_success response = false
     ∧ Client._handle_error_response response command
       = "Service Unavailable - Soundpad busy" +:+ note +:+ ": " +:+ response)
  ∧ (Py.startswith response "R-" = true →
     (∀ code, code ∈ ["R-400"; "R-404"; "R-403"; "R-500"; "R-503"] →
              Py.startswith response code = false) →
     Client._handle_error_response response command
     = "Soundpad error " +:+ Py.str_slice_to 5 response +:+ ": " +:+ response)
  ∧ (response = "" →
     Client._is_success response = false
     ∧ Client._handle_error_response response command = "No response from Soundpad").
Proof.
  intros Hvalid note.
  split; [apply startswith_app|].
  split; [intros H;
          apply (handle_error_code response command "R-400"
                   "Bad Request - Invalid command format" Hvalid);
          [unfold Client.error_messages; set_solver|exact H]|].
  split; [intros H;
          apply (handle_error_code response command "R-404"
                   "Not Found - Invalid sound/category index" Hvalid);
          [unfold Client.error_messages; set_solver|exact H]|].
  split; [intros H;
          apply (handle_error_code response command "R-403"
                   "Forbidden - Command not allowed in trial version" Hvalid);
          [unfold Client.error_messages; set_solver|exact H]|].
  split; [intros H;
          apply (handle_error_code response command "R-500"
                   "Internal Server Error - Soundpad error" Hvalid);
          [unfold Client.error_messages; set_solver|exact H]|].
  split; [intros H;
          apply (handle_error_code response command "R-503"
                   "Service Unavailable - Soundpad busy" Hvalid);
          [unfold Client.error_messages; set_solver|exact H]|].
  split.
  - intros HR Hnone. unfold Client._handle_error_response.
    rewrite (startswith_not_empty _ _ _ HR), HR. cbv zeta.
    assert (Py.dict_get Client.error_messages (Py.str_slice_to 5 response) = None)
      as ->; [|reflexivity].
    pose proof (str_slice_to_prefix 5 response) as Hpre.
    unfold Client.error_messages, Py.dict_get.
    repeat (case_decide as Hk;
            [rewrite <- Hk in Hpre; rewrite Hnone in Hpre; [done|set_solver]
            |clear Hk]).
    reflexivity.
  - intros ->. split; reflexivity.
Qed.

Lemma response_classification_witness :
  Client._is_success "R-200" = true
  ∧ Client._handle_error_response "R-404" "DoPlaySound(9)"
    = "Not Found - Invalid sound/category index: R-404"
  ∧ Client._handle_error_response "R-418" "" = "Soundpad error R-418: R-418"
  ∧ Client._handle_error_response "" "" = "No response from Soundpad".
Proof.
  pose proof (response_classification "R-200" "" eq_refl) as (H200 & _).
  pose proof (response_classification "R-404" "DoPlaySound(9)" eq_refl)
    as (_ & _ & H404 & _).
  pose proof (response_classification "R-418" "" eq_refl)
    as (_ & _ & _ & _ & _ & _ & H418 & _).
  pose proof (response_classification "" "" eq_refl)
    as (_ & _ & _ & _ & _ & _ & _ & Hnone).
  split; [|split; [|split]].
  - apply H200. by exists "".
  - apply H404. reflexivity.
  - apply H418; [reflexivity|].
    intros code Hin. repeat (apply elem_of_cons in Hin as [->|Hin]; [reflexivity|]).
    by apply elem_of_nil in Hin.
  - apply Hnone. reflexivity.
Defined.

(** ** Running computations step by step *)

Section Run.
Context {S : Type}.
Implicit Types (s : S) (w : World).

Lemma bind_Ok {A B} (m : M S A) (k : A → M S B) s w a s' w' :
  m s w = (Ok a, s', w') → bind m k s w = k a s' w'.
Proof. intros H. unfold bind. by rewrite H. Qed.

Lemma bind_Raise {A B} (m : M S A) (k : A → M S B) s w e s' w' :
  m s w = (Raise e, s', w') → bind m k s w = (Raise e, s', w').
Proof. intros H. unfold bind. by rewrite H. Qed.

Lemma try_Ok {A} (m : M S A) h s w a s' w' :
  m s w = (Ok a, s', w') → try_except m h s w = (Ok a, s', w').
Proof. intros H. unfold try_except. by rewrite H. Qed.

Lemma try_caught {A} (m : M S A) h s w e s' w' k :
  m s w = (Raise e, s', w') → h e = Some k → try_except m h s w = k s' w'.
Proof. intros H Hh. unfold try_except. by rewrite H, Hh. Qed.

Lemma try_uncaught {A} (m : M S A) h s w e s' w' :
  m s w = (Raise e, s', w') → h e = None → try_except m h s w = (Raise e, s', w').
Proof. intros H Hh. unfold try_except. by rewrite H, Hh. Qed.

Lemma bind_ret {A B} (a : A) (k : A → M S B) s w : bind (ret a) k s w = k a s w.
Proof. reflexivity. Qed.

Lemma bind_raise {A B} e (k : A → M S B) s w :
  bind (raise e) k s w = (Raise e, s, w).
Proof. reflexivity. Qed.

Lemma bind_get {B} (k : S → M S B) s w : bind get k s w = k s s w.
Proof. reflexivity. Qed.

Lemma bind_modify {B} f (k : unit → M S B) s w :
  bind (modify f) k s w = k tt (f s) w.
Proof. reflexivity. Qed.

Lemma bind_time {B} (k : Z → M S B) s w :
  bind Os.time k s w = k (clock_script w (ticks w)) s (next_tick w).
Proof. reflexivity. Qed.

Lemma bind_sleep {B} us (k : unit → M S B) s w :
  bind (Os.sleep us) k s w = k tt s (emit (EvSleep us) w).
Proof. reflexivity. Qed.

Lemma bind_print {B} line (k : unit → M S B) s w :
  bind (Os.print line) k s w = k tt s (emit (EvPrint line) w).
Proof. reflexivity. Qed.

Lemma bind_close {B} fd (k : unit → M S B) s w :
  bind (Os.close_quietly fd) k s w = k tt s (emit (EvClose fd) w).
Proof. reflexivity. Qed.

Lemma bind_open {B} path (k : os_error + Z → M S B) s w :
  bind (Os.open path) k s w
  = k (open_script w (opens w)) s (next_open (emit (EvOpen path) w)).
Proof. reflexivity. Qed.

Lemma write_ok fd data s w :
  write_script w (writes w) = None →
  Os.write fd data s w = (Ok tt, s, next_write (emit (EvWrite fd data) w)).
Proof. intros H. unfold Os.write. by rewrite H. Qed.

Lemma write_fail fd data s w e :
  write_script w (writes w) = Some e →
  Os.write fd data s w
  = (Raise (exn_of_os_error e), s, next_write (emit (EvWrite fd data) w)).
Proof. intros H. unfold Os.write. by rewrite H. Qed.

Lemma read_ok fd n s w data :
  read_script w (reads w) = inr data →
  Os.read fd n s w
  = (Ok (Py.slice_to (N.to_nat n) data), s, next_read (emit (EvRead fd n) w)).
Proof. intros H. unfold Os.read. by rewrite H. Qed.

Lemma read_fail fd n s w e :
  read_script w (reads w) = inl e →
  Os.read fd n s w
  = (Raise (exn_of_os_error e), s, next_read (emit (EvRead fd n) w)).
Proof. intros H. unfold Os.read. by rewrite H. Qed.
End Run.

Lemma is_OSError_os_error e : is_OSError (exn_of_os_error e) = true.
Proof. by destruct e as [[] ? ?]. Qed.

(** ** The protocol client *)

Lemma set_pipe_None_id (c : Client.SoundpadClient) :
  Client.pipe c = None → Client.set_pipe None c = c.
Proof. destruct c; simpl; intros ->; reflexivity. Qed.

Lemma slice_to_empty (n : nat) : Py.slice_to n "" = "".
Proof. destruct n; reflexivity. Qed.

Lemma init_open c w fd :
  Client.pipe c = Some fd → Client.init c w = (Ok tt, c, w).
Proof. intros H. unfold Client.init. rewrite bind_get, H. reflexivity. Qed.

Lemma init_closed_ok c w fd :
  Client.pipe c = None → open_script w (opens w) = inr fd →
  Client.init c w
  = (Ok tt, Client.set_pipe (Some fd) c, next_open (emit (EvOpen Client.PIPE_PATH) w)).
Proof.
  intros H Ho. unfold Client.init. rewrite bind_get, H, bind_open, Ho. reflexivity.
Qed.

Lemma init_closed_fail c w eo :
  Client.pipe c = None → open_script w (opens w) = inl eo →
  ∃ e, Client.init c w = (Raise e, c, next_open (emit (EvOpen Client.PIPE_PATH) w))
       ∧ is_OSError e = true.
Proof.
  intros H Ho. unfold Client.init. rewrite bind_get, H, bind_open, Ho.
  destruct (oe_class eo); [eauto..|].
  repeat case_decide; eauto.
Qed.

Lemma uninit_open c w fd :
  Client.pipe c = Some fd →
  Client.uninit c w = (Ok tt, Client.set_pipe None c, emit (EvClose fd) w).
Proof. intros H. unfold Client.uninit. rewrite bind_get, H. reflexivity. Qed.

Lemma uninit_closed c w :
  Client.pipe c = None → Client.uninit c w = (Ok tt, c, w).
Proof. intros H. unfold Client.uninit. rewrite bind_get, H. reflexivity. Qed.

Lemma with_pipe_open {A} (k : Z → M Client.SoundpadClient A) c w fd :
  Client.pipe c = Some fd → Client.with_pipe k c w = k fd c w.
Proof. intros H. unfold Client.with_pipe. rewrite bind_get, H. reflexivity. Qed.

(** A request either encodes, to itself, or does not encode. *)
Lemma encode_utf8_cases (s : string) :
  Py.encode_utf8 s = Some s ∨ Py.encode_utf8 s = None.
Proof. unfold Py.encode_utf8. destruct (Py.utf8_valid _ _); auto. Qed.

Lemma encoded_exchange_encodable request :
  Py.encode_utf8 request = Some request → encoded_exchange request = exchange request.
Proof. unfold encoded_exchange. by intros ->. Qed.

Lemma encode_error_text_paced c w : encode_error_text (paced c w) = encode_error_text w.
Proof. unfold paced. by destruct (Z.abs _ <? 1000). Qed.

Lemma decode_error_text_paced c w : decode_error_text (paced c w) = decode_error_text w.
Proof. unfold paced. by destruct (Z.abs _ <? 1000). Qed.

(** [send_request] is its prelude followed by the guarded exchange. *)
Lemma send_request_prelude request c w c1 w1 :
  Client.init c w = (Ok tt, c1, w1) →
  Client.send_request request c w
  = try_except (encoded_exchange request) on_os_error c1 (paced c1 w1).
Proof.
  intros Hi. unfold Client.send_request.
  rewrite (bind_Ok _ _ _ _ _ _ _ Hi), bind_time, bind_get. unfold paced.
  destruct (Z.abs _ <? 1000).
  - rewrite bind_sleep. reflexivity.
  - rewrite bind_ret. reflexivity.
Qed.

Lemma send_request_after_init request c w c1 w1 :
  Py.encode_utf8 request = Some request →
  Client.init c w = (Ok tt, c1, w1) →
  Client.send_request request c w
  = try_except (exchange request) on_os_error c1 (paced c1 w1).
Proof.
  intros Henc Hi. rewrite (send_request_prelude _ _ _ _ _ Hi).
  by rewrite (encoded_exchange_encodable _ Henc).
Qed.

(** A request that does not encode raises [UnicodeEncodeError] after the
    prelude: nothing is written and the handle stays as [init] left it. *)
Lemma send_request_unencodable request c w c1 w1 :
  Py.encode_utf8 request = None →
  Client.init c w = (Ok tt, c1, w1) →
  Client.send_request request c w = (Raise (encode_exn w1 request), c1, paced c1 w1).
Proof.
  intros Henc Hi. rewrite (send_request_prelude _ _ _ _ _ Hi).
  unfold try_except, encoded_exchange. rewrite Henc. unfold Codec.encode_error.
  unfold on_os_error. change (is_OSError _) with false. cbv iota.
  unfold encode_exn. by rewrite encode_error_text_paced.
Qed.

Lemma send_request_init_raise request c w e c1 w1 :
  Client.init c w = (Raise e, c1, w1) →
  Client.send_request request c w = (Raise e, c1, w1).
Proof. intros Hi. unfold Client.send_request. by rewrite (bind_Raise _ _ _ _ _ _ _ Hi). Qed.


(** *** The exchange, outcome by outcome *)

Section Exchange.
Context (request : string) (c : Client.SoundpadClient) (w : World) (fd : Z).
Hypothesis Hpipe : Client.pipe c = Some fd.

Let w_written : World := next_write (emit (EvWrite fd request) w).
Let w_read : World := next_read (emit (EvRead fd 1) w_written).
Let w_read_rest : World := next_read (emit (EvRead fd 8192) w_read).

Lemma exchange_write_fail e :
  write_script w (writes w) = Some e →
  exchange request c w = (Raise (exn_of_os_error e), c, w_written).
Proof.
  intros Hw. unfold exchange.
  apply bind_Raise. rewrite (with_pipe_open _ _ _ _ Hpipe). by apply write_fail.
Qed.

Lemma exchange_read_fail e :
  write_script w (writes w) = None →
  read_script w (reads w) = inl e →
  exchange request c w = (Raise (exn_of_os_error e), c, w_read).
Proof.
  intros Hw Hr. unfold exchange.
  erewrite bind_Ok;
    [|rewrite (with_pipe_open _ _ _ _ Hpipe); by apply write_ok].
  apply bind_Raise. rewrite (with_pipe_open _ _ _ _ Hpipe). by apply read_fail.
Qed.

Lemma exchange_empty :
  write_script w (writes w) = None →
  read_script w (reads w) = inr "" →
  exchange request c w
  = (Raise (Exn OSError None "No response from Soundpad"), c, w_read).
Proof.
  intros Hw Hr. unfold exchange.
  erewrite bind_Ok;
    [|rewrite (with_pipe_open _ _ _ _ Hpipe); by apply write_ok].
  erewrite bind_Ok;
    [|rewrite (with_pipe_open _ _ _ _ Hpipe); by apply read_ok].
  rewrite slice_to_empty. reflexivity.
Qed.

Lemma exchange_read_rest_fail data e :
  write_script w (writes w) = None →
  read_script w (reads w) = inr data →
  Py.is_empty (Py.slice_to 1 data) = false →
  read_script w (S (reads w)) = inl e →
  exchange request c w = (Raise (exn_of_os_error e), c, w_read_rest).
Proof.
  intros Hw Hr He Hr2. unfold exchange.
  erewrite bind_Ok;
    [|rewrite (with_pipe_open _ _ _ _ Hpipe); by apply write_ok].
  erewrite bind_Ok;
    [|rewrite (with_pipe_open _ _ _ _ Hpipe); by apply read_ok].
  change (N.to_nat 1) with 1%nat. rewrite He.
  apply bind_Raise. rewrite (with_pipe_open _ _ _ _ Hpipe). by apply read_fail.
Qed.

Lemma exchange_undecodable data rest :
  write_script w (writes w) = None →
  read_script w (reads w) = inr data →
  Py.is_empty (Py.slice_to 1 data) = false →
  read_script w (S (reads w)) = inr rest →
  Py.decode_utf8 (Py.slice_to 1 data +:+ Py.slice_to (N.to_nat 8192) rest) = None →
  exchange request c w
  = (Raise (decode_exn w (Py.slice_to 1 data +:+ Py.slice_to (N.to_nat 8192) rest)),
     c, w_read_rest).
Proof.
  intros Hw Hr He Hr2 Hd. unfold exchange.
  erewrite bind_Ok;
    [|rewrite (with_pipe_open _ _ _ _ Hpipe); by apply write_ok].
  erewrite bind_Ok;
    [|rewrite (with_pipe_open _ _ _ _ Hpipe); by apply read_ok].
  change (N.to_nat 1) with 1%nat. rewrite He.
  erewrite bind_Ok;
    [|rewrite (with_pipe_open _ _ _ _ Hpipe); by apply read_ok].
  cbv zeta. rewrite Hd. reflexivity.
Qed.

Lemma exchange_ok data rest decoded :
  write_script w (writes w) = None →
  read_script w (reads w) = inr data →
  Py.is_empty (Py.slice_to 1 data) = false →
  read_script w (S (reads w)) = inr rest →
  Py.decode_utf8 (Py.slice_to 1 data +:+ Py.slice_to (N.to_nat 8192) rest)
  = Some decoded →
  exchange request c w
  = (Ok (Py.rstrip_nul decoded),
     Client.set_last_request_timestamp
       (clock_script w_read_rest (ticks w_read_rest)) c,
     next_tick w_read_rest).
Proof.
  intros Hw Hr He Hr2 Hd. unfold exchange.
  erewrite bind_Ok;
    [|rewrite (with_pipe_open _ _ _ _ Hpipe); by apply write_ok].
  erewrite bind_Ok;
    [|rewrite (with_pipe_open _ _ _ _ Hpipe); by apply read_ok].
  change (N.to_nat 1) with 1%nat. rewrite He.
  erewrite bind_Ok;
    [|rewrite (with_pipe_open _ _ _ _ Hpipe); by apply read_ok].
  cbv zeta. rewrite Hd. reflexivity.
Qed.
End Exchange.


(** *** What a computation adds to the trace *)

Lemma emits_extends {S A} P (m : M S A) s w : emits P m → extends w (m s w).2.
Proof. intros H. destruct (H s w) as (evs & ? & _). by exists evs. Qed.

Lemma written_not_a_write evs : Forall not_a_write evs → written evs = [].
Proof.
  induction 1 as [|ev evs Hev _ IH]; [done|].
  unfold written in *. simpl. destruct ev; simpl in *; done.
Qed.

Lemma emits_weaken {S A} (P Q : event → Prop) (m : M S A) :
  (∀ ev, P ev → Q ev) → emits P m → emits Q m.
Proof.
  intros HPQ Hm s w. destruct (Hm s w) as (evs & Ht & HP).
  exists evs. split; [done|]. by eapply Forall_impl.
Qed.

Lemma written_app evs1 evs2 : written (evs1 ++ evs2) = written evs1 ++ written evs2.
Proof. unfold written. apply omap_app. Qed.

Section Emits.
Context {S : Type} (P : event → Prop).

Lemma emits_ret {A} (a : A) : emits (S:=S) P (ret a).
Proof. intros s w. exists []. split; [by rewrite app_nil_r | constructor]. Qed.

Lemma emits_raise {A} e : emits (S:=S) (A:=A) P (raise e).
Proof. intros s w. exists []. split; [by rewrite app_nil_r | constructor]. Qed.

Lemma emits_encode_error {A} t : emits (S:=S) (A:=A) P (Codec.encode_error t).
Proof. intros s w. exists []. split; [by rewrite app_nil_r | constructor]. Qed.

Lemma emits_decode_error {A} b : emits (S:=S) (A:=A) P (Codec.decode_error b).
Proof. intros s w. exists []. split; [by rewrite app_nil_r | constructor]. Qed.

Lemma emits_get : emits (S:=S) P get.
Proof. intros s w. exists []. split; [by rewrite app_nil_r | constructor]. Qed.

Lemma emits_modify f : emits (S:=S) P (modify f).
Proof. intros s w. exists []. split; [by rewrite app_nil_r | constructor]. Qed.

Lemma emits_time : emits (S:=S) P Os.time.
Proof.
  intros s w. exists []. split; [simpl; by rewrite app_nil_r | constructor].
Qed.

Lemma emits_bind {A B} (m : M S A) (k : A → M S B) :
  emits P m → (∀ a, emits P (k a)) → emits P (bind m k).
Proof.
  intros Hm Hk s w. unfold bind. destruct (Hm s w) as (e1 & H1 & HP1).
  destruct (m s w) as [[[a|e] s'] w']; simpl in *; [|by exists e1].
  destruct (Hk a s' w') as (e2 & H2 & HP2).
  exists (e1 ++ e2). split; [|by apply Forall_app].
  by rewrite H2, H1, (assoc_L (++)).
Qed.

Lemma emits_try_except {A} (m : M S A) h :
  emits P m → (∀ e k, h e = Some k → emits P k) → emits P (try_except m h).
Proof.
  intros Hm Hh s w. unfold try_except. destruct (Hm s w) as (e1 & H1 & HP1).
  destruct (m s w) as [[[a|e] s'] w']; simpl in *; [by exists e1|].
  destruct (h e) as [k|] eqn:He; [|by exists e1].
  destruct (Hh e k He s' w') as (e2 & H2 & HP2).
  exists (e1 ++ e2). split; [|by apply Forall_app].
  by rewrite H2, H1, (assoc_L (++)).
Qed.

Lemma emits_one {A} (m : M S A) ev :
  (∀ s w, trace (m s w).2 = trace w ++ [ev]) → P ev → emits P m.
Proof. intros H HP s w. exists [ev]. split; [apply H | by repeat constructor]. Qed.

Lemma emits_open path : P (EvOpen path) → emits (S:=S) P (Os.open path).
Proof. apply emits_one. done. Qed.

Lemma emits_write fd data : P (EvWrite fd data) → emits (S:=S) P (Os.write fd data).
Proof.
  apply emits_one. intros s w. unfold Os.write. by destruct (write_script _ _).
Qed.

Lemma emits_read fd n : P (EvRead fd n) → emits (S:=S) P (Os.read fd n).
Proof.
  apply emits_one. intros s w. unfold Os.read. by destruct (read_script _ _).
Qed.

Lemma emits_close fd : P (EvClose fd) → emits (S:=S) P (Os.close_quietly fd).
Proof. apply emits_one. done. Qed.

Lemma emits_sleep us : P (EvSleep us) → emits (S:=S) P (Os.sleep us).
Proof. apply emits_one. done. Qed.

Lemma emits_print line : P (EvPrint line) → emits (S:=S) P (Os.print line).
Proof. apply emits_one. done. Qed.
End Emits.

Create HintDb emits discriminated.
Global Hint Resolve emits_ret emits_raise emits_get emits_modify emits_time
  emits_encode_error emits_decode_error : emits.
Global Hint Resolve emits_open emits_write emits_read emits_close emits_sleep
  emits_print : emits.
Global Hint Extern 1 (not_a_write _) => exact I : emits.
Global Hint Extern 1 True => exact I : emits.

(** Decompose a computation along its syntax. *)
Ltac emits_tac :=
  repeat first
    [ progress auto with emits
    | apply emits_bind; [|intros ?]
    | apply emits_try_except; [|intros ? ? ?; try case_match; simplify_eq]
    | case_match ].

Lemma emits_init P : P (EvOpen Client.PIPE_PATH) → emits P Client.init.
Proof. intros HP. unfold Client.init. emits_tac. Qed.

Lemma emits_uninit P : (∀ fd, P (EvClose fd)) → emits P Client.uninit.
Proof. intros HP. unfold Client.uninit. emits_tac. Qed.

Global Hint Resolve emits_init emits_uninit : emits.

(** After its write, the guarded exchange writes nothing more. *)
Lemma emits_on_os_error e k :
  on_os_error e = Some k → emits not_a_write k.
Proof.
  unfold on_os_error. intros H. case_match; simplify_eq. emits_tac.
Qed.

Lemma emits_send_request request :
  emits (λ _, True) (Client.send_request request).
Proof. unfold Client.send_request, Client.with_pipe. emits_tac. Qed.

Lemma emits_send_request_safe request :
  emits (λ _, True) (Client.send_request_safe request).
Proof.
  unfold Client.send_request_safe.
  apply emits_try_except; [apply emits_send_request|].
  intros e k H. case_match; simplify_eq. emits_tac.
Qed.

Global Hint Resolve emits_send_request_safe : emits.


(** *** Faults of the exchange *)

Lemma on_os_error_run e c w fd :
  is_OSError e = true → Client.pipe c = Some fd →
  ∃ k, on_os_error e = Some k ∧
       k c w = (Raise (Exn OSError None
                         ("Failed to communicate with Soundpad: " +:+ exn_text e)),
                Client.set_pipe None c, emit (EvClose fd) w).
Proof.
  intros He Hp. unfold on_os_error. rewrite He. eexists. split; [reflexivity|].
  erewrite bind_Ok; [|by apply uninit_open]. reflexivity.
Qed.

Lemma trace_emit ev w : trace (emit ev w) = trace w ++ [ev].
Proof. reflexivity. Qed.

(** An I/O failure inside the guarded exchange: the handle is closed and
    reset, and the call raises [OSError]. *)
Lemma guarded_exchange_io_failure request c w fd :
  Client.pipe c = Some fd → io_failure w →
  ∃ msg w' evs,
    try_except (exchange request) on_os_error c w
    = (Raise (Exn OSError None msg), Client.set_pipe None c, w')
    ∧ trace w' = trace w ++ evs ∧ EvClose fd ∈ evs.
Proof.
  intros Hp Hio.
  assert (∀ e w1 evs,
            exchange request c w = (Raise e, c, w1) → is_OSError e = true →
            trace w1 = trace w ++ evs →
            ∃ msg w' evs,
              try_except (exchange request) on_os_error c w
              = (Raise (Exn OSError None msg), Client.set_pipe None c, w')
              ∧ trace w' = trace w ++ evs ∧ EvClose fd ∈ evs) as Hcaught.
  { intros e w1 evs Hx He Ht.
    destruct (on_os_error_run e c w1 fd He Hp) as (k & Hk & Hrun).
    rewrite (try_caught _ _ _ _ _ _ _ _ Hx Hk), Hrun.
    eexists _, _, (evs ++ [EvClose fd]). split; [reflexivity|]. split.
    - by rewrite trace_emit, Ht, (assoc_L (++)).
    - apply elem_of_app. right. apply list_elem_of_here. }
  destruct (write_script w (writes w)) as [ew|] eqn:Hw.
  { eapply Hcaught;
      [by apply exchange_write_fail | apply is_OSError_os_error | reflexivity]. }
  destruct (read_script w (reads w)) as [er|data] eqn:Hr.
  { eapply Hcaught;
      [by apply exchange_read_fail | apply is_OSError_os_error|].
    simpl. by rewrite <- !(assoc_L (++)). }
  destruct (Py.is_empty (Py.slice_to 1 data)) eqn:He.
  { assert (data = "") as ->.
    { destruct data; [done|]. discriminate. }
    eapply Hcaught; [by apply exchange_empty | done |].
    simpl. by rewrite <- !(assoc_L (++)). }
  destruct (read_script w (S (reads w))) as [er|rest] eqn:Hr2.
  { eapply Hcaught;
      [by eapply exchange_read_rest_fail | apply is_OSError_os_error|].
    simpl. by rewrite <- !(assoc_L (++)). }
  exfalso. destruct Hio as [e H|e H|H|e H]; try congruence.
  rewrite H in Hr. by simplify_eq.
Qed.

Lemma io_failure_paced c w : io_failure w → io_failure (paced c w).
Proof.
  unfold paced. destruct (Z.abs _ <? 1000);
    (intros [e H|e H|H|e H];
     [by eapply io_write | by eapply io_read | by eapply io_empty
     | by eapply io_read_rest]).
Qed.

Lemma io_failure_opened path w : io_failure w → io_failure (next_open (emit (EvOpen path) w)).
Proof.
  intros [e H|e H|H|e H];
    [by eapply io_write | by eapply io_read | by eapply io_empty
    | by eapply io_read_rest].
Qed.

Lemma extends_paced c w : extends w (paced c w).
Proof.
  unfold paced. destruct (Z.abs _ <? 1000).
  - by exists [EvSleep 1000].
  - exists []. simpl. by rewrite app_nil_r.
Qed.

Lemma extends_trans w1 w2 w3 : extends w1 w2 → extends w2 w3 → extends w1 w3.
Proof.
  intros [e1 H1] [e2 H2]. exists (e1 ++ e2). by rewrite H2, H1, (assoc_L (++)).
Qed.

(** With the channel open or openable, an I/O failure during the write or a
    read makes [send_request] close the handle, reset it and raise
    [OSError]. *)
Lemma send_request_io_failure request c w :
  Py.encode_utf8 request = Some request →
  channel_available c w → io_failure w →
  ∃ msg w' fd evs,
    Client.send_request request c w
    = (Raise (Exn OSError None msg), Client.set_pipe None c, w')
    ∧ trace w' = trace w ++ evs ∧ EvClose fd ∈ evs.
Proof.
  intros Henc Hav Hio. destruct (Client.pipe c) as [fd|] eqn:Hp.
  - rewrite (send_request_after_init _ _ _ _ _ Henc (init_open c w fd Hp)).
    destruct (guarded_exchange_io_failure request c (paced c w) fd Hp
                (io_failure_paced c w Hio)) as (msg & w' & evs & Heq & Ht & Hin).
    destruct (extends_paced c w) as [pre Hpre].
    exists msg, w', fd, (pre ++ evs). split; [done|]. split.
    + by rewrite Ht, Hpre, (assoc_L (++)).
    + apply elem_of_app. by right.
  - destruct Hav as [Hs|[fd Ho]]; [rewrite Hp in Hs; by apply is_Some_None in Hs|].
    rewrite (send_request_after_init _ _ _ _ _ Henc (init_closed_ok c w fd Hp Ho)).
    set (c1 := Client.set_pipe (Some fd) c).
    set (w1 := next_open (emit (EvOpen Client.PIPE_PATH) w)).
    destruct (guarded_exchange_io_failure request c1 (paced c1 w1) fd eq_refl
                (io_failure_paced c1 w1 (io_failure_opened _ w Hio)))
      as (msg & w' & evs & Heq & Ht & Hin).
    destruct (extends_paced c1 w1) as [pre Hpre].
    exists msg, w', fd, ([EvOpen Client.PIPE_PATH] ++ pre ++ evs).
    split; [exact Heq|]. split.
    + rewrite Ht, Hpre. unfold w1. simpl. by rewrite <- !(assoc_L (++)).
    + apply elem_of_app. right. apply elem_of_app. by right.
Qed.

(** If the channel cannot be opened, [send_request] raises what [init]
    raises. *)
Lemma send_request_open_failure request c w eo :
  Client.pipe c = None → open_script w (opens w) = inl eo →
  ∃ e, Client.send_request request c w
       = (Raise e, c, next_open (emit (EvOpen Client.PIPE_PATH) w))
       ∧ is_OSError e = true.
Proof.
  intros Hp Ho. destruct (init_closed_fail c w eo Hp Ho) as (e & Hi & He).
  exists e. split; [by apply send_request_init_raise | done].
Qed.

(** Every channel fault makes [send_request] raise an exception of the
    [OSError] family, with the handle reset. *)
Lemma send_request_fault request c w :
  Py.encode_utf8 request = Some request →
  channel_fault c w →
  ∃ e w', Client.send_request request c w = (Raise e, Client.set_pipe None c, w')
          ∧ is_OSError e = true.
Proof.
  intros Henc Hf.
  assert (channel_available c w → io_failure w →
          ∃ e w', Client.send_request request c w
                  = (Raise e, Client.set_pipe None c, w') ∧ is_OSError e = true)
    as Hio.
  { intros Hav Hio.
    destruct (send_request_io_failure request c w Henc Hav Hio)
      as (msg & w' & fd & evs & Heq & _). eauto. }
  destruct (Client.pipe c) as [fd|] eqn:Hp.
  - apply Hio; [left; by rewrite Hp|].
    destruct Hf as [e Hp' H|e H|e H|H|e H];
      [congruence | by eapply io_write | by eapply io_read | by eapply io_empty
      | by eapply io_read_rest].
  - destruct (open_script w (opens w)) as [eo|fd] eqn:Ho.
    + destruct (send_request_open_failure request c w eo Hp Ho) as (e & Heq & He).
      exists e, (next_open (emit (EvOpen Client.PIPE_PATH) w)).
      by rewrite (set_pipe_None_id c Hp).
    + apply Hio; [right; eauto|].
      destruct Hf as [e Hp' H|e H|e H|H|e H];
        [congruence | by eapply io_write | by eapply io_read | by eapply io_empty
        | by eapply io_read_rest].
Qed.

(** [send_request_safe] turns an [OSError] of [send_request] into the empty
    response, with the handle reset. *)
Lemma send_request_safe_of_raise request c w e c' w' :
  Client.send_request request c w = (Raise e, c', w') →
  is_OSError e = true →
  ∃ w'', Client.send_request_safe request c w = (Ok "", Client.set_pipe None c', w'')
         ∧ extends w' w''.
Proof.
  intros Hr He. unfold Client.send_request_safe.
  erewrite try_caught; [|exact Hr|by rewrite He].
  rewrite bind_get.
  assert (∀ w1, extends w' w1 →
            ∃ w'', bind Client.uninit (λ _, ret "") c' w1
                   = (Ok "", Client.set_pipe None c', w'') ∧ extends w' w'') as Hun.
  { intros w1 Hext. destruct (Client.pipe c') as [fd|] eqn:Hp.
    - erewrite bind_Ok; [|by apply uninit_open]. eexists. split; [reflexivity|].
      eapply extends_trans; [exact Hext|]. by exists [EvClose fd].
    - erewrite bind_Ok; [|by apply uninit_closed].
      rewrite (set_pipe_None_id c' Hp). eauto. }
  destruct (Client.print_errors c').
  - rewrite bind_print. apply Hun. by eexists [_].
  - rewrite bind_ret. apply Hun. exists []. by rewrite app_nil_r.
Qed.

(** With the handle reset, a call starts by opening the channel. *)
Lemma send_request_safe_reopens request c w :
  Client.pipe c = None →
  ∃ evs, trace (Client.send_request_safe request c w).2
         = trace w ++ EvOpen Client.PIPE_PATH :: evs.
Proof.
  intros Hp. set (w1 := next_open (emit (EvOpen Client.PIPE_PATH) w)).
  assert (extends w1 (Client.send_request_safe request c w).2) as [evs Hevs];
    [|exists evs; rewrite Hevs; unfold w1; simpl; by rewrite <- (assoc_L (++))].
  destruct (open_script w (opens w)) as [eo|fd] eqn:Ho.
  - destruct (send_request_open_failure request c w eo Hp Ho) as (e & Heq & He).
    destruct (send_request_safe_of_raise _ _ _ _ _ _ Heq He) as (w'' & -> & Hext).
    exact Hext.
  - pose proof (send_request_prelude request _ _ _ _
                  (init_closed_ok c w fd Hp Ho)) as Heq.
    fold w1 in Heq. unfold Client.send_request_safe.
    set (h := λ e : exn, _).
    assert (try_except (Client.send_request request) h c w
            = try_except (try_except (encoded_exchange request) on_os_error) h
                (Client.set_pipe (Some fd) c)
                (paced (Client.set_pipe (Some fd) c) w1)) as ->.
    { unfold try_except at 1 3. by rewrite Heq. }
    eapply extends_trans; [apply extends_paced|].
    eapply (emits_extends (λ _, True)).
    apply emits_try_except.
    + apply emits_try_except.
      * unfold encoded_exchange, exchange, Client.with_pipe. emits_tac.
      * intros e k Hk. eapply (emits_weaken not_a_write); [done|by eapply emits_on_os_error].
    + intros e k Hk. unfold h in Hk. case_match; simplify_eq. emits_tac.
Qed.


Lemma send_request_reopens request c w :
  Client.pipe c = None →
  extends (next_open (emit (EvOpen Client.PIPE_PATH) w))
          (Client.send_request request c w).2.
Proof.
  intros Hp. set (w1 := next_open (emit (EvOpen Client.PIPE_PATH) w)).
  destruct (open_script w (opens w)) as [eo|fd] eqn:Ho.
  - destruct (send_request_open_failure request c w eo Hp Ho) as (e & -> & He).
    exists []. by rewrite app_nil_r.
  - rewrite (send_request_prelude request _ _ _ _ (init_closed_ok c w fd Hp Ho)).
    eapply extends_trans; [apply extends_paced|].
    eapply (emits_extends (λ _, True)).
    apply emits_try_except.
    + unfold encoded_exchange, exchange, Client.with_pipe. emits_tac.
    + intros e k Hk. eapply (emits_weaken not_a_write); [done|by eapply emits_on_os_error].
Qed.

Lemma print_error_run message c w :
  ∃ w', Client._print_error message c w = (Ok tt, c, w') ∧ extends w w'.
Proof.
  unfold Client._print_error. rewrite bind_get. destruct (Client.print_errors c).
  - eexists. split; [reflexivity|]. by eexists [_].
  - eexists. split; [reflexivity|]. exists []. by rewrite app_nil_r.
Qed.

Lemma send_request_safe_fault request c w :
  Py.encode_utf8 request = Some request →
  channel_fault c w →
  ∃ w', Client.send_request_safe request c w = (Ok "", Client.set_pipe None c, w').
Proof.
  intros Henc Hf.
  destruct (send_request_fault request c w Henc Hf) as (e & w1 & Heq & He).
  destruct (send_request_safe_of_raise _ _ _ _ _ _ Heq He) as (w2 & Hs & _).
  exists w2. rewrite Hs. by destruct c.
Qed.

(** ** C2: faults stay inside the safe operations *)

(** ASCII strings encode. *)
Lemma encode_utf8_ascii (s : string) : Py.isascii s = true → Py.encode_utf8 s = Some s.
Proof.
  intros H. unfold Py.encode_utf8.
  assert (Py.utf8_valid (String.length s) (Py.byte_values s) = true) as ->;
    [|reflexivity].
  induction s as [|a s IH]; [reflexivity|].
  simpl in H. apply andb_true_iff in H as [Ha Hs]. simpl. rewrite Ha. by apply IH.
Qed.

Lemma isascii_app (s t : string) : Py.isascii (s +:+ t) = Py.isascii s && Py.isascii t.
Proof.
  induction s as [|a s IH]; [reflexivity|].
  rewrite app_cons. simpl. by rewrite IH, andb_assoc.
Qed.

Lemma isascii_digits fuel n acc :
  Py.isascii acc = true → Py.isascii (Py.digits fuel n acc) = true.
Proof.
  revert n acc. induction fuel as [|fuel IH]; intros n acc Hacc; [done|].
  simpl.
  assert (Py.isascii (String (Py.digit_char (n mod 10)) acc) = true) as Hd.
  { simpl. rewrite Hacc, andb_true_r. unfold Py.digit_char.
    pose proof (N.mod_upper_bound n 10 ltac:(done)) as Hlt.
    rewrite N_ascii_embedding by lia. apply N.leb_le. lia. }
  destruct (n / 10 =? 0)%N; [done|]. by apply IH.
Qed.

Lemma isascii_str_int (i : Z) : Py.isascii (Py.str_int i) = true.
Proof.
  destruct i as [|p|p]; [reflexivity| |]; unfold Py.str_int.
  - apply isascii_digits. reflexivity.
  - cbn [Py.isascii]. rewrite isascii_digits; reflexivity.
Qed.

Lemma isascii_bool_lower (b : bool) : Py.isascii (Py.bool_lower b) = true.
Proof. by destruct b. Qed.

(** The requests that the client builds itself encode. *)
Lemma play_request_encodes category speakers microphone :
  Py.encode_utf8 (play_request category speakers microphone)
  = Some (play_request category speakers microphone).
Proof.
  apply encode_utf8_ascii. unfold play_request.
  by rewrite !isascii_app, isascii_str_int, !isascii_bool_lower.
Qed.

(** The [except] clause of [send_request_safe], on a fault of the
    exchange: the report, then the empty response. *)
Lemma send_request_safe_absorbs request c w :
  Py.encode_utf8 request = Some request →
  channel_fault c w →
  absorbed (Client.send_request_safe request) "" c w.
Proof.
  intros Henc Hf.
  destruct (send_request_fault request c w Henc Hf) as (e & w1 & Heq & He).
  destruct (emits_send_request request c w) as (evs1 & Ht1 & _).
  rewrite Heq in Ht1. simpl in Ht1.
  unfold absorbed, Client.send_request_safe.
  erewrite try_caught; [|exact Heq|by rewrite He].
  rewrite bind_get.
  change (Client.print_errors (Client.set_pipe None c)) with (Client.print_errors c).
  destruct (Client.print_errors c).
  - rewrite bind_print.
    erewrite bind_Ok; [|by apply uninit_closed].
    eexists _, (evs1 ++ [EvPrint ("Soundpad communication error: " +:+ exn_text e)]).
    split; [reflexivity|]. split.
    + rewrite trace_emit, Ht1. by rewrite (assoc_L (++)).
    + intros _. exists (exn_text e). apply elem_of_app. right. apply list_elem_of_here.
  - rewrite bind_ret. erewrite bind_Ok; [|by apply uninit_closed].
    eexists _, evs1. split; [reflexivity|]. split; [exact Ht1|done].
Qed.

(** What follows an absorbed fault only adds to the console. *)
Lemma absorbed_bind {A B} (m : M Client.SoundpadClient A)
    (k : A → M Client.SoundpadClient B) a b c w :
  absorbed m a c w →
  (∀ w1, ∃ w2, k a (Client.set_pipe None c) w1 = (Ok b, Client.set_pipe None c, w2)
               ∧ extends w1 w2) →
  absorbed (bind m k) b c w.
Proof.
  intros (w1 & evs1 & H1 & Ht1 & Hrep) Hk.
  destruct (Hk w1) as (w2 & H2 & evs2 & Ht2).
  exists w2, (evs1 ++ evs2). rewrite (bind_Ok _ _ _ _ _ _ _ H1).
  split; [exact H2|]. split.
  - by rewrite Ht2, Ht1, (assoc_L (++)).
  - intros Hp. destruct (Hrep Hp) as (msg & Hin). exists msg.
    apply elem_of_app. by left.
Qed.

Lemma extends_refl w : extends w w.
Proof. exists []. by rewrite app_nil_r. Qed.

(** C2 (as the code has it).  One caller at a time, a command that encodes
    as UTF-8 (every command that the client builds itself does), and any
    channel fault (channel absent, permission denied or otherwise not
    openable, write failure, read failure, empty response):
    [send_request_safe] and the operations built on it do not raise.  They
    return the empty response, [False], [STOPPED], the sentinel -1 or the
    clamped 0, leave the handle reset and, when [print_errors] is set, print
    the line "Soundpad communication error: ..." on the console.  ([init]
    and [send_request] raise by design.) *)
Theorem safe_operations_absorb_channel_faults (request : string) c w :
  Py.encode_utf8 request = Some request →
  channel_fault c w →
  absorbed (Client.send_request_safe request) "" c w
  ∧ (∀ category speakers microphone,
       absorbed (Client.play_random_sound_from_category category speakers microphone)
         false c w)
  ∧ absorbed Client.toggle_pause false c w
  ∧ absorbed Client.is_alive false c w
  ∧ absorbed Client.get_play_status Client.STOPPED c w
  ∧ absorbed (Client._handle_numeric_response request) (-1) c w
  ∧ absorbed (Client._handle_string_response request) "" c w
  ∧ absorbed Client.get_volume 0 c w.
Proof.
  intros Henc Hf.
  assert (∀ request, Py.encode_utf8 request = Some request →
                     absorbed (Client._handle_numeric_response request) (-1) c w)
    as Hnum.
  { intros r Hr. unfold Client._handle_numeric_response.
    apply (absorbed_bind _ _ ""); [by apply send_request_safe_absorbs|].
    intros w1. change (Py.is_empty "") with true. cbv iota.
    destruct (print_error_run "No response from Soundpad" (Client.set_pipe None c) w1)
      as (w2 & H2 & Hext).
    exists w2. by rewrite (bind_Ok _ _ _ _ _ _ _ H2). }
  split; [by apply send_request_safe_absorbs|].
  split.
  { intros cat sp mic. unfold Client.play_random_sound_from_category. cbv zeta.
    apply (absorbed_bind _ _ "");
      [apply send_request_safe_absorbs; [apply play_request_encodes|done]|].
    intros w1. exists w1. split; [reflexivity|apply extends_refl]. }
  split.
  { unfold Client.toggle_pause.
    apply (absorbed_bind _ _ ""); [by apply send_request_safe_absorbs|].
    intros w1. exists w1. split; [reflexivity|apply extends_refl]. }
  split.
  { unfold Client.is_alive.
    apply (absorbed_bind _ _ ""); [by apply send_request_safe_absorbs|].
    intros w1. exists w1. split; [reflexivity|apply extends_refl]. }
  split.
  { unfold Client.get_play_status.
    apply (absorbed_bind _ _ ""); [by apply send_request_safe_absorbs|].
    intros w1. change (Py.startswith "" "R") with false. cbv iota.
    change (Client.PlayStatus_of_value "") with (@None Client.PlayStatus). cbv iota.
    destruct (print_error_run ("Unknown play status: " +:+ "")
                (Client.set_pipe None c) w1) as (w2 & H2 & Hext).
    exists w2. by rewrite (bind_Ok _ _ _ _ _ _ _ H2). }
  split; [by apply Hnum|].
  split.
  { unfold Client._handle_string_response.
    apply (absorbed_bind _ _ ""); [by apply send_request_safe_absorbs|].
    intros w1. change (Py.is_empty "") with true. cbv iota.
    destruct (print_error_run "No response from Soundpad" (Client.set_pipe None c) w1)
      as (w2 & H2 & Hext).
    exists w2. by rewrite (bind_Ok _ _ _ _ _ _ _ H2). }
  unfold Client.get_volume.
  apply (absorbed_bind _ _ (-1)); [by apply Hnum|].
  intros w1. exists w1. split; [reflexivity|apply extends_refl].
Qed.

Lemma safe_operations_absorb_channel_faults_witness :
  absorbed (Client.send_request_safe "IsAlive()") "" loud_client
    (scripted (inl no_such_pipe) None (inr "") (inr "")).
Proof.
  apply (safe_operations_absorb_channel_faults "IsAlive()" loud_client
           (scripted (inl no_such_pipe) None (inr "") (inr ""))).
  - reflexivity.
  - apply (open_failure _ _ no_such_pipe); reflexivity.
Defined.

(** C2 as stated fails: [send_request] is a public operation and raises when
    the channel is absent. *)
Lemma send_request_raises_when_channel_absent :
  (Client.send_request "IsAlive()" fresh_client
     (scripted (inl no_such_pipe) None (inr "") (inr ""))).1.1
  = Raise (Exn FileNotFoundError None
      "Cannot connect to Soundpad. Make sure Soundpad is running and the remote control interface is enabled.").
Proof. reflexivity. Qed.

(** ** C4: an I/O failure closes the channel, the next call reopens it *)

(** C4.  When the channel is open (or opens) and the write or a read of the
    exchange fails, or the first read delivers nothing, [send_request] (of a
    request that encodes, so that the exchange takes place) closes the
    handle, resets it and raises [OSError];
    [send_request_safe] returns that failure as the empty response with the
    handle reset; and the next call, of either operation and whatever the
    request, begins by opening the channel again. *)
Theorem io_failure_closes_channel_and_next_send_reopens
    (request next_request : string) c w :
  Py.encode_utf8 request = Some request →
  channel_available c w → io_failure w →
  ∃ msg fd w1 w2 evs,
    Client.send_request request c w
    = (Raise (Exn OSError None msg), Client.set_pipe None c, w1)
    ∧ trace w1 = trace w ++ evs ∧ EvClose fd ∈ evs
    ∧ Client.send_request_safe request c w = (Ok "", Client.set_pipe None c, w2)
    ∧ extends w1 w2
    ∧ Client.pipe (Client.set_pipe None c) = None
    ∧ (∃ evs', trace (Client.send_request next_request (Client.set_pipe None c) w1).2
               = trace w1 ++ EvOpen Client.PIPE_PATH :: evs')
    ∧ (∃ evs', trace (Client.send_request_safe next_request
                        (Client.set_pipe None c) w2).2
               = trace w2 ++ EvOpen Client.PIPE_PATH :: evs').
Proof.
  intros Henc Hav Hio.
  destruct (send_request_io_failure request c w Henc Hav Hio)
    as (msg & w1 & fd & evs & Heq & Ht & Hin).
  destruct (send_request_safe_of_raise _ _ _ _ _ _ Heq eq_refl) as (w2 & Hs & Hext).
  exists msg, fd, w1, w2, evs.
  split; [exact Heq|]. split; [exact Ht|]. split; [exact Hin|].
  split; [exact Hs|]. split; [exact Hext|]. split; [reflexivity|]. split.
  - destruct (send_request_reopens next_request (Client.set_pipe None c) w1 eq_refl)
      as [evs' H']. exists evs'. rewrite H'. simpl. by rewrite <- (assoc_L (++)).
  - by apply send_request_safe_reopens.
Qed.

Lemma io_failure_closes_channel_and_next_send_reopens_witness :
  ∃ msg fd w1 w2 evs,
    Client.send_request "IsAlive()" fresh_client
      (scripted (inr 3) (Some broken_pipe) (inr "") (inr ""))
    = (Raise (Exn OSError None msg), Client.set_pipe None fresh_client, w1)
    ∧ trace w1 = [] ++ evs ∧ EvClose fd ∈ evs
    ∧ Client.send_request_safe "IsAlive()" fresh_client
        (scripted (inr 3) (Some broken_pipe) (inr "") (inr ""))
      = (Ok "", Client.set_pipe None fresh_client, w2)
    ∧ extends w1 w2
    ∧ Client.pipe (Client.set_pipe None fresh_client) = None
    ∧ (∃ evs', trace (Client.send_request "GetVolume()"
                        (Client.set_pipe None fresh_client) w1).2
               = trace w1 ++ EvOpen Client.PIPE_PATH :: evs')
    ∧ (∃ evs', trace (Client.send_request_safe "GetVolume()"
                        (Client.set_pipe None fresh_client) w2).2
               = trace w2 ++ EvOpen Client.PIPE_PATH :: evs').
Proof.
  apply (io_failure_closes_channel_and_next_send_reopens "IsAlive()" "GetVolume()"
           fresh_client (scripted (inr 3) (Some broken_pipe) (inr "") (inr ""))).
  - reflexivity.
  - right. exists 3. reflexivity.
  - apply (io_write _ broken_pipe). reflexivity.
Defined.

(** ** C10: the volume is never negative *)

(** C10.  [get_volume] never returns a negative value.  Whenever the volume
    query fails (no response, a response that begins with "R", or a payload
    that is not a number) the -1 of the numeric handler is clamped to 0, the
    value that the legitimate answer "0" gives as well. *)
Theorem get_volume_never_negative c w :
  (∀ v c' w', Client.get_volume c w = (Ok v, c', w') → 0 ≤ v) ∧
  (∀ c' w', Client._handle_numeric_response "GetVolume()" c w = (Ok (-1), c', w') →
            Client.get_volume c w = (Ok 0, c', w')) ∧
  (∀ response c1 w1,
     Client.send_request_safe "GetVolume()" c w = (Ok response, c1, w1) →
     response = "" ∨ Py.startswith response "R" = true ∨ Py.int response = None →
     ∃ w', Client.get_volume c w = (Ok 0, c1, w')) ∧
  (∀ c1 w1,
     Client.send_request_safe "GetVolume()" c w = (Ok "0", c1, w1) →
     Client.get_volume c w = (Ok 0, c1, w1)).
Proof.
  repeat split.
  - intros v c' w'. unfold Client.get_volume, bind.
    destruct (Client._handle_numeric_response _ c w) as [[[n|e] c1] w1];
      intros; simplify_eq. unfold ret in *. simplify_eq. lia.
  - intros c' w' H. unfold Client.get_volume.
    by rewrite (bind_Ok _ _ _ _ _ _ _ H).
  - intros response c1 w1 Hs Hbad.
    assert (∃ w', Client._handle_numeric_response "GetVolume()" c w
                  = (Ok (-1), c1, w')) as [w' H].
    { unfold Client._handle_numeric_response.
      rewrite (bind_Ok _ _ _ _ _ _ _ Hs). cbv beta.
      destruct (Py.is_empty response) eqn:Hemp.
      { destruct (print_error_run "No response from Soundpad" c1 w1) as (w2 & H2 & _).
        rewrite (bind_Ok _ _ _ _ _ _ _ H2). eauto. }
      destruct (Py.startswith response "R") eqn:HR.
      { cbv zeta.
        destruct (print_error_run
                    (Client._handle_error_response response "GetVolume()") c1 w1)
          as (w2 & H2 & _).
        rewrite (bind_Ok _ _ _ _ _ _ _ H2). eauto. }
      destruct Hbad as [->|[?|Hint]]; [done..|]. rewrite Hint.
      destruct (print_error_run
                  ("Expected numeric response, got: " +:+ response) c1 w1)
        as (w2 & H2 & _).
      rewrite (bind_Ok _ _ _ _ _ _ _ H2). eauto. }
    exists w'. unfold Client.get_volume. by rewrite (bind_Ok _ _ _ _ _ _ _ H).
  - intros c1 w1 Hs.
    assert (Client._handle_numeric_response "GetVolume()" c w = (Ok 0, c1, w1)) as H.
    { unfold Client._handle_numeric_response.
      rewrite (bind_Ok _ _ _ _ _ _ _ Hs). cbv beta.
      assert (Py.startswith "0" "R" = false) as -> by (vm_compute; reflexivity).
      assert (Py.int "0" = Some 0) as -> by (vm_compute; reflexivity).
      reflexivity. }
    unfold Client.get_volume. by rewrite (bind_Ok _ _ _ _ _ _ _ H).
Qed.

Lemma get_volume_never_negative_witness :
  (∃ w', Client.get_volume fresh_client (answering "R-404")
         = (Ok 0, reply_404.1.2, w')) ∧
  Client.get_volume fresh_client (answering "0") = (Ok 0, reply_0.1.2, reply_0.2).
Proof.
  split.
  - apply (proj1 (proj2 (proj2 (get_volume_never_negative fresh_client
                                  (answering "R-404"))))
             "R-404" reply_404.1.2 reply_404.2).
    + vm_compute. reflexivity.
    + right. left. vm_compute. reflexivity.
  - apply (proj2 (proj2 (proj2 (get_volume_never_negative fresh_client
                                  (answering "0"))))
             reply_0.1.2 reply_0.2).
    vm_compute. reflexivity.
Defined.


(** *** What one request writes to the channel *)

Lemma try_bind_Ok {S A B} (m : M S A) (k : A → M S B) h s w a s' w' :
  m s w = (Ok a, s', w') →
  try_except (bind m k) h s w = try_except (k a) h s' w'.
Proof. intros H. unfold try_except. by rewrite (bind_Ok _ _ _ _ _ _ _ H). Qed.

Lemma try_bind_Raise {S A B} (m : M S A) (k : A → M S B) h s w e s' w' k' :
  m s w = (Raise e, s', w') → h e = Some k' →
  try_except (bind m k) h s w = k' s' w'.
Proof.
  intros H Hh. unfold try_except. by rewrite (bind_Raise _ _ _ _ _ _ _ H), Hh.
Qed.

(** The guarded exchange writes the request once, first. *)
Lemma guarded_exchange_written request c w fd :
  Client.pipe c = Some fd →
  ∃ evs, trace (try_except (exchange request) on_os_error c w).2
         = trace w ++ EvWrite fd request :: evs
         ∧ Forall not_a_write evs.
Proof.
  intros Hp. destruct (write_script w (writes w)) as [ew|] eqn:Hw.
  - destruct (on_os_error_run (exn_of_os_error ew) c
                (next_write (emit (EvWrite fd request) w)) fd
                (is_OSError_os_error ew) Hp) as (k & Hk & Hrun).
    rewrite (try_caught _ _ _ _ _ _ _ _
               (exchange_write_fail request c w fd Hp ew Hw) Hk), Hrun.
    exists [EvClose fd]. split; [|by repeat constructor].
    simpl. by rewrite <- (assoc_L (++)).
  - unfold exchange. cbv zeta.
    erewrite try_bind_Ok;
      [|rewrite (with_pipe_open _ _ _ _ Hp); by apply write_ok].
    assert (emits not_a_write
              (try_except
                 (first_byte <- Client.with_pipe (λ fd, Os.read fd 1%N) ;;
                  if Py.is_empty first_byte then
                    raise (Exn OSError None "No response from Soundpad")
                  else
                    remaining_data <- Client.with_pipe (λ fd, Os.read fd 8192%N) ;;
                    match Py.decode_utf8 (first_byte +:+ remaining_data) with
                    | None => Codec.decode_error (first_byte +:+ remaining_data)
                    | Some decoded =>
                        t <- Os.time ;;
                        modify (Client.set_last_request_timestamp t) ;;
                        ret (Py.rstrip_nul decoded)
                    end)
                 on_os_error)) as Hrest.
    { apply emits_try_except; [|apply emits_on_os_error].
      unfold Client.with_pipe. emits_tac. }
    destruct (Hrest c (next_write (emit (EvWrite fd request) w))) as (evs & Ht & HP).
    exists evs. split; [|done]. rewrite Ht. simpl. by rewrite <- (assoc_L (++)).
Qed.

Lemma written_cons_write fd data evs :
  written (EvWrite fd data :: evs) = data :: written evs.
Proof. reflexivity. Qed.

Lemma paced_not_a_write c w :
  ∃ pc, trace (paced c w) = trace w ++ pc ∧ Forall not_a_write pc.
Proof.
  unfold paced. destruct (Z.abs _ <? 1000).
  - exists [EvSleep 1000]. split; [reflexivity|by repeat constructor].
  - exists []. split; [by rewrite app_nil_r|constructor].
Qed.

(** One call of [send_request] writes its request to the channel at most
    once, and exactly once when the request encodes and the channel is open
    or opens. *)
Lemma send_request_written request c w :
  ∃ evs, trace (Client.send_request request c w).2 = trace w ++ evs
         ∧ (written evs = [] ∨ written evs = [request])
         ∧ (Py.encode_utf8 request = Some request → channel_available c w →
            written evs = [request]).
Proof.
  assert (∀ c1 w1 fd pre,
            Client.init c w = (Ok tt, c1, w1) → Client.pipe c1 = Some fd →
            trace w1 = trace w ++ pre → Forall not_a_write pre →
            ∃ evs, trace (Client.send_request request c w).2 = trace w ++ evs
                   ∧ (written evs = [] ∨ written evs = [request])
                   ∧ (Py.encode_utf8 request = Some request →
                      written evs = [request])) as Hrun.
  { intros c1 w1 fd pre Hi Hp Hpre HP.
    destruct (paced_not_a_write c1 w1) as (pc & Hpc & HPpc).
    destruct (encode_utf8_cases request) as [Henc|Henc].
    - rewrite (send_request_after_init request _ _ _ _ Henc Hi).
      destruct (guarded_exchange_written request c1 (paced c1 w1) fd Hp)
        as (evs & Ht & HPevs).
      exists (pre ++ pc ++ EvWrite fd request :: evs).
      assert (written (pre ++ pc ++ EvWrite fd request :: evs) = [request]) as Hw.
      { rewrite !written_app, written_cons_write.
        by rewrite !written_not_a_write. }
      split; [|split; [by right|done]].
      rewrite Ht, Hpc, Hpre. by rewrite <- !(assoc_L (++)).
    - rewrite (send_request_unencodable request _ _ _ _ Henc Hi).
      exists (pre ++ pc).
      split; [simpl; by rewrite Hpc, Hpre, (assoc_L (++))|].
      split; [left; by rewrite written_app, !written_not_a_write|].
      intros Henc'. congruence. }
  destruct (Client.pipe c) as [fd|] eqn:Hp.
  - destruct (Hrun c w fd [] (init_open c w fd Hp) Hp) as (evs & Ht & Hw & Hex);
      [by rewrite app_nil_r | constructor |].
    exists evs. eauto.
  - destruct (open_script w (opens w)) as [eo|fd] eqn:Ho.
    + destruct (send_request_open_failure request c w eo Hp Ho) as (e & -> & He).
      exists [EvOpen Client.PIPE_PATH]. split; [reflexivity|]. split; [by left|].
      intros _ [Hs|[fd Hfd]];
        [rewrite Hp in Hs; by apply is_Some_None in Hs|congruence].
    + destruct (Hrun _ _ fd [EvOpen Client.PIPE_PATH]
                  (init_closed_ok c w fd Hp Ho) eq_refl) as (evs & Ht & Hw & Hex);
        [reflexivity | by repeat constructor |].
      exists evs. eauto.
Qed.

Lemma send_request_safe_after request c w :
  ∃ evs, trace (Client.send_request_safe request c w).2
         = trace (Client.send_request request c w).2 ++ evs
         ∧ Forall not_a_write evs.
Proof.
  unfold Client.send_request_safe, try_except.
  destruct (Client.send_request request c w) as [[[r|e] c'] w']; simpl.
  { exists []. split; [by rewrite app_nil_r | constructor]. }
  destruct (is_OSError e); [|exists []; split; [by rewrite app_nil_r | constructor]].
  assert (emits (S:=Client.SoundpadClient) not_a_write
            (c0 <- get ;;
             (if Client.print_errors c0
              then Os.print ("Soundpad communication error: " +:+ exn_text e)
              else ret tt) ;;
             Client.uninit ;; ret "")) as Hh by emits_tac.
  apply Hh.
Qed.

(** One call of [send_request_safe] writes its request to the channel at
    most once, and exactly once when the channel is open or opens. *)
Lemma send_request_safe_written request c w :
  ∃ evs, trace (Client.send_request_safe request c w).2 = trace w ++ evs
         ∧ (written evs = [] ∨ written evs = [request])
         ∧ (Py.encode_utf8 request = Some request → channel_available c w →
            written evs = [request]).
Proof.
  destruct (send_request_written request c w) as (evs & Ht & Hw & Hav).
  destruct (send_request_safe_after request c w) as (evs' & Ht' & HP).
  exists (evs ++ evs'). split; [by rewrite Ht', Ht, (assoc_L (++))|].
  rewrite written_app, (written_not_a_write evs' HP), app_nil_r. done.
Qed.

(** ** The runtime callbacks *)

Lemma log_action_run action category success details rt w :
  Runtime.log_action action category success details rt w
  = (Ok tt,
     logged {| Runtime.timestamp := clock_script w (ticks w);
               Runtime.action := action; Runtime.category := category;
               Runtime.success := success; Runtime.details := details |} rt,
     next_tick w).
Proof.
  unfold Runtime.log_action, logged.
  rewrite bind_time, bind_modify, bind_get. cbv beta.
  change (Runtime.action_log (Runtime.set_action_log ?l rt)) with l.
  destruct (decide _); reflexivity.
Qed.

Lemma on_client_run {A} (m : M Client.SoundpadClient A) rt w c :
  Runtime.soundpad_client rt = Some c →
  Runtime.on_client m rt w
  = ((m c w).1.1, Runtime.set_client (Some (m c w).1.2) rt, (m c w).2).
Proof.
  intros H. unfold Runtime.on_client. rewrite H. by destruct (m c w) as [[r c'] w'].
Qed.

Lemma app_settings_run rt w cm s :
  Runtime.config_manager rt = Some cm → Config.get_app_settings cm = inr s →
  Runtime.app_settings rt w = (Ok s, rt, w).
Proof.
  intros Hcm Hs. unfold Runtime.app_settings. by rewrite bind_get, Hcm, Hs.
Qed.

(** With the liveness flag cleared or no client, the category callback only
    logs. *)
Lemma category_callback_not_connected name config rt w :
  Runtime.not_connected rt = true →
  Runtime.category_callback name config rt w
  = (Ok tt,
     logged (failure_entry (clock_script w (S (ticks w))) "play_failed" (Some name)
               "Not connected to Soundpad")
       (logged (debug_entry (clock_script w (ticks w)) (Some name)
                  ("Shortcut triggered for '" +:+ name +:+ "'")) rt),
     next_tick (next_tick w)).
Proof.
  intros Hnc. unfold Runtime.category_callback.
  rewrite (bind_Ok _ _ _ _ _ _ _ (log_action_run _ _ _ _ _ _)), bind_get.
  change (Runtime.not_connected (logged ?e rt)) with (Runtime.not_connected rt).
  rewrite Hnc. apply log_action_run.
Qed.

Lemma pause_callback_not_connected rt w :
  Runtime.not_connected rt = true →
  Runtime.pause_callback rt w
  = (Ok tt,
     logged (failure_entry (clock_script w (S (ticks w))) "pause_failed" None
               "Not connected to Soundpad")
       (logged (debug_entry (clock_script w (ticks w)) None
                  "Pause/resume shortcut triggered") rt),
     next_tick (next_tick w)).
Proof.
  intros Hnc. unfold Runtime.pause_callback.
  rewrite (bind_Ok _ _ _ _ _ _ _ (log_action_run _ _ _ _ _ _)), bind_get.
  change (Runtime.not_connected (logged ?e rt)) with (Runtime.not_connected rt).
  rewrite Hnc. apply log_action_run.
Qed.


Lemma play_random_run category speakers microphone c w :
  Client.play_random_sound_from_category category speakers microphone c w
  = (match (Client.send_request_safe (play_request category speakers microphone) c w).1.1
     with
     | Ok response => Ok (Client._is_success response)
     | Raise e => Raise e
     end,
     (Client.send_request_safe (play_request category speakers microphone) c w).1.2,
     (Client.send_request_safe (play_request category speakers microphone) c w).2).
Proof.
  unfold Client.play_random_sound_from_category, play_request, bind. cbv zeta.
  by destruct (Client.send_request_safe _ c w) as [[[r|e] c'] w'].
Qed.

(** With a client, the flag set and settings that load, the category
    callback makes the client call and books its outcome. *)
Lemma category_callback_connected name config rt w c cm s :
  Runtime.soundpad_client rt = Some c →
  Runtime.soundpad_connected rt = true →
  Runtime.config_manager rt = Some cm →
  Config.get_app_settings cm = inr s →
  Runtime.category_callback name config rt w
  = (Ok tt,
     booked name rt (clock_script w (ticks w))
       (Client.play_random_sound_from_category
          (Config.soundpad_category_id config)
          (Config.play_on_speakers s) (Config.play_on_microphone s)
          c (next_tick w)),
     next_tick (Client.play_random_sound_from_category
                  (Config.soundpad_category_id config)
                  (Config.play_on_speakers s) (Config.play_on_microphone s)
                  c (next_tick w)).2).
Proof.
  intros Hc Hconn Hcm Hs. unfold Runtime.category_callback.
  rewrite (bind_Ok _ _ _ _ _ _ _ (log_action_run _ _ _ _ _ _)), bind_get.
  set (rt0 := logged _ rt).
  assert (Runtime.not_connected rt0 = false) as ->.
  { unfold Runtime.not_connected.
    change (Runtime.soundpad_client rt0) with (Runtime.soundpad_client rt).
    change (Runtime.soundpad_connected rt0) with (Runtime.soundpad_connected rt).
    rewrite Hc, Hconn. reflexivity. }
  erewrite try_bind_Ok; [|by eapply (app_settings_run rt0)].
  pose proof (on_client_run
                (Client.play_random_sound_from_category
                   (Config.soundpad_category_id config)
                   (Config.play_on_speakers s) (Config.play_on_microphone s))
                rt0 (next_tick w) c Hc) as Hcall.
  unfold booked. fold rt0.
  destruct (Client.play_random_sound_from_category _ _ _ c (next_tick w))
    as [[[ok|e] c'] w1]; simpl in Hcall |- *.
  - rewrite (try_bind_Ok _ _ _ _ _ _ _ _ Hcall). destruct ok.
    + apply try_Ok. rewrite !bind_modify. apply log_action_run.
    + apply try_Ok. rewrite bind_modify. apply log_action_run.
  - erewrite try_bind_Raise; [|exact Hcall|reflexivity].
    rewrite bind_modify. apply log_action_run.
Qed.


Lemma last_logged entry rt : last (Runtime.action_log (logged entry rt)) = Some entry.
Proof.
  unfold logged. simpl. destruct (decide _) as [Hlt|]; [|apply last_snoc].
  unfold Runtime.last_50. rewrite length_app in *. simpl in *.
  rewrite drop_app_le by lia. apply last_snoc.
Qed.

(** ** C1: dispatch and the cached liveness flag *)

Lemma logged_with_room entry rt :
  (length (Runtime.action_log rt) < 50)%nat →
  Runtime.action_log (logged entry rt) = Runtime.action_log rt ++ [entry].
Proof.
  intros Hlen. unfold logged. simpl. rewrite decide_False; [done|].
  rewrite length_app. simpl. lia.
Qed.

(** C1 (as the code has it).  The callbacks consult the cached flag first.
    While the runtime has no client or its flag is cleared, a fired hotkey
    makes no protocol call at all: the callback returns normally, the trace
    and the channel counters are what they were, and the statistics and the
    client object are untouched.  The log gains two entries, through
    [log_action]: the "debug" entry of the trigger, and a failure entry with
    the details "Not connected to Soundpad", "play_failed" under the
    category's name for a category callback and "pause_failed" for the
    pause/resume callback.  Only with a client and the flag set is the play
    call attempted. *)
Theorem dispatch_is_gated_by_liveness_flag name config rt w :
  let now := clock_script w (ticks w) in
  let later := clock_script w (S (ticks w)) in
  (Runtime.not_connected rt = true →
   let trigger :=
     debug_entry now (Some name) ("Shortcut triggered for '" +:+ name +:+ "'") in
   let failure :=
     failure_entry later "play_failed" (Some name) "Not connected to Soundpad" in
   ∃ rt' w',
     Runtime.category_callback name config rt w = (Ok tt, rt', w')
     ∧ trace w' = trace w ∧ opens w' = opens w ∧ writes w' = writes w
     ∧ reads w' = reads w
     ∧ Runtime.stats rt' = Runtime.stats rt
     ∧ Runtime.soundpad_client rt' = Runtime.soundpad_client rt
     ∧ Runtime.soundpad_connected rt' = Runtime.soundpad_connected rt
     ∧ last (Runtime.action_log rt') = Some failure
     ∧ Runtime.action_log rt' = Runtime.action_log (logged failure (logged trigger rt))
     ∧ ((length (Runtime.action_log rt) ≤ 48)%nat →
        Runtime.action_log rt' = Runtime.action_log rt ++ [trigger; failure])) ∧
  (Runtime.not_connected rt = true →
   let trigger := debug_entry now None "Pause/resume shortcut triggered" in
   let failure := failure_entry later "pause_failed" None "Not connected to Soundpad" in
   ∃ rt' w',
     Runtime.pause_callback rt w = (Ok tt, rt', w')
     ∧ trace w' = trace w ∧ opens w' = opens w ∧ writes w' = writes w
     ∧ reads w' = reads w
     ∧ Runtime.stats rt' = Runtime.stats rt
     ∧ Runtime.soundpad_client rt' = Runtime.soundpad_client rt
     ∧ Runtime.soundpad_connected rt' = Runtime.soundpad_connected rt
     ∧ last (Runtime.action_log rt') = Some failure
     ∧ Runtime.action_log rt' = Runtime.action_log (logged failure (logged trigger rt))
     ∧ ((length (Runtime.action_log rt) ≤ 48)%nat →
        Runtime.action_log rt' = Runtime.action_log rt ++ [trigger; failure])) ∧
  (∀ c cm s,
     Runtime.soundpad_client rt = Some c →
     Runtime.soundpad_connected rt = true →
     Runtime.config_manager rt = Some cm →
     Config.get_app_settings cm = inr s →
     trace (Runtime.category_callback name config rt w).2
     = trace (Client.play_random_sound_from_category
                (Config.soundpad_category_id config)
                (Config.play_on_speakers s) (Config.play_on_microphone s)
                c (next_tick w)).2).
Proof.
  intros now later.
  assert (∀ trigger failure,
            (length (Runtime.action_log rt) ≤ 48)%nat →
            Runtime.action_log (logged failure (logged trigger rt))
            = Runtime.action_log rt ++ [trigger; failure]) as Hroom.
  { intros trigger failure Hlen.
    rewrite logged_with_room; rewrite logged_with_room; try lia.
    - by rewrite <- (assoc_L (++)).
    - rewrite length_app. simpl. lia. }
  split; [|split].
  - intros Hnc trigger failure.
    rewrite (category_callback_not_connected name config rt w Hnc).
    eexists _, _. split; [reflexivity|]. do 7 (split; [reflexivity|]).
    split; [apply last_logged|]. split; [reflexivity|]. apply Hroom.
  - intros Hnc trigger failure. rewrite (pause_callback_not_connected rt w Hnc).
    eexists _, _. split; [reflexivity|]. do 7 (split; [reflexivity|]).
    split; [apply last_logged|]. split; [reflexivity|]. apply Hroom.
  - intros c cm s Hc Hconn Hcm Hs.
    by rewrite (category_callback_connected name config rt w c cm s Hc Hconn Hcm Hs).
Qed.

Lemma dispatch_is_gated_by_liveness_flag_witness :
  ∃ rt' w',
    Runtime.category_callback "fx" category_5 (sample_runtime false) (answering "R-200")
    = (Ok tt, rt', w')
    ∧ trace w' = trace (answering "R-200")
    ∧ Runtime.stats rt' = Runtime.stats (sample_runtime false)
    ∧ Runtime.action_log rt'
      = [debug_entry 0 (Some "fx") "Shortcut triggered for 'fx'";
         failure_entry 5000 "play_failed" (Some "fx") "Not connected to Soundpad"].
Proof.
  destruct (proj1 (dispatch_is_gated_by_liveness_flag "fx" category_5
                     (sample_runtime false) (answering "R-200")) eq_refl)
    as (rt' & w' & Hrun & Ht & _ & _ & _ & Hstats & _ & _ & _ & _ & Hlog).
  exists rt', w'. split; [exact Hrun|]. split; [exact Ht|]. split; [exact Hstats|].
  apply Hlog. simpl. lia.
Defined.

(** C1 as stated fails: Soundpad is reachable (the same play call made
    directly on the client succeeds) but the flag is stale, and the callback
    does not attempt the call: nothing reaches the channel. *)
Lemma stale_flag_blocks_the_attempt :
  (Client.play_random_sound_from_category 5 true true fresh_client
     (next_tick (answering "R-200"))).1.1 = Ok true
  ∧ trace (Runtime.category_callback "fx" category_5 (sample_runtime false)
             (answering "R-200")).2 = []
  ∧ writes (Runtime.category_callback "fx" category_5 (sample_runtime false)
              (answering "R-200")).2 = 0%nat.
Proof. vm_compute. done. Qed.

(** ** C9: dispatching a category *)

Lemma play_request_5 speakers microphone :
  play_request 5 speakers microphone
  = "DoPlayRandomSoundFromCategory(5, " +:+ Py.bool_lower speakers +:+ ", "
    +:+ Py.bool_lower microphone +:+ ")".
Proof. reflexivity. Qed.

(** C9 (as the code has it).  With a client, the liveness flag set and
    application settings that load, dispatching an action bound to category
    5 makes exactly one client request, "DoPlayRandomSoundFromCategory(5,
    <speakers>, <microphone>)": the callback leaves the client and the
    channel as that one request leaves them, and the command is written to
    the channel once when the channel is open or opens, never more.  The
    callback returns normally.  On a success response ("R-200...")
    [sounds_played] grows by exactly 1 and [errors] stays; on any other
    response, or an exception of the call, [errors] grows by exactly 1 and
    [sounds_played] stays. *)
Theorem category_dispatch_plays_once name config rt w c cm s :
  Runtime.soundpad_client rt = Some c →
  Runtime.soundpad_connected rt = true →
  Runtime.config_manager rt = Some cm →
  Config.get_app_settings cm = inr s →
  Config.soundpad_category_id config = 5 →
  let request :=
    "DoPlayRandomSoundFromCategory(5, " +:+ Py.bool_lower (Config.play_on_speakers s)
    +:+ ", " +:+ Py.bool_lower (Config.play_on_microphone s) +:+ ")" in
  let reply := Client.send_request_safe request c (next_tick w) in
  ∃ rt' w',
    Runtime.category_callback name config rt w = (Ok tt, rt', w')
    ∧ Runtime.soundpad_client rt' = Some reply.1.2
    ∧ trace w' = trace reply.2
    ∧ (∃ evs, trace w' = trace w ++ evs
              ∧ (written evs = [] ∨ written evs = [request])
              ∧ (channel_available c w → written evs = [request]))
    ∧ match reply.1.1 with
      | Ok response =>
          if Client._is_success response then
            Runtime.sounds_played (Runtime.stats rt')
            = Runtime.sounds_played (Runtime.stats rt) + 1
            ∧ Runtime.errors (Runtime.stats rt') = Runtime.errors (Runtime.stats rt)
          else
            Runtime.errors (Runtime.stats rt')
            = Runtime.errors (Runtime.stats rt) + 1
            ∧ Runtime.sounds_played (Runtime.stats rt')
              = Runtime.sounds_played (Runtime.stats rt)
      | Raise _ =>
          Runtime.errors (Runtime.stats rt') = Runtime.errors (Runtime.stats rt) + 1
          ∧ Runtime.sounds_played (Runtime.stats rt')
            = Runtime.sounds_played (Runtime.stats rt)
      end.
Proof.
  intros Hc Hconn Hcm Hs Hid request reply.
  rewrite (category_callback_connected name config rt w c cm s Hc Hconn Hcm Hs).
  rewrite Hid, play_random_run, play_request_5. fold request. fold reply.
  destruct (send_request_safe_written request c (next_tick w))
    as (evs & Ht & Hw & Hav).
  specialize (Hav (play_request_encodes 5 _ _)).
  fold reply in Ht.
  eexists _, _. split; [reflexivity|].
  unfold booked. cbv zeta.
  destruct reply as [[[response|e] c'] w1]; simpl in *.
  - destruct (Client._is_success response); simpl;
      (split; [reflexivity|]); (split; [reflexivity|]);
      (split; [exists evs; by rewrite Ht|]); done.
  - (split; [reflexivity|]); (split; [reflexivity|]);
      (split; [exists evs; by rewrite Ht|]); done.
Qed.

Lemma category_dispatch_plays_once_witness :
  ∃ rt' w',
    Runtime.category_callback "fx" category_5 (sample_runtime true) (answering "R-200")
    = (Ok tt, rt', w')
    ∧ Runtime.sounds_played (Runtime.stats rt') = 1
    ∧ Runtime.errors (Runtime.stats rt') = 0
    ∧ written (trace w') = ["DoPlayRandomSoundFromCategory(5, true, true)"].
Proof.
  destruct (category_dispatch_plays_once "fx" category_5 (sample_runtime true)
              (answering "R-200") fresh_client sample_config
              {| Config.play_on_speakers := true; Config.play_on_microphone := true;
                 Config.log_level := "INFO"; Config.show_notifications := true;
                 Config.auto_start_with_windows := false |}
              eq_refl eq_refl eq_refl eq_refl eq_refl)
    as (rt' & w' & Hrun & _ & Ht & _ & Hstats).
  exists rt', w'. split; [exact Hrun|].
  assert ((Client.send_request_safe "DoPlayRandomSoundFromCategory(5, true, true)"
             fresh_client (next_tick (answering "R-200"))).1.1 = Ok "R-200") as Hr
    by (vm_compute; reflexivity).
  assert (written (trace (Client.send_request_safe
                            "DoPlayRandomSoundFromCategory(5, true, true)"
                            fresh_client (next_tick (answering "R-200"))).2)
          = ["DoPlayRandomSoundFromCategory(5, true, true)"]) as Hw
    by (vm_compute; reflexivity).
  cbv zeta in Hstats, Ht. simpl Py.bool_lower in Hstats, Ht.
  change ("DoPlayRandomSoundFromCategory(5, " +:+ "true" +:+ ", " +:+ "true" +:+ ")")
    with "DoPlayRandomSoundFromCategory(5, true, true)" in Hstats, Ht.
  rewrite Hr in Hstats.
  assert (Client._is_success "R-200" = true) as Hs by (vm_compute; reflexivity).
  rewrite Hs in Hstats. destruct Hstats as [H1 H2].
  split; [exact H1|]. split; [exact H2|]. rewrite Ht. exact Hw.
Defined.

(** C9 as stated fails: with the liveness flag cleared, dispatching the
    action bound to category 5 on a healthy channel issues no request, and
    neither counter moves. *)
Lemma disconnected_dispatch_issues_no_request :
  written (trace (Runtime.category_callback "fx" category_5 (sample_runtime false)
                    (answering "R-200")).2) = []
  ∧ Runtime.sounds_played
      (Runtime.stats (Runtime.category_callback "fx" category_5 (sample_runtime false)
                        (answering "R-200")).1.2) = 0
  ∧ Runtime.errors
      (Runtime.stats (Runtime.category_callback "fx" category_5 (sample_runtime false)
                        (answering "R-200")).1.2) = 0.
Proof. vm_compute. done. Qed.


(** ** C7: normalisation of key combinations *)

(** *** Characters and strings *)

Lemma lower_char_idemp a : Py.lower_char (Py.lower_char a) = Py.lower_char a.
Proof. destruct a as [[] [] [] [] [] [] [] []]; reflexivity. Qed.

Lemma isspace_lower_char a : Py.isspace (Py.lower_char a) = Py.isspace a.
Proof. destruct a as [[] [] [] [] [] [] [] []]; reflexivity. Qed.

Lemma lower_idemp s : Py.lower (Py.lower s) = Py.lower s.
Proof. induction s as [|a s IH]; simpl; [done|]. by rewrite lower_char_idemp, IH. Qed.

Lemma is_empty_lower s : Py.is_empty (Py.lower s) = Py.is_empty s.
Proof. by destruct s. Qed.

Lemma lower_lstrip s :
  Py.lower (Py.lstrip_by Py.isspace s) = Py.lstrip_by Py.isspace (Py.lower s).
Proof.
  induction s as [|a s IH]; simpl; [done|].
  rewrite isspace_lower_char. by destruct (Py.isspace a).
Qed.

Lemma lower_rstrip s :
  Py.lower (Py.rstrip_by Py.isspace s) = Py.rstrip_by Py.isspace (Py.lower s).
Proof.
  induction s as [|a s IH]; simpl; [done|].
  rewrite isspace_lower_char, <- IH, is_empty_lower.
  by destruct (Py.isspace a && Py.is_empty _).
Qed.

Lemma lower_strip s : Py.lower (Py.strip s) = Py.strip (Py.lower s).
Proof. unfold Py.strip. by rewrite lower_lstrip, lower_rstrip. Qed.

Section Strip.
Context (p : ascii → bool).

Lemma lstrip_idemp s : Py.lstrip_by p (Py.lstrip_by p s) = Py.lstrip_by p s.
Proof.
  induction s as [|a s IH]; simpl; [done|].
  destruct (p a) eqn:Ha; [done|]. simpl. by rewrite Ha.
Qed.

Lemma rstrip_idemp s : Py.rstrip_by p (Py.rstrip_by p s) = Py.rstrip_by p s.
Proof.
  induction s as [|a s IH]; simpl; [done|].
  destruct (p a) eqn:Ha; simpl.
  - destruct (Py.rstrip_by p s) eqn:Hs; simpl; [done|].
    rewrite Ha. simpl in IH. by rewrite IH.
  - rewrite Ha. simpl. by rewrite IH.
Qed.

Lemma rstrip_lstrip s :
  Py.rstrip_by p (Py.lstrip_by p s) = Py.lstrip_by p (Py.rstrip_by p s).
Proof.
  induction s as [|a s IH]; simpl; [done|].
  destruct (p a) eqn:Ha; simpl.
  - rewrite IH. destruct (Py.rstrip_by p s) eqn:Hs; simpl; [done|]. by rewrite Ha.
  - by rewrite Ha.
Qed.
End Strip.

Lemma strip_idemp s : Py.strip (Py.strip s) = Py.strip s.
Proof.
  unfold Py.strip.
  by rewrite rstrip_lstrip, rstrip_idemp, lstrip_idemp.
Qed.

(** *** Canonical keys *)

Lemma alias_values key v :
  Py.dict_get Keys.key_aliases key = Some v → v ∈ Keys.modifier_order.
Proof.
  unfold Keys.key_aliases, Keys.modifier_order. simpl.
  repeat (case_decide; [intros [= <-]; set_solver|]). done.
Qed.

Lemma canonical_modifier m : m ∈ Keys.modifier_order → canonical_key m.
Proof.
  unfold Keys.modifier_order. intros Hm.
  repeat (apply elem_of_cons in Hm as [->|Hm]; [by vm_compute|]).
  by apply elem_of_nil in Hm.
Qed.

Lemma clean_key_canonical key :
  Keys.clean_key key ≠ "" → canonical_key (Keys.clean_key key).
Proof.
  unfold Keys.clean_key. cbv zeta.
  destruct (Py.dict_get Keys.key_aliases (Py.strip (Py.lower key))) as [v|] eqn:Hal;
    simpl.
  - intros _. apply canonical_modifier. by eapply alias_values.
  - intros Hne. split; [done|].
    assert (Py.lower (Py.strip (Py.lower key)) = Py.strip (Py.lower key)) as Hl
      by (by rewrite lower_strip, lower_idemp).
    split; [|done].
    unfold Keys.clean_key. cbv zeta. by rewrite Hl, strip_idemp, Hal.
Qed.

Lemma collect_invariant keys acc :
  Forall canonical_key acc → NoDup acc →
  Forall canonical_key (Keys.collect keys acc) ∧ NoDup (Keys.collect keys acc).
Proof.
  revert acc. induction keys as [|key keys IH]; intros acc Hc Hn; simpl; [done|].
  destruct (Py.is_empty (Keys.clean_key key)) eqn:He; simpl; [by apply IH|].
  case_bool_decide as Hin; simpl; [by apply IH|].
  apply IH.
  - apply Forall_app. split; [done|]. constructor; [|done].
    apply clean_key_canonical. intros Heq. by rewrite Heq in He.
  - apply NoDup_app. split; [done|]. split; [|apply NoDup_singleton].
    intros x Hx ->%list_elem_of_singleton. done.
Qed.

(** The first loop leaves a canonical list as it is. *)
Lemma collect_canonical l acc :
  Forall canonical_key l → NoDup (acc ++ l) → Keys.collect l acc = acc ++ l.
Proof.
  revert acc. induction l as [|x l IH]; intros acc Hc Hn; simpl.
  { by rewrite app_nil_r. }
  apply Forall_cons in Hc as [(Hne & Hclean & _) Hc]. rewrite Hclean.
  assert (Py.is_empty x = false) as -> by (by destruct x).
  apply NoDup_app in Hn as Hn'. destruct Hn' as (_ & Hdisj & _).
  rewrite bool_decide_eq_false_2; simpl.
  - rewrite IH; [by rewrite <- (assoc_L (++))|done|by rewrite <- (assoc_L (++))].
  - intros Hin. apply (Hdisj x Hin). apply list_elem_of_here.
Qed.

Lemma split_modifiers_canonical l :
  Forall canonical_key l →
  Keys.split_modifiers l
  = (filter (λ x, x ∈ Keys.modifier_order) l, filter (λ x, x ∉ Keys.modifier_order) l).
Proof.
  induction 1 as [|x l (_ & _ & Hl) _ IH]; simpl; [done|].
  rewrite IH, Hl, !filter_cons. case_bool_decide as Hin.
  - rewrite decide_True by done. by rewrite decide_False by (intros Hn; by apply Hn).
  - rewrite decide_False by done. by rewrite decide_True by done.
Qed.

Lemma sorted_sorted l : Py.sorted (Py.sorted l) = Py.sorted l.
Proof.
  unfold Py.sorted. apply (Sorted_unique String.le).
  - apply Sorted_merge_sort; apply _.
  - apply Sorted_merge_sort; apply _.
  - apply merge_sort_Permutation.
Qed.

Lemma elem_of_sorted x l : x ∈ Py.sorted l ↔ x ∈ l.
Proof. unfold Py.sorted. by rewrite merge_sort_Permutation. Qed.

Lemma filter_ext_elem {A} (P Q : A → Prop) `{∀ x, Decision (P x)}
    `{∀ x, Decision (Q x)} (l : list A) :
  (∀ x, x ∈ l → P x ↔ Q x) → filter P l = filter Q l.
Proof.
  induction l as [|x l IH]; intros Hext; [done|].
  rewrite !filter_cons.
  assert (P x ↔ Q x) as Hx by (apply Hext, list_elem_of_here).
  rewrite IH by (intros y Hy; apply Hext; by apply list_elem_of_further).
  destruct (decide (P x)), (decide (Q x)); tauto.
Qed.

(** Every result of [normalize_key_combination] has the canonical shape:
    the modifiers present, in the fixed order, then the other keys in
    alphabetical order. *)
Lemma normalize_shape keys :
  Keys.normalize_key_combination keys = canonical_shape (Keys.collect keys []).
Proof.
  destruct (collect_invariant keys [] (Forall_nil_2 _) (NoDup_nil_2)) as [Hc Hn].
  unfold Keys.normalize_key_combination, canonical_shape. cbv zeta.
  rewrite (split_modifiers_canonical _ Hc). unfold Keys.sort_modifiers.
  f_equal. apply filter_ext_elem. intros m Hm.
  rewrite list_elem_of_filter. tauto.
Qed.

Lemma NoDup_modifier_order : NoDup Keys.modifier_order.
Proof. apply (bool_decide_unpack (NoDup Keys.modifier_order)). vm_compute. reflexivity. Qed.

Lemma canonical_shape_invariant l :
  Forall canonical_key l → NoDup l →
  Forall canonical_key (canonical_shape l) ∧ NoDup (canonical_shape l).
Proof.
  intros Hc Hn. unfold canonical_shape. split.
  - apply Forall_app. split.
    + apply Forall_forall. intros m [_ Hm]%list_elem_of_filter.
      by apply canonical_modifier.
    + apply Forall_forall. intros x [_ Hx]%elem_of_sorted%list_elem_of_filter.
      by eapply Forall_forall in Hc.
  - apply NoDup_app. split; [|split].
    + apply NoDup_filter, NoDup_modifier_order.
    + intros m [_ Hm]%list_elem_of_filter [Hnm _]%elem_of_sorted%list_elem_of_filter.
      done.
    + unfold Py.sorted. rewrite merge_sort_Permutation. by apply NoDup_filter.
Qed.

Lemma filter_none {A} (P : A → Prop) `{∀ x, Decision (P x)} (l : list A) :
  (∀ x, x ∈ l → ¬ P x) → filter P l = [].
Proof.
  induction l as [|x l IH]; intros Hl; [done|].
  rewrite filter_cons_False by (apply Hl, list_elem_of_here).
  apply IH. intros y Hy. apply Hl. by apply list_elem_of_further.
Qed.

Lemma filter_all {A} (P : A → Prop) `{∀ x, Decision (P x)} (l : list A) :
  (∀ x, x ∈ l → P x) → filter P l = l.
Proof.
  induction l as [|x l IH]; intros Hl; [done|].
  rewrite filter_cons_True by (apply Hl, list_elem_of_here).
  f_equal. apply IH. intros y Hy. apply Hl. by apply list_elem_of_further.
Qed.

Lemma canonical_shape_idemp l :
  canonical_shape (canonical_shape l) = canonical_shape l.
Proof.
  unfold canonical_shape. f_equal.
  - apply filter_ext_elem. intros m Hm.
    rewrite elem_of_app, list_elem_of_filter, elem_of_sorted, list_elem_of_filter.
    tauto.
  - rewrite filter_app, filter_none, filter_all, app_nil_l.
    + apply sorted_sorted.
    + intros x [Hx _]%elem_of_sorted%list_elem_of_filter. done.
    + intros m [_ Hm]%list_elem_of_filter Hn. done.
Qed.

(** C7.  Normalisation is idempotent: normalising an already normalised
    combination returns it unchanged.  This holds for every list of key
    tokens, in particular for the lists of 1 to 4 valid tokens. *)
Theorem normalize_idempotent (keys : list string) :
  Keys.normalize_key_combination (Keys.normalize_key_combination keys)
  = Keys.normalize_key_combination keys.
Proof.
  destruct (collect_invariant keys [] (Forall_nil_2 _) (NoDup_nil_2)) as [Hc Hn].
  destruct (canonical_shape_invariant _ Hc Hn) as [Hc' Hn'].
  rewrite (normalize_shape keys).
  rewrite (normalize_shape (canonical_shape (Keys.collect keys []))).
  rewrite (collect_canonical _ [] Hc') by done.
  apply canonical_shape_idemp.
Qed.

Example normalize_example :
  Keys.normalize_key_combination ["Shift"; " CTRL"; "1"; "win"; "a"; "control"]
  = ["ctrl"; "shift"; "cmd"; "1"; "a"].
Proof. vm_compute. reflexivity. Qed.


(** ** C6: the conflict resolver *)

Lemma sorted_eq_iff_Permutation l1 l2 : Py.sorted l1 = Py.sorted l2 ↔ l1 ≡ₚ l2.
Proof.
  unfold Py.sorted. split.
  - intros Heq. rewrite <- (merge_sort_Permutation String.le l1),
      <- (merge_sort_Permutation String.le l2). by rewrite Heq.
  - intros Hp. apply (Sorted_unique String.le).
    + apply Sorted_merge_sort; apply _.
    + apply Sorted_merge_sort; apply _.
    + by rewrite !merge_sort_Permutation.
Qed.

(** *** The dictionary of owners *)

Lemma dd_get_append k key item d :
  dd_get k (Config.dd_append key item d)
  = if decide (k = key) then Some (default [] (dd_get key d) ++ [item])
    else dd_get k d.
Proof.
  induction d as [|[k' v] d IH]; simpl.
  - repeat case_decide; congruence.
  - destruct (decide (k' = key)) as [->|Hne]; simpl; rewrite ?IH;
      repeat case_decide; simplify_eq/=; congruence.
Qed.

Lemma dd_keys_append key item d :
  (Config.dd_append key item d).*1
  = if decide (key ∈ d.*1) then d.*1 else d.*1 ++ [key].
Proof.
  induction d as [|[k' v] d IH]; [done|].
  cbn [Config.dd_append].
  destruct (decide (k' = key)) as [->|Hne]; rewrite !fmap_cons; cbn [fst].
  - by rewrite decide_True by apply list_elem_of_here.
  - rewrite IH. destruct (decide (key ∈ d.*1)) as [Hin|Hnin].
    + by rewrite decide_True by (by apply list_elem_of_further).
    + rewrite decide_False; [done|].
      intros [->|?]%elem_of_cons; done.
Qed.

Lemma dd_NoDup_append key item d :
  NoDup d.*1 → NoDup (Config.dd_append key item d).*1.
Proof.
  intros Hn. rewrite dd_keys_append. destruct (decide _) as [|Hnin]; [done|].
  apply NoDup_app. split; [done|]. split; [|apply NoDup_singleton].
  intros x Hx ->%list_elem_of_singleton. done.
Qed.

Lemma dd_get_elem_of k v d :
  NoDup d.*1 → (k, v) ∈ d ↔ dd_get k d = Some v.
Proof.
  induction d as [|[k' v'] d IH]; simpl; intros Hn.
  - split; [by intros ?%elem_of_nil | done].
  - apply NoDup_cons in Hn as [Hnin Hn].
    rewrite elem_of_cons, (IH Hn). destruct (decide (k' = k)) as [->|Hne].
    + split.
      * intros [[= -> ]|Hget]; [done|]. exfalso. apply Hnin.
        apply IH in Hget; [|done].
        by apply (list_elem_of_fmap_2 fst) in Hget.
      * intros [= ->]. by left.
    + split; [|by right]. intros [[= ]|?]; [congruence|done].
Qed.

Lemma owners_of_snoc k es e :
  owners_of k (es ++ [e])
  = owners_of k es ++ (if decide (e.1 = k) then [e.2] else []).
Proof.
  unfold owners_of. rewrite filter_app, fmap_app. f_equal.
  rewrite filter_cons, filter_nil. by destruct (decide (e.1 = k)).
Qed.

Lemma elem_of_owners_of id k es : id ∈ owners_of k es ↔ (k, id) ∈ es.
Proof.
  unfold owners_of. rewrite list_elem_of_fmap. split.
  - intros ([k' id'] & -> & [Hk Hin]%list_elem_of_filter). simpl in *. by subst.
  - intros Hin. exists (k, id). split; [done|]. by apply list_elem_of_filter.
Qed.

(** Filing the entries one by one groups the identifiers by key tuple. *)
Lemma filed_entries es :
  NoDup (foldl file_entry [] es).*1 ∧
  ∀ k, dd_get k (foldl file_entry [] es)
       = match owners_of k es with [] => None | v => Some v end.
Proof.
  induction es as [|e es [IHn IH]] using rev_ind.
  { split; [constructor|done]. }
  rewrite foldl_snoc. unfold file_entry at 1 3. split.
  { by apply dd_NoDup_append. }
  intros k. rewrite dd_get_append, owners_of_snoc.
  destruct (decide (k = e.1)) as [->|Hne].
  - rewrite decide_True by done. rewrite IH.
    by destruct (owners_of e.1 es).
  - rewrite decide_False by done. by rewrite IH, app_nil_r.
Qed.

Lemma collect_categories_foldl cats d :
  Config.collect_categories cats d
  = foldl file_entry d
      (omap entry_of
         ((λ nc : string * Config.CategoryConfig,
             ("category:" +:+ nc.1, Config.keyboard_shortcut nc.2)) <$> cats)).
Proof.
  revert d. induction cats as [|[name config] cats IH]; intros d; simpl; [done|].
  unfold entry_of at 1. simpl.
  destruct (Config.keyboard_shortcut config) eqn:Hk; simpl; by rewrite IH.
Qed.

Lemma resolver_foldl cm :
  Config.get_conflicting_shortcuts cm
  = filter (λ kv, (1 < length kv.2)%nat)
      (foldl file_entry [] (omap entry_of (bindings cm))).
Proof.
  unfold Config.get_conflicting_shortcuts, bindings. cbv zeta.
  rewrite omap_app, foldl_app, <- collect_categories_foldl.
  unfold entry_of at 1. simpl.
  by destruct (Config.get_stop_shortcut cm).
Qed.

(** *** Identifiers are unique *)

Lemma functional_of_NoDup_fst {A B} (l : list (A * B)) x y1 y2 :
  NoDup l.*1 → (x, y1) ∈ l → (x, y2) ∈ l → y1 = y2.
Proof.
  induction l as [|[a b] l IH]; simpl; intros Hn H1 H2.
  { by apply elem_of_nil in H1. }
  apply NoDup_cons in Hn as [Hnin Hn].
  apply elem_of_cons in H1 as [[= -> ->]|H1];
    apply elem_of_cons in H2 as [[= ]|H2]; subst.
  - done.
  - exfalso. apply Hnin. by apply (list_elem_of_fmap_2 fst) in H2.
  - exfalso. apply Hnin. by apply (list_elem_of_fmap_2 fst) in H1.
  - by apply IH.
Qed.

Lemma NoDup_bindings cm :
  NoDup (Config.categories cm).*1 → NoDup (bindings cm).*1.
Proof.
  intros Hn. unfold bindings, Config.get_all_categories.
  rewrite fmap_app.
  apply NoDup_app. split; [|split; [|apply NoDup_singleton]].
  - rewrite <- list_fmap_compose.
    change (NoDup ((String.app "category:" ∘ fst) <$> Config.categories cm)).
    rewrite list_fmap_compose. by apply (NoDup_fmap_2 (String.app "category:")).
  - intros x Hx Hp. apply list_elem_of_fmap in Hx as ([id ks] & -> & Hin).
    apply list_elem_of_fmap in Hin as (nc & [= -> ->] & _).
    apply list_elem_of_singleton in Hp. discriminate Hp.
Qed.

Lemma two_elements (v : list string) a b :
  a ∈ v → b ∈ v → a ≠ b → (1 < length v)%nat.
Proof.
  destruct v as [|x [|y v]]; simpl; intros Ha Hb Hne; [..|lia].
  - by apply elem_of_nil in Ha.
  - apply list_elem_of_singleton in Ha, Hb. congruence.
Qed.

Lemma elem_of_entries (k : list string) (id : string)
    (bs : list (string * list string)) :
  (k, id) ∈ omap entry_of bs ↔ ∃ keys, (id, keys) ∈ bs ∧ keys ≠ [] ∧ Py.sorted keys = k.
Proof.
  rewrite list_elem_of_omap. split.
  - intros ([id' keys] & Hin & He). unfold entry_of in He. simpl in He.
    destruct keys as [|t keys]; [done|]. simplify_eq. eauto.
  - intros (keys & Hin & Hne & <-). exists (id, keys). split; [done|].
    unfold entry_of. simpl. by destruct keys.
Qed.

(** The resolver returns exactly the sorted key tuples filed by more than
    one binding, each with the list of the identifiers that own it, in
    configuration order; two bindings with distinct identifiers and
    non-empty key lists are reported together exactly when their key lists
    are permutations of each other. *)
Lemma conflict_resolver_reports_permuted_bindings cm :
  NoDup (Config.categories cm).*1 →
  (∀ k v, (k, v) ∈ Config.get_conflicting_shortcuts cm
          ↔ v = owners_of k (omap entry_of (bindings cm)) ∧ (1 < length v)%nat) ∧
  (∀ id1 keys1 id2 keys2,
     (id1, keys1) ∈ bindings cm → (id2, keys2) ∈ bindings cm →
     id1 ≠ id2 → keys1 ≠ [] → keys2 ≠ [] →
     (∃ k v, (k, v) ∈ Config.get_conflicting_shortcuts cm ∧ id1 ∈ v ∧ id2 ∈ v)
     ↔ keys1 ≡ₚ keys2).
Proof.
  intros Hnames. pose proof (NoDup_bindings cm Hnames) as Hids.
  destruct (filed_entries (omap entry_of (bindings cm))) as [Hn Hget].
  assert (∀ k v, (k, v) ∈ Config.get_conflicting_shortcuts cm
                 ↔ v = owners_of k (omap entry_of (bindings cm))
                   ∧ (1 < length v)%nat) as Hres.
  { intros k v. rewrite resolver_foldl, list_elem_of_filter. simpl.
    rewrite (dd_get_elem_of _ _ _ Hn), Hget. split.
    - intros [Hlen Hv]. destruct (owners_of k _); by simplify_eq.
    - intros [-> Hlen]. split; [done|].
      destruct (owners_of k _); [simpl in Hlen; lia|done]. }
  split; [exact Hres|].
  intros id1 keys1 id2 keys2 Hb1 Hb2 Hne Hk1 Hk2. split.
  - intros (k & v & [-> _]%Hres & H1 & H2).
    apply elem_of_owners_of, elem_of_entries in H1 as (keys1' & Hin1 & _ & Hs1).
    apply elem_of_owners_of, elem_of_entries in H2 as (keys2' & Hin2 & _ & Hs2).
    assert (keys1' = keys1) as ->
      by exact (functional_of_NoDup_fst (bindings cm) id1 _ _ Hids Hin1 Hb1).
    assert (keys2' = keys2) as ->
      by exact (functional_of_NoDup_fst (bindings cm) id2 _ _ Hids Hin2 Hb2).
    apply sorted_eq_iff_Permutation. congruence.
  - intros Hp%sorted_eq_iff_Permutation.
    exists (Py.sorted keys1), (owners_of (Py.sorted keys1) (omap entry_of (bindings cm))).
    assert (id1 ∈ owners_of (Py.sorted keys1) (omap entry_of (bindings cm))) as H1
      by (apply elem_of_owners_of, elem_of_entries; eauto).
    assert (id2 ∈ owners_of (Py.sorted keys1) (omap entry_of (bindings cm))) as H2
      by (apply elem_of_owners_of, elem_of_entries; eauto).
    split; [|done]. apply Hres. split; [done|].
    exact (two_elements _ id1 id2 H1 H2 Hne).
Qed.

(** C6.  The resolver is a function of the candidate bindings, the
    reserved pause/resume binding included.  It returns exactly the sorted
    key tuples used by more than one binding, each with the list of the
    identifiers that own it, in configuration order.  Two bindings with
    distinct identifiers that carry a key combination (a non-empty key list
    without a repeated token) are reported together exactly when their key
    lists are set-equal, whatever the order of the tokens. *)
Theorem conflict_resolver_reports_set_equal_bindings cm :
  NoDup (Config.categories cm).*1 →
  (∀ k v, (k, v) ∈ Config.get_conflicting_shortcuts cm
          ↔ v = owners_of k (omap entry_of (bindings cm)) ∧ (1 < length v)%nat) ∧
  (∀ id1 keys1 id2 keys2,
     (id1, keys1) ∈ bindings cm → (id2, keys2) ∈ bindings cm →
     id1 ≠ id2 →
     keys1 ≠ [] → NoDup keys1 → keys2 ≠ [] → NoDup keys2 →
     (∃ k v, (k, v) ∈ Config.get_conflicting_shortcuts cm ∧ id1 ∈ v ∧ id2 ∈ v)
     ↔ (∀ t, t ∈ keys1 ↔ t ∈ keys2)).
Proof.
  intros Hnames.
  destruct (conflict_resolver_reports_permuted_bindings cm Hnames) as [Hres Hpair].
  split; [exact Hres|].
  intros id1 keys1 id2 keys2 Hb1 Hb2 Hne Hk1 Hn1 Hk2 Hn2.
  rewrite (Hpair id1 keys1 id2 keys2 Hb1 Hb2 Hne Hk1 Hk2). split.
  - intros Hp t. by rewrite Hp.
  - intros Hset. by apply NoDup_Permutation.
Qed.

Lemma conflict_resolver_reports_set_equal_bindings_witness :
  ∃ k v, (k, v) ∈ Config.get_conflicting_shortcuts clash_config
         ∧ "category:fx" ∈ v ∧ "category:meme" ∈ v.
Proof.
  assert (NoDup (Config.categories clash_config).*1) as Hnames.
  { apply (bool_decide_unpack (NoDup (Config.categories clash_config).*1)).
    vm_compute. reflexivity. }
  apply (proj2 (conflict_resolver_reports_set_equal_bindings clash_config Hnames)
           "category:fx" ["alt"; "5"] "category:meme" ["5"; "alt"]).
  - apply list_elem_of_here.
  - apply list_elem_of_further, list_elem_of_here.
  - done.
  - done.
  - apply (bool_decide_unpack (NoDup ["alt"; "5"])). vm_compute. reflexivity.
  - done.
  - apply (bool_decide_unpack (NoDup ["5"; "alt"])). vm_compute. reflexivity.
  - intros t. rewrite !elem_of_cons, elem_of_nil. tauto.
Defined.


(** ** C8: registering a combination *)

Section RegisterProperties.
Context {Callback : Type}.
Implicit Types (l : Registry.KeyboardListener Callback) (w : World).

Lemma register_hotkey_registered hotkey cb l w :
  ∃ l' w', Registry._register_hotkey hotkey cb l w = (Ok tt, l', w')
           ∧ Registry.registered_combinations l' = Registry.registered_combinations l.
Proof.
  unfold Registry._register_hotkey. rewrite bind_get.
  unfold bind at 1, Os.add_hotkey.
  destruct (hotkey_script w (hooks w)); eexists _, _; split; reflexivity.
Qed.

(** C8.  [register_combination] rejects an empty key combination with
    [ValueError], and rejects an identifier that is already registered
    with [ValueError], in both cases leaving the registry (and the hotkey
    backend) exactly as it was.  So after a successful registration under
    an identifier, a second call with the same identifier fails with
    [ValueError] whatever its other arguments, and the registry still
    holds the first binding, unchanged. *)
Theorem register_rejects_duplicates_and_empty :
  (∀ cb combo_id description l w,
     Registry.register_combination [] cb combo_id description l w
     = (Raise (Exn ValueError None "Key combination cannot be empty"), l, w)) ∧
  (∀ keys cb id description l w,
     is_Some (Registry.registered_combinations l !! id) →
     ∃ msg, Registry.register_combination keys cb (Some id) description l w
            = (Raise (Exn ValueError None msg), l, w)) ∧
  (∀ keys cb id description l w,
     keys ≠ [] → Registry.registered_combinations l !! id = None →
     ∃ l1 w1,
       Registry.register_combination keys cb (Some id) description l w
       = (Ok id, l1, w1)
       ∧ Registry.registered_combinations l1
         = <[id := {| Registry.keys := keys; Registry.callback := cb;
                      Registry.description := description;
                      Registry.enabled := true; Registry.combo_id := id |}]>
             (Registry.registered_combinations l)
       ∧ ∀ keys' cb' description' w2,
           ∃ msg,
             Registry.register_combination keys' cb' (Some id) description' l1 w2
             = (Raise (Exn ValueError None msg), l1, w2)
             ∧ Registry.registered_combinations l1 !! id
               = Some {| Registry.keys := keys; Registry.callback := cb;
                         Registry.description := description;
                         Registry.enabled := true; Registry.combo_id := id |}).
Proof.
  assert (∀ keys cb id description l w,
            is_Some (Registry.registered_combinations l !! id) →
            ∃ msg, Registry.register_combination keys cb (Some id) description l w
                   = (Raise (Exn ValueError None msg), l, w)) as Hdup.
  { intros keys cb id description l w [old Hold].
    destruct keys as [|key keys]; [by eexists|].
    unfold Registry.register_combination. cbv zeta. rewrite bind_get.
    change (default (Registry.join "+" (key :: keys)) (Some id)) with id.
    rewrite Hold. by eexists. }
  split; [done|]. split; [exact Hdup|].
  intros keys cb id description l w Hne Hfree.
  destruct keys as [|key keys]; [done|].
  set (combination :=
         {| Registry.keys := key :: keys; Registry.callback := cb;
            Registry.description := description;
            Registry.enabled := true; Registry.combo_id := id |}).
  set (stored := Registry.set_registered
                   (<[id := combination]> (Registry.registered_combinations l)) l).
  assert (∃ l1 w1,
            Registry.register_combination (key :: keys) cb (Some id) description l w
            = (Ok id, l1, w1)
            ∧ Registry.registered_combinations l1
              = <[id := combination]> (Registry.registered_combinations l))
    as (l1 & w1 & Hrun & Hreg).
  { unfold Registry.register_combination. cbv zeta. rewrite bind_get.
    change (default (Registry.join "+" (key :: keys)) (Some id)) with id.
    rewrite Hfree, bind_modify, bind_get. fold combination stored.
    destruct (Registry.running stored).
    - destruct (register_hotkey_registered
                  (Registry._keys_to_hotkey_string (key :: keys)) cb stored w)
        as (l' & w' & Hh & Hsame).
      rewrite (bind_Ok _ _ _ _ _ _ _ Hh). eexists _, _. split; [reflexivity|].
      by rewrite Hsame.
    - rewrite bind_ret. eexists _, _. split; reflexivity. }
  exists l1, w1. split; [exact Hrun|]. split; [exact Hreg|].
  intros keys' cb' description' w2.
  assert (Registry.registered_combinations l1 !! id = Some combination) as Hstored
    by (rewrite Hreg; apply lookup_insert_eq).
  destruct (Hdup keys' cb' id description' l1 w2 (mk_is_Some _ _ Hstored))
    as [msg Hmsg].
  exists msg. split; [exact Hmsg | exact Hstored].
Qed.
End RegisterProperties.

Lemma register_rejects_duplicates_and_empty_witness :
  ∃ l1 w1,
    Registry.register_combination ["alt"; "5"] tt (Some "category_fx")
      "Play random sound from fx" empty_listener (answering "R-200")
    = (Ok "category_fx", l1, w1)
    ∧ (∃ msg,
         Registry.register_combination ["ctrl"; "9"] tt (Some "category_fx")
           "Play random sound from other" l1 w1
         = (Raise (Exn ValueError None msg), l1, w1))
    ∧ Registry.registered_combinations l1 !! "category_fx"
      = Some {| Registry.keys := ["alt"; "5"]; Registry.callback := tt;
                Registry.description := "Play random sound from fx";
                Registry.enabled := true; Registry.combo_id := "category_fx" |}.
Proof.
  destruct (proj2 (proj2 (register_rejects_duplicates_and_empty (Callback := unit)))
              ["alt"; "5"] tt "category_fx" "Play random sound from fx"
              empty_listener (answering "R-200"))
    as (l1 & w1 & Hrun & _ & Hsecond).
  - done.
  - reflexivity.
  - exists l1, w1. split; [exact Hrun|].
    destruct (Hsecond ["ctrl"; "9"] tt "Play random sound from other" w1)
      as (msg & Hmsg & Hstored).
    split; [by exists msg | exact Hstored].
Defined.


(** ** C3: two callers and one channel *)

(** *** The pieces make up [send_request] *)

Lemma guarded_Ok (m : M Client.SoundpadClient Interleaving.position) c w p c' w' :
  m c w = (Ok p, c', w') → Interleaving.guarded m c w = (Ok p, c', w').
Proof. intros H. unfold Interleaving.guarded. by rewrite H. Qed.

Lemma guarded_caught (m : M Client.SoundpadClient Interleaving.position)
    c w e c' w' fd :
  m c w = (Raise e, c', w') → is_OSError e = true → Client.pipe c' = Some fd →
  Interleaving.guarded m c w
  = (Ok (Interleaving.Finished (Raise (wrapped e))),
     Client.set_pipe None c', emit (EvClose fd) w').
Proof.
  intros H He Hp. unfold Interleaving.guarded.
  by rewrite H, He, (uninit_open c' w' fd Hp).
Qed.

Lemma guarded_uncaught (m : M Client.SoundpadClient Interleaving.position)
    c w e c' w' :
  m c w = (Raise e, c', w') → is_OSError e = false →
  Interleaving.guarded m c w = (Ok (Interleaving.Finished (Raise e)), c', w').
Proof. intros H He. unfold Interleaving.guarded. by rewrite H, He. Qed.

Lemma step_start_ok request c w c1 w1 :
  Client.init c w = (Ok tt, c1, w1) →
  Interleaving.step request Interleaving.AtStart c w
  = (Ok Interleaving.AtWrite, c1, paced c1 w1).
Proof.
  intros Hi. unfold Interleaving.step, Interleaving.unguarded.
  rewrite (bind_Ok _ _ _ _ _ _ _ Hi), bind_time, bind_get. unfold paced.
  destruct (Z.abs _ <? 1000).
  - by rewrite bind_sleep.
  - by rewrite bind_ret.
Qed.

Lemma step_start_raise request c w e c1 w1 :
  Client.init c w = (Raise e, c1, w1) →
  Interleaving.step request Interleaving.AtStart c w
  = (Ok (Interleaving.Finished (Raise e)), c1, w1).
Proof.
  intros Hi. unfold Interleaving.step, Interleaving.unguarded.
  by rewrite (bind_Raise _ _ _ _ _ _ _ Hi).
Qed.

(** A request that does not encode ends the call at the write, whatever the
    handle is. *)
Lemma step_write_unencodable request c w :
  Py.encode_utf8 request = None →
  Interleaving.step request Interleaving.AtWrite c w
  = (Ok (Interleaving.Finished (Raise (encode_exn w request))), c, w).
Proof.
  intros Henc. unfold Interleaving.step. rewrite Henc.
  by apply guarded_uncaught.
Qed.

Section Steps.
Context (request : string) (c : Client.SoundpadClient) (w : World) (fd : Z).
Hypothesis Hpipe : Client.pipe c = Some fd.
Hypothesis Henc : Py.encode_utf8 request = Some request.

Lemma step_write_ok :
  write_script w (writes w) = None →
  Interleaving.step request Interleaving.AtWrite c w
  = (Ok Interleaving.AtReadFirst, c, next_write (emit (EvWrite fd request) w)).
Proof.
  intros Hw. unfold Interleaving.step. rewrite Henc.
  apply guarded_Ok. erewrite bind_Ok; [reflexivity|].
  rewrite (with_pipe_open _ _ _ _ Hpipe). by apply write_ok.
Qed.

Lemma step_write_fail e :
  write_script w (writes w) = Some e →
  Interleaving.step request Interleaving.AtWrite c w
  = (Ok (Interleaving.Finished (Raise (wrapped (exn_of_os_error e)))),
     Client.set_pipe None c,
     emit (EvClose fd) (next_write (emit (EvWrite fd request) w))).
Proof.
  intros Hw. unfold Interleaving.step. rewrite Henc.
  eapply guarded_caught; [|apply is_OSError_os_error|exact Hpipe].
  apply bind_Raise. rewrite (with_pipe_open _ _ _ _ Hpipe). by apply write_fail.
Qed.

Lemma step_read_ok data :
  read_script w (reads w) = inr data →
  Py.is_empty (Py.slice_to 1 data) = false →
  Interleaving.step request Interleaving.AtReadFirst c w
  = (Ok (Interleaving.AtReadRest (Py.slice_to 1 data)), c,
     next_read (emit (EvRead fd 1) w)).
Proof.
  intros Hr He. apply guarded_Ok.
  erewrite bind_Ok;
    [|rewrite (with_pipe_open _ _ _ _ Hpipe); by apply read_ok].
  change (N.to_nat 1) with 1%nat. by rewrite He.
Qed.

Lemma step_read_fail e :
  read_script w (reads w) = inl e →
  Interleaving.step request Interleaving.AtReadFirst c w
  = (Ok (Interleaving.Finished (Raise (wrapped (exn_of_os_error e)))),
     Client.set_pipe None c, emit (EvClose fd) (next_read (emit (EvRead fd 1) w))).
Proof.
  intros Hr. eapply guarded_caught; [|apply is_OSError_os_error|exact Hpipe].
  apply bind_Raise. rewrite (with_pipe_open _ _ _ _ Hpipe). by apply read_fail.
Qed.

Lemma step_read_empty :
  read_script w (reads w) = inr "" →
  Interleaving.step request Interleaving.AtReadFirst c w
  = (Ok (Interleaving.Finished
           (Raise (wrapped (Exn OSError None "No response from Soundpad")))),
     Client.set_pipe None c, emit (EvClose fd) (next_read (emit (EvRead fd 1) w))).
Proof.
  intros Hr. eapply guarded_caught; [|reflexivity|exact Hpipe].
  erewrite bind_Ok;
    [|rewrite (with_pipe_open _ _ _ _ Hpipe); by apply read_ok].
  by rewrite slice_to_empty.
Qed.

Lemma step_rest_fail first_byte e :
  read_script w (reads w) = inl e →
  Interleaving.step request (Interleaving.AtReadRest first_byte) c w
  = (Ok (Interleaving.Finished (Raise (wrapped (exn_of_os_error e)))),
     Client.set_pipe None c,
     emit (EvClose fd) (next_read (emit (EvRead fd 8192) w))).
Proof.
  intros Hr. eapply guarded_caught; [|apply is_OSError_os_error|exact Hpipe].
  apply bind_Raise. rewrite (with_pipe_open _ _ _ _ Hpipe). by apply read_fail.
Qed.

Lemma step_rest_undecodable first_byte rest :
  read_script w (reads w) = inr rest →
  Py.decode_utf8 (first_byte +:+ Py.slice_to (N.to_nat 8192) rest) = None →
  Interleaving.step request (Interleaving.AtReadRest first_byte) c w
  = (Ok (Interleaving.Finished
           (Raise (decode_exn w (first_byte +:+ Py.slice_to (N.to_nat 8192) rest)))),
     c, next_read (emit (EvRead fd 8192) w)).
Proof.
  intros Hr Hd. apply guarded_uncaught; [|reflexivity].
  erewrite bind_Ok;
    [|rewrite (with_pipe_open _ _ _ _ Hpipe); by apply read_ok].
  cbv zeta. by rewrite Hd.
Qed.

Lemma step_rest_ok first_byte rest decoded :
  read_script w (reads w) = inr rest →
  Py.decode_utf8 (first_byte +:+ Py.slice_to (N.to_nat 8192) rest) = Some decoded →
  Interleaving.step request (Interleaving.AtReadRest first_byte) c w
  = (Ok (Interleaving.Finished (Ok (Py.rstrip_nul decoded))),
     Client.set_last_request_timestamp
       (clock_script w (ticks w)) c,
     next_tick (next_read (emit (EvRead fd 8192) w))).
Proof.
  intros Hr Hd. apply guarded_Ok.
  erewrite bind_Ok;
    [|rewrite (with_pipe_open _ _ _ _ Hpipe); by apply read_ok].
  cbv zeta. by rewrite Hd.
Qed.
End Steps.

Lemma guarded_exchange_caught request c w fd e w1 :
  Client.pipe c = Some fd →
  exchange request c w = (Raise e, c, w1) → is_OSError e = true →
  try_except (exchange request) on_os_error c w
  = (Raise (wrapped e), Client.set_pipe None c, emit (EvClose fd) w1).
Proof.
  intros Hp Hx He.
  destruct (on_os_error_run e c w1 fd He Hp) as (k & Hk & Hrun).
  by rewrite (try_caught _ _ _ _ _ _ _ _ Hx Hk).
Qed.

(** The three guarded pieces, run one after the other on an open channel,
    are the guarded exchange. *)
Lemma guarded_pieces request c w fd :
  Client.pipe c = Some fd →
  (p <- Interleaving.step request Interleaving.AtWrite ;;
   p <- Interleaving.step request p ;;
   Interleaving.step request p) c w
  = (Ok (Interleaving.Finished
           (try_except (encoded_exchange request) on_os_error c w).1.1),
     (try_except (encoded_exchange request) on_os_error c w).1.2,
     (try_except (encoded_exchange request) on_os_error c w).2).
Proof.
  intros Hp.
  destruct (encode_utf8_cases request) as [Henc|Henc].
  2: { rewrite (bind_Ok _ _ _ _ _ _ _ (step_write_unencodable request c w Henc)).
       unfold try_except, encoded_exchange. rewrite Henc. reflexivity. }
  rewrite (encoded_exchange_encodable _ Henc).
  destruct (write_script w (writes w)) as [ew|] eqn:Hw.
  { rewrite (guarded_exchange_caught _ _ _ _ _ _ Hp
               (exchange_write_fail request c w fd Hp ew Hw)
               (is_OSError_os_error ew)).
    by rewrite (bind_Ok _ _ _ _ _ _ _ (step_write_fail request c w fd Hp Henc ew Hw)). }
  rewrite (bind_Ok _ _ _ _ _ _ _ (step_write_ok request c w fd Hp Henc Hw)).
  set (w1 := next_write (emit (EvWrite fd request) w)).
  destruct (read_script w (reads w)) as [er|data] eqn:Hr.
  { rewrite (guarded_exchange_caught _ _ _ _ _ _ Hp
               (exchange_read_fail request c w fd Hp er Hw Hr)
               (is_OSError_os_error er)).
    by rewrite (bind_Ok _ _ _ _ _ _ _ (step_read_fail request c w1 fd Hp er Hr)). }
  destruct (Py.is_empty (Py.slice_to 1 data)) eqn:He.
  { assert (data = "") as -> by (destruct data; [done|discriminate]).
    rewrite (guarded_exchange_caught _ _ _ _ _ _ Hp
               (exchange_empty request c w fd Hp Hw Hr) eq_refl).
    by rewrite (bind_Ok _ _ _ _ _ _ _ (step_read_empty request c w1 fd Hp Hr)). }
  rewrite (bind_Ok _ _ _ _ _ _ _ (step_read_ok request c w1 fd Hp data Hr He)).
  set (w2 := next_read (emit (EvRead fd 1) w1)).
  destruct (read_script w (S (reads w))) as [er|rest] eqn:Hr2.
  { rewrite (guarded_exchange_caught _ _ _ _ _ _ Hp
               (exchange_read_rest_fail request c w fd Hp data er Hw Hr He Hr2)
               (is_OSError_os_error er)).
    by rewrite (step_rest_fail request c w2 fd Hp _ er Hr2). }
  destruct (Py.decode_utf8 (Py.slice_to 1 data +:+ Py.slice_to (N.to_nat 8192) rest))
    as [decoded|] eqn:Hd.
  - rewrite (try_Ok _ _ _ _ _ _ _
               (exchange_ok request c w fd Hp data rest decoded Hw Hr He Hr2 Hd)).
    by rewrite (step_rest_ok request c w2 fd Hp _ rest decoded Hr2 Hd).
  - rewrite (try_uncaught _ _ _ _ _ _ _
               (exchange_undecodable request c w fd Hp data rest Hw Hr He Hr2 Hd)
               eq_refl).
    by rewrite (step_rest_undecodable request c w2 fd Hp _ rest Hr2 Hd).
Qed.

Lemma init_result c w :
  (∃ c1 w1 fd, Client.init c w = (Ok tt, c1, w1) ∧ Client.pipe c1 = Some fd) ∨
  (∃ e c1 w1, Client.init c w = (Raise e, c1, w1)).
Proof.
  destruct (Client.pipe c) as [fd|] eqn:Hp.
  - left. exists c, w, fd. split; [by apply (init_open c w fd)|done].
  - destruct (open_script w (opens w)) as [eo|fd] eqn:Ho.
    + right. destruct (init_closed_fail c w eo Hp Ho) as (e & Hi & _). eauto.
    + left. eexists _, _, fd. split; [by apply init_closed_ok|done].
Qed.

(** A caller that is not interrupted does what [send_request] does. *)
Lemma run_alone_is_send_request request c w :
  Interleaving.run_alone request c w
  = (Ok (Interleaving.Finished (Client.send_request request c w).1.1),
     (Client.send_request request c w).1.2, (Client.send_request request c w).2).
Proof.
  unfold Interleaving.run_alone.
  destruct (init_result c w) as [(c1 & w1 & fd & Hi & Hp)|(e & c1 & w1 & Hi)].
  - rewrite (bind_Ok _ _ _ _ _ _ _ (step_start_ok request c w c1 w1 Hi)).
    rewrite (send_request_prelude request c w c1 w1 Hi).
    apply (guarded_pieces request c1 (paced c1 w1) fd Hp).
  - rewrite (bind_Ok _ _ _ _ _ _ _ (step_start_raise request c w e c1 w1 Hi)).
    by rewrite (send_request_init_raise request c w e c1 w1 Hi).
Qed.


(** *** Progress of a caller *)

Lemma guarded_total (m : M Client.SoundpadClient Interleaving.position) c w :
  ∃ p c' w', Interleaving.guarded m c w = (Ok p, c', w')
             ∧ (∀ q c1 w1, m c w = (Ok q, c1, w1) → p = q)
             ∧ ((∃ e c1 w1, m c w = (Raise e, c1, w1)) → ∃ r, p = Interleaving.Finished r).
Proof.
  unfold Interleaving.guarded. destruct (m c w) as [[[q|e] c1] w1].
  - eexists _, _, _. split; [reflexivity|]. split; [by intros ??? [= ->]|].
    by intros (? & ? & ? & ?).
  - destruct (is_OSError e).
    + destruct (Client.uninit c1 w1) as [[u c2] w2].
      eexists _, _, _. split; [reflexivity|]. split; [done|eauto].
    + eexists _, _, _. split; [reflexivity|]. split; [done|eauto].
Qed.

Lemma unguarded_total (m : M Client.SoundpadClient Interleaving.position) c w :
  ∃ p c' w', Interleaving.unguarded m c w = (Ok p, c', w')
             ∧ (∀ q c1 w1, m c w = (Ok q, c1, w1) → p = q)
             ∧ ((∃ e c1 w1, m c w = (Raise e, c1, w1)) → ∃ r, p = Interleaving.Finished r).
Proof.
  unfold Interleaving.unguarded. destruct (m c w) as [[[q|e] c1] w1].
  - eexists _, _, _. split; [reflexivity|]. split; [by intros ??? [= ->]|].
    by intros (? & ? & ? & ?).
  - eexists _, _, _. split; [reflexivity|]. split; [done|eauto].
Qed.

(** What a computation returns when it returns: [returns P m]. *)
Lemma returns_bind {S A B} (P : B → Prop) (m : M S A) (k : A → M S B) :
  (∀ a, returns P (k a)) → returns P (bind m k).
Proof.
  intros Hk s w b s' w'. unfold bind.
  destruct (m s w) as [[[a|e] s1] w1]; [apply Hk|done].
Qed.

Lemma returns_ret {S A} (P : A → Prop) (a : A) : P a → returns (S:=S) P (ret a).
Proof. intros HP s w b s' w' [= <- _ _]. done. Qed.

Lemma returns_raise {S A} (P : A → Prop) e : returns (S:=S) P (raise e).
Proof. intros s w b s' w'. done. Qed.

Lemma returns_encode_error {S A} (P : A → Prop) t :
  returns (S:=S) P (Codec.encode_error t).
Proof. intros s w b s' w'. done. Qed.

Lemma returns_decode_error {S A} (P : A → Prop) b :
  returns (S:=S) P (Codec.decode_error b).
Proof. intros s w a s' w'. done. Qed.

(** Every piece ends the call or moves the caller one position on. *)
Lemma step_advances request p c w :
  ∃ p' c' w', Interleaving.step request p c w = (Ok p', c', w') ∧ advanced p p'.
Proof.
  assert (∀ (m : M Client.SoundpadClient Interleaving.position) wrap,
            (wrap = Interleaving.guarded ∨ wrap = Interleaving.unguarded) →
            returns (advanced p) m →
            ∃ p' c' w', wrap m c w = (Ok p', c', w') ∧ advanced p p') as Hwrap.
  { intros m wrap Hwrap Hm.
    assert (∃ p' c' w', wrap m c w = (Ok p', c', w')
              ∧ (∀ q c1 w1, m c w = (Ok q, c1, w1) → p' = q)
              ∧ ((∃ e c1 w1, m c w = (Raise e, c1, w1))
                 → ∃ r, p' = Interleaving.Finished r))
      as (p' & c' & w' & Hrun & Hok & Hraise)
      by (destruct Hwrap as [-> | ->]; [apply guarded_total|apply unguarded_total]).
    exists p', c', w'. split; [done|].
    destruct (m c w) as [[[q|e] c1] w1] eqn:Hmcw.
    - rewrite (Hok q c1 w1 eq_refl). by eapply Hm.
    - destruct Hraise as [r ->]; [eauto|]. done. }
  destruct p as [| | |first_byte|r].
  - apply Hwrap; [by right|]. repeat (apply returns_bind; intros ?).
    by apply returns_ret.
  - apply Hwrap; [by left|].
    destruct (Py.encode_utf8 request); [|apply returns_encode_error].
    apply returns_bind; intros ?. by apply returns_ret.
  - apply Hwrap; [by left|]. apply returns_bind; intros fb.
    destruct (Py.is_empty fb); [apply returns_raise|by apply returns_ret].
  - apply Hwrap; [by left|]. apply returns_bind; intros rest. cbv zeta.
    destruct (Py.decode_utf8 _); [|apply returns_decode_error].
    repeat (apply returns_bind; intros ?). by apply returns_ret.
  - eexists _, _, _. split; [reflexivity|done].
Qed.

Lemma in_flight_le p : (Interleaving.in_flight p ≤ 1)%nat.
Proof. destruct p; simpl; lia. Qed.

Lemma in_flight_rank p : rank p = 4%nat → Interleaving.in_flight p = 0%nat.
Proof. by destruct p. Qed.

Lemma rank_le p : (rank p ≤ 4)%nat.
Proof. destruct p; simpl; lia. Qed.

Lemma advanced_rank p p' : advanced p p' → (Nat.min 4 (S (rank p)) ≤ rank p')%nat.
Proof.
  pose proof (rank_le p).
  unfold advanced. destruct p'; cbn [rank]; intros Hadv; lia.
Qed.

(** *** Schedules *)

Section Schedules.
Context (requestA requestB : string).
Abbreviation sched_step := (Interleaving.schedule_step requestA requestB).
Abbreviation run := (Interleaving.run_schedule requestA requestB).
Abbreviation exclusive := (Interleaving.exclusive_throughout requestA requestB).

Lemma schedule_step_A s :
  Interleaving.posB (sched_step Interleaving.CallerA s) = Interleaving.posB s
  ∧ advanced (Interleaving.posA s)
      (Interleaving.posA (sched_step Interleaving.CallerA s)).
Proof.
  unfold Interleaving.schedule_step.
  destruct (step_advances requestA (Interleaving.posA s)
              (Interleaving.client s) (Interleaving.world s))
    as (p' & c' & w' & -> & Hadv).
  done.
Qed.

Lemma schedule_step_B s :
  Interleaving.posA (sched_step Interleaving.CallerB s) = Interleaving.posA s
  ∧ advanced (Interleaving.posB s)
      (Interleaving.posB (sched_step Interleaving.CallerB s)).
Proof.
  unfold Interleaving.schedule_step.
  destruct (step_advances requestB (Interleaving.posB s)
              (Interleaving.client s) (Interleaving.world s))
    as (p' & c' & w' & -> & Hadv).
  done.
Qed.

Lemma exclusive_app sched1 sched2 s :
  exclusive (sched1 ++ sched2) s
  ↔ exclusive sched1 s ∧ exclusive sched2 (run sched1 s).
Proof.
  revert s. induction sched1 as [|t sched1 IH]; intros s;
    unfold Interleaving.run_schedule in *;
    cbn [app foldl Interleaving.exclusive_throughout].
  - destruct sched2; simpl; tauto.
  - rewrite IH. tauto.
Qed.

Lemma solo_A n s :
  Interleaving.in_flight (Interleaving.posB s) = 0%nat →
  exclusive (replicate n Interleaving.CallerA) s
  ∧ Interleaving.posB (run (replicate n Interleaving.CallerA) s)
    = Interleaving.posB s
  ∧ (Nat.min 4 (rank (Interleaving.posA s) + n)
     ≤ rank (Interleaving.posA (run (replicate n Interleaving.CallerA) s)))%nat.
Proof.
  revert s. induction n as [|n IH]; intros s HB;
    unfold Interleaving.run_schedule in *;
    cbn [replicate foldl Interleaving.exclusive_throughout].
  - split; [|split; [done|lia]]. split; [|done].
    unfold Interleaving.requests_in_flight. rewrite HB.
    pose proof (in_flight_le (Interleaving.posA s)). lia.
  - destruct (schedule_step_A s) as [HposB Hadv].
    destruct (IH (sched_step Interleaving.CallerA s)) as (Hex & HB' & Hrank);
      [by rewrite HposB|].
    split; [|split].
    + split; [|done]. unfold Interleaving.requests_in_flight. rewrite HB.
      pose proof (in_flight_le (Interleaving.posA s)). lia.
    + by rewrite HB', HposB.
    + apply advanced_rank in Hadv. lia.
Qed.

Lemma solo_B n s :
  Interleaving.in_flight (Interleaving.posA s) = 0%nat →
  exclusive (replicate n Interleaving.CallerB) s
  ∧ Interleaving.posA (run (replicate n Interleaving.CallerB) s)
    = Interleaving.posA s
  ∧ (Nat.min 4 (rank (Interleaving.posB s) + n)
     ≤ rank (Interleaving.posB (run (replicate n Interleaving.CallerB) s)))%nat.
Proof.
  revert s. induction n as [|n IH]; intros s HA;
    unfold Interleaving.run_schedule in *;
    cbn [replicate foldl Interleaving.exclusive_throughout].
  - split; [|split; [done|lia]]. split; [|done].
    unfold Interleaving.requests_in_flight. rewrite HA.
    pose proof (in_flight_le (Interleaving.posB s)). lia.
  - destruct (schedule_step_B s) as [HposA Hadv].
    destruct (IH (sched_step Interleaving.CallerB s)) as (Hex & HA' & Hrank);
      [by rewrite HposA|].
    split; [|split].
    + split; [|done]. unfold Interleaving.requests_in_flight. rewrite HA.
      pose proof (in_flight_le (Interleaving.posB s)). lia.
    + by rewrite HA', HposA.
    + apply advanced_rank in Hadv. lia.
Qed.
End Schedules.

(** C3 (as the code has it).  [send_request] takes no lock: it is the
    sequence of its channel operations and nothing keeps a second caller out
    between them.  What holds is weaker: a caller that is not interrupted
    does exactly what [send_request] does, and when the calls do not overlap
    (one caller completes its call, in at least four pieces, before the other
    starts) at most one request is in flight at every instant.  The
    serialization is left to the callers. *)
Theorem serial_callers_are_exclusive (requestA requestB : string) c w (n m : nat) :
  (4 ≤ n)%nat →
  Interleaving.run_alone requestA c w
  = (Ok (Interleaving.Finished (Client.send_request requestA c w).1.1),
     (Client.send_request requestA c w).1.2, (Client.send_request requestA c w).2)
  ∧ Interleaving.exclusive_throughout requestA requestB
      (replicate n Interleaving.CallerA ++ replicate m Interleaving.CallerB)
      (Interleaving.start c w)
  ∧ Interleaving.exclusive_throughout requestA requestB
      (replicate n Interleaving.CallerB ++ replicate m Interleaving.CallerA)
      (Interleaving.start c w).
Proof.
  intros Hn. split; [apply run_alone_is_send_request|]. split.
  - apply exclusive_app.
    destruct (solo_A requestA requestB n (Interleaving.start c w) eq_refl)
      as (Hex & HB & Hrank).
    split; [done|]. apply solo_B. apply in_flight_rank.
    pose proof (rank_le (Interleaving.posA
                           (Interleaving.run_schedule requestA requestB
                              (replicate n Interleaving.CallerA)
                              (Interleaving.start c w)))).
    change (Interleaving.posA (Interleaving.start c w))
      with Interleaving.AtStart in Hrank.
    cbn [rank] in Hrank. lia.
  - apply exclusive_app.
    destruct (solo_B requestA requestB n (Interleaving.start c w) eq_refl)
      as (Hex & HA & Hrank).
    split; [done|]. apply solo_A. apply in_flight_rank.
    pose proof (rank_le (Interleaving.posB
                           (Interleaving.run_schedule requestA requestB
                              (replicate n Interleaving.CallerB)
                              (Interleaving.start c w)))).
    change (Interleaving.posB (Interleaving.start c w))
      with Interleaving.AtStart in Hrank.
    cbn [rank] in Hrank. lia.
Qed.

Lemma serial_callers_are_exclusive_witness :
  Interleaving.exclusive_throughout "GetVolume()" "IsAlive()"
    (replicate 4 Interleaving.CallerA ++ replicate 4 Interleaving.CallerB)
    (Interleaving.start fresh_client (answering "R-200")).
Proof.
  apply (serial_callers_are_exclusive "GetVolume()" "IsAlive()" fresh_client
           (answering "R-200") 4 4).
  lia.
Defined.

(** C3 as stated fails: let the monitoring loop start its exchange after the
    callback thread has written its request and before it has read the
    response; then two requests are in flight on the one channel. *)
Lemma overlapping_callers_both_in_flight :
  Interleaving.requests_in_flight
    (Interleaving.run_schedule "DoPlayRandomSoundFromCategory(5, true, true)" "IsAlive()"
       [Interleaving.CallerA; Interleaving.CallerA;
        Interleaving.CallerB; Interleaving.CallerB]
       (Interleaving.start fresh_client (answering "R-200")))
  = 2%nat
  ∧ ¬ Interleaving.exclusive_throughout
        "DoPlayRandomSoundFromCategory(5, true, true)" "IsAlive()"
        [Interleaving.CallerA; Interleaving.CallerA;
         Interleaving.CallerB; Interleaving.CallerB]
        (Interleaving.start fresh_client (answering "R-200")).
Proof.
  assert (Interleaving.requests_in_flight
            (Interleaving.run_schedule
               "DoPlayRandomSoundFromCategory(5, true, true)" "IsAlive()"
               [Interleaving.CallerA; Interleaving.CallerA;
                Interleaving.CallerB; Interleaving.CallerB]
               (Interleaving.start fresh_client (answering "R-200")))
          = 2%nat) as Htwo by (vm_compute; reflexivity).
  split; [exact Htwo|].
  intros Hex.
  apply (exclusive_app _ _
           [Interleaving.CallerA; Interleaving.CallerA;
            Interleaving.CallerB; Interleaving.CallerB] []) in Hex
    as [_ [Hle _]].
  rewrite Htwo in Hle. lia.
Qed.

(** ** The protocol client, continued *)

Global Hint Extern 1 (not_an_open _) => exact I : emits.

Lemma paced_channel c w :
  write_script (paced c w) = write_script w ∧ writes (paced c w) = writes w
  ∧ read_script (paced c w) = read_script w ∧ reads (paced c w) = reads w
  ∧ opens (paced c w) = opens w.
Proof. unfold paced. by destruct (Z.abs _ <? 1000). Qed.

Lemma trace_paced c w : trace (paced c w) = trace w ++ pacing_events c w.
Proof.
  unfold paced, pacing_events. destruct (Z.abs _ <? 1000); [done|].
  simpl. by rewrite app_nil_r.
Qed.

Lemma decode_utf8_Some b d : Py.decode_utf8 b = Some d → d = b.
Proof. unfold Py.decode_utf8. case_match; congruence. Qed.

Lemma is_empty_slice_1 data : Py.is_empty (Py.slice_to 1 data) = Py.is_empty data.
Proof. by destruct data. Qed.

(** The three ways the guarded exchange can end: an I/O failure, which
    closes the channel; a response that is not UTF-8, which escapes the
    [except OSError] clause; a response. *)
Lemma guarded_exchange_cases request c w fd :
  Client.pipe c = Some fd →
  (io_failure w ∧
   ∃ msg w', try_except (exchange request) on_os_error c w
             = (Raise (Exn OSError None msg), Client.set_pipe None c, w'))
  ∨ (∃ data rest w',
       read_script w (reads w) = inr data ∧ read_script w (S (reads w)) = inr rest
       ∧ Py.decode_utf8 (response_bytes data rest) = None
       ∧ try_except (exchange request) on_os_error c w
         = (Raise (decode_exn w (response_bytes data rest)), c, w'))
  ∨ (∃ data rest w',
       write_script w (writes w) = None
       ∧ read_script w (reads w) = inr data ∧ data ≠ ""
       ∧ read_script w (S (reads w)) = inr rest
       ∧ Py.decode_utf8 (response_bytes data rest) = Some (response_bytes data rest)
       ∧ try_except (exchange request) on_os_error c w
         = (Ok (Py.rstrip_nul (response_bytes data rest)),
            Client.set_last_request_timestamp (clock_script w (ticks w)) c, w')).
Proof.
  intros Hp.
  assert (io_failure w →
          io_failure w ∧
          ∃ msg w', try_except (exchange request) on_os_error c w
                    = (Raise (Exn OSError None msg), Client.set_pipe None c, w')) as Hio.
  { intros Hio. split; [done|].
    destruct (guarded_exchange_io_failure request c w fd Hp Hio)
      as (msg & w' & evs & Heq & _). eauto. }
  destruct (write_script w (writes w)) as [ew|] eqn:Hw.
  { left. apply Hio. by eapply io_write. }
  destruct (read_script w (reads w)) as [er|data] eqn:Hr.
  { left. apply Hio. by eapply io_read. }
  destruct (Py.is_empty data) eqn:He.
  { left. apply Hio. apply is_empty_true in He as ->. by eapply io_empty. }
  destruct (read_script w (S (reads w))) as [er|rest] eqn:Hr2.
  { left. apply Hio. by eapply io_read_rest. }
  assert (Py.is_empty (Py.slice_to 1 data) = false) as He1
    by (by rewrite is_empty_slice_1).
  right. destruct (Py.decode_utf8 (response_bytes data rest)) as [decoded|] eqn:Hd.
  - right. pose proof (decode_utf8_Some _ _ Hd) as ->.
    eexists data, rest, _. split; [done|]. split; [done|].
    split; [by intros ->|]. split; [done|]. split; [done|].
    erewrite try_Ok; [|by eapply (exchange_ok request c w fd Hp data rest)].
    reflexivity.
  - left. eexists data, rest, _. split; [done|]. split; [done|]. split; [done|].
    erewrite try_uncaught;
      [reflexivity | by eapply (exchange_undecodable request c w fd Hp data rest) | done].
Qed.

Lemma guarded_exchange_not_an_open request :
  emits not_an_open (try_except (encoded_exchange request) on_os_error).
Proof.
  apply emits_try_except.
  - unfold encoded_exchange, exchange, Client.with_pipe. emits_tac.
  - intros e k Hk. unfold on_os_error in Hk. case_match; simplify_eq.
    apply emits_bind; [|intros ?; auto with emits].
    apply emits_uninit. done.
Qed.

(** Where the guarded exchange of a call starts when the channel is open or
    opens: the handle is in place and the channel scripts are untouched. *)
Lemma send_request_start request c w :
  channel_available c w →
  ∃ fd c1 w1,
    Client.pipe c1 = Some fd
    ∧ Client.send_request request c w
      = try_except (encoded_exchange request) on_os_error c1 (paced c1 w1)
    ∧ Client.set_pipe None c1 = Client.set_pipe None c
    ∧ Client.last_request_timestamp c1 = Client.last_request_timestamp c
    ∧ Client.print_errors c1 = Client.print_errors c
    ∧ (∀ fd0, Client.pipe c = Some fd0 → fd0 = fd ∧ c1 = c ∧ w1 = w)
    ∧ write_script w1 = write_script w ∧ writes w1 = writes w
    ∧ read_script w1 = read_script w ∧ reads w1 = reads w
    ∧ clock_script w1 = clock_script w ∧ ticks w1 = ticks w
    ∧ decode_error_text w1 = decode_error_text w
    ∧ extends w w1.
Proof.
  intros Hav. destruct (Client.pipe c) as [fd|] eqn:Hp.
  - exists fd, c, w. split; [done|]. split.
    { by apply send_request_prelude, (init_open c w fd). }
    repeat (split; [done|]). split; [by intros ? [= ->]|].
    repeat (split; [done|]). exists []. by rewrite app_nil_r.
  - destruct Hav as [Hs|[fd Ho]]; [rewrite Hp in Hs; by apply is_Some_None in Hs|].
    exists fd, (Client.set_pipe (Some fd) c),
      (next_open (emit (EvOpen Client.PIPE_PATH) w)).
    split; [done|]. split.
    { by apply send_request_prelude, init_closed_ok. }
    repeat (split; [done|]). by exists [EvOpen Client.PIPE_PATH].
Qed.

Lemma io_failure_channel_fault c w w1 :
  write_script w1 = write_script w → writes w1 = writes w →
  read_script w1 = read_script w → reads w1 = reads w →
  io_failure w1 → channel_fault c w.
Proof.
  intros Hws Hw Hrs Hr [e H|e H|H|e H]; rewrite ?Hws, ?Hw, ?Hrs, ?Hr in H.
  - by eapply write_failure.
  - by eapply read_failure.
  - by eapply empty_response.
  - by eapply read_rest_failure.
Qed.

(** A request that does not encode, on a channel that is open or opens:
    [UnicodeEncodeError], with the handle in place. *)
Lemma send_request_unencodable_available request c w :
  Py.encode_utf8 request = None → channel_available c w →
  ∃ fd e c' w',
    Client.send_request request c w = (Raise e, c', w')
    ∧ exn_cls e = UnicodeEncodeError ∧ Client.pipe c' = Some fd.
Proof.
  intros Henc Hav.
  destruct (send_request_start request c w Hav) as (fd & c1 & w1 & Hp & Hrun & _).
  exists fd. rewrite Hrun. unfold try_except, encoded_exchange. rewrite Henc.
  eexists _, _, _. split; [reflexivity|]. done.
Qed.

(** Every way a call of [send_request] can end. *)
Lemma send_request_cases request c w :
  (channel_fault c w ∧
   ∃ e w', Client.send_request request c w = (Raise e, Client.set_pipe None c, w')
           ∧ is_OSError e = true)
  ∨ (∃ fd data rest c' w',
       channel_available c w
       ∧ read_script w (reads w) = inr data ∧ read_script w (S (reads w)) = inr rest
       ∧ Py.decode_utf8 (response_bytes data rest) = None
       ∧ Client.send_request request c w
         = (Raise (decode_exn w (response_bytes data rest)), c', w')
       ∧ Client.pipe c' = Some fd
       ∧ Py.encode_utf8 request = Some request)
  ∨ (∃ fd data rest c' w',
       channel_available c w
       ∧ write_script w (writes w) = None
       ∧ read_script w (reads w) = inr data ∧ data ≠ ""
       ∧ read_script w (S (reads w)) = inr rest
       ∧ Py.decode_utf8 (response_bytes data rest) = Some (response_bytes data rest)
       ∧ Client.send_request request c w
         = (Ok (Py.rstrip_nul (response_bytes data rest)), c', w')
       ∧ Client.pipe c' = Some fd
       ∧ (∀ fd0, Client.pipe c = Some fd0 → fd0 = fd)
       ∧ Client.print_errors c' = Client.print_errors c
       ∧ Client.last_request_timestamp c' = clock_script w (S (ticks w)))
  ∨ (∃ fd e c' w',
       channel_available c w
       ∧ Py.encode_utf8 request = None
       ∧ Client.send_request request c w = (Raise e, c', w')
       ∧ exn_cls e = UnicodeEncodeError
       ∧ Client.pipe c' = Some fd).
Proof.
  assert (channel_available c w
          ∨ ∃ eo, Client.pipe c = None ∧ open_script w (opens w) = inl eo)
    as [Hav|(eo & Hp0 & Ho)].
  { unfold channel_available. destruct (Client.pipe c) as [fd0|] eqn:Hp0; [eauto|].
    destruct (open_script w (opens w)) as [eo|fd0] eqn:Ho; [|eauto].
    right. eauto. }
  2: { left. split; [by eapply open_failure|].
       destruct (send_request_open_failure request c w eo Hp0 Ho) as (e & Heq & He).
       exists e, (next_open (emit (EvOpen Client.PIPE_PATH) w)).
       by rewrite (set_pipe_None_id c Hp0). }
  destruct (send_request_start request c w Hav)
    as (fd & c1 & w1 & Hp & Hrun & Hreset & Hlast & Hpe & Hsame
        & Hws & Hw & Hrs & Hr & Hcs & Ht & Hdt & _).
  destruct (encode_utf8_cases request) as [Henc|Henc].
  2: { right. right. right. exists fd. rewrite Hrun.
       unfold try_except, encoded_exchange. rewrite Henc.
       eexists _, _, _. split; [done|]. split; [done|]. split; [reflexivity|].
       done. }
  rewrite (encoded_exchange_encodable _ Henc) in Hrun.
  destruct (paced_channel c1 w1) as (Hpws & Hpw & Hprs & Hpr & _).
  destruct (guarded_exchange_cases request c1 (paced c1 w1) fd Hp)
    as [[Hio _]|[(data & rest & w' & Hd1 & Hd2 & Hdec & Heq)
                |(data & rest & w' & Hwr & Hd1 & Hne & Hd2 & Hdec & Heq)]];
    rewrite ?Hpws, ?Hpw, ?Hprs, ?Hpr, ?Hws, ?Hw, ?Hrs, ?Hr in *.
  - left. assert (channel_fault c w) as Hf.
    { apply (io_failure_channel_fault c w (paced c1 w1)); [congruence..|done]. }
    split; [done|]. by apply send_request_fault.
  - right. left. exists fd, data, rest, c1, w'. rewrite Hrun, Heq.
    unfold decode_exn. rewrite decode_error_text_paced, Hdt. done.
  - right. right. left.
    exists fd, data, rest,
      (Client.set_last_request_timestamp
         (clock_script (paced c1 w1) (ticks (paced c1 w1))) c1), w'.
    rewrite Hrun. repeat (split; [done|]).
    split; [intros fd0 H0; by destruct (Hsame fd0 H0)|]. split; [done|].
    simpl. unfold paced. destruct (Z.abs _ <? 1000); simpl; by rewrite Hcs, Ht.
Qed.

Lemma length_slice_to n s : (String.length (Py.slice_to n s) ≤ n)%nat.
Proof.
  unfold Py.slice_to. revert s. induction n as [|n IH]; intros [|a s]; simpl; try lia.
  specialize (IH s). lia.
Qed.

Lemma length_string_app (s t : string) :
  String.length (s +:+ t) = (String.length s + String.length t)%nat.
Proof. induction s as [|a s IH]; [done|]. rewrite app_cons. simpl. by rewrite IH. Qed.

Lemma length_rstrip_by p s : (String.length (Py.rstrip_by p s) ≤ String.length s)%nat.
Proof.
  induction s as [|a s IH]; simpl; [lia|].
  destruct (p a && Py.is_empty (Py.rstrip_by p s)); simpl; lia.
Qed.

Lemma length_response data rest :
  Z.of_nat (String.length (Py.rstrip_nul (response_bytes data rest))) ≤ 8193.
Proof.
  unfold Py.rstrip_nul, response_bytes.
  pose proof (length_rstrip_by (λ a, (N_of_ascii a =? 0)%N)
                (Py.slice_to 1 data +:+ Py.slice_to (N.to_nat 8192) rest)) as H.
  rewrite length_string_app in H.
  pose proof (length_slice_to 1 data).
  pose proof (length_slice_to (N.to_nat 8192) rest). lia.
Qed.

Lemma channel_fault_not_healthy c w data rest :
  channel_available c w → write_script w (writes w) = None →
  read_script w (reads w) = inr data → data ≠ "" →
  read_script w (S (reads w)) = inr rest →
  ¬ channel_fault c w.
Proof.
  intros Hav Hw Hr Hne Hr2 [e Hp Ho|e H|e H|H|e H]; try congruence.
  destruct Hav as [Hs|[fd Hfd]]; [rewrite Hp in Hs; by apply is_Some_None in Hs|].
  congruence.
Qed.

(** X1.  Once the channel is open, [send_request] reuses the descriptor: the
    call makes no [os.open], and when it returns a response the same
    descriptor is still in place for the next call. *)
Theorem send_request_reuses_open_channel (request : string) c w fd :
  Client.pipe c = Some fd →
  (∃ evs, trace (Client.send_request request c w).2 = trace w ++ evs
          ∧ Forall not_an_open evs)
  ∧ (∀ r c' w', Client.send_request request c w = (Ok r, c', w') →
                Client.pipe c' = Some fd).
Proof.
  intros Hp. split.
  - rewrite (send_request_prelude _ _ _ _ _ (init_open c w fd Hp)).
    destruct (guarded_exchange_not_an_open request c (paced c w)) as (evs & Ht & HP).
    exists (pacing_events c w ++ evs). split.
    + by rewrite Ht, trace_paced, (assoc_L (++)).
    + apply Forall_app. split; [|done].
      unfold pacing_events. destruct (Z.abs _ <? 1000); repeat constructor.
  - intros r c' w' Hrun.
    destruct (send_request_cases request c w)
      as [(_ & e & w1 & H & _)|[(fd1 & data & rest & c1 & w1 & _ & _ & _ & _ & H & _)
         |[(fd1 & data & rest & c1 & w1 & _ & _ & _ & _ & _ & _ & H & Hp1 & Hfd & _)
          |(fd1 & e & c1 & w1 & _ & _ & H & _)]]];
      rewrite H in Hrun; simplify_eq.
    by rewrite (Hfd fd Hp).
Qed.

Lemma send_request_reuses_open_channel_witness :
  ∃ evs, trace (Client.send_request "IsAlive()" (Client.set_pipe (Some 3) fresh_client)
                  (answering "R-200")).2
         = trace (answering "R-200") ++ evs
         ∧ Forall not_an_open evs.
Proof.
  apply (send_request_reuses_open_channel "IsAlive()"
           (Client.set_pipe (Some 3) fresh_client) (answering "R-200") 3).
  reflexivity.
Defined.

(** X2.  The pacing of [send_request]: when the request encodes and the
    channel is open or opens, the call sleeps 1 ms exactly when the clock is
    less than 1 ms away from the previous request, it does so before it
    writes, and then writes the request once. *)
Theorem send_request_paces_before_writing (request : string) c w :
  Py.encode_utf8 request = Some request →
  channel_available c w →
  ∃ fd evs,
    trace (Client.send_request request c w).2
    = trace w
      ++ match Client.pipe c with
         | Some _ => []
         | None => [EvOpen Client.PIPE_PATH]
         end
      ++ pacing_events c w ++ EvWrite fd request :: evs
    ∧ Forall not_a_write evs.
Proof.
  intros Henc Hav. destruct (Client.pipe c) as [fd|] eqn:Hp.
  - rewrite (send_request_after_init _ _ _ _ _ Henc (init_open c w fd Hp)).
    destruct (guarded_exchange_written request c (paced c w) fd Hp) as (evs & Ht & HP).
    exists fd, evs. split; [|done].
    by rewrite Ht, trace_paced, <- !(assoc_L (++)).
  - destruct Hav as [Hs|[fd Ho]]; [rewrite Hp in Hs; by apply is_Some_None in Hs|].
    rewrite (send_request_after_init _ _ _ _ _ Henc (init_closed_ok c w fd Hp Ho)).
    destruct (guarded_exchange_written request (Client.set_pipe (Some fd) c)
                (paced (Client.set_pipe (Some fd) c)
                   (next_open (emit (EvOpen Client.PIPE_PATH) w))) fd eq_refl)
      as (evs & Ht & HP).
    exists fd, evs. split; [|done].
    rewrite Ht, trace_paced. simpl. by rewrite <- !(assoc_L (++)).
Qed.

Lemma send_request_paces_before_writing_witness :
  ∃ fd evs,
    trace (Client.send_request "IsAlive()" fresh_client (answering "R-200")).2
    = trace (answering "R-200")
      ++ [EvOpen Client.PIPE_PATH]
      ++ pacing_events fresh_client (answering "R-200")
      ++ EvWrite fd "IsAlive()" :: evs
    ∧ Forall not_a_write evs.
Proof.
  apply (send_request_paces_before_writing "IsAlive()" fresh_client (answering "R-200")).
  - reflexivity.
  - right. exists 3. reflexivity.
Defined.

(** X3.  For a request that encodes, on a healthy channel (it is open or
    opens, the write succeeds, the first read delivers something, the second
    read succeeds and the bytes are UTF-8) [send_request] returns the first
    byte followed by at most 8192 more, without trailing NUL characters; the
    handle stays in place and the time of the request is recorded. *)
Theorem send_request_returns_response (request : string) c w data rest :
  Py.encode_utf8 request = Some request →
  channel_available c w →
  write_script w (writes w) = None →
  read_script w (reads w) = inr data → data ≠ "" →
  read_script w (S (reads w)) = inr rest →
  Py.decode_utf8 (response_bytes data rest) = Some (response_bytes data rest) →
  ∃ fd c' w',
    Client.send_request request c w
    = (Ok (Py.rstrip_nul (response_bytes data rest)), c', w')
    ∧ Client.pipe c' = Some fd
    ∧ Client.last_request_timestamp c' = clock_script w (S (ticks w)).
Proof.
  intros Henc Hav Hw Hr Hne Hr2 Hd.
  destruct (send_request_cases request c w)
    as [(Hf & _)|[(fd1 & data1 & rest1 & c1 & w1 & _ & Hd1 & Hd2 & Hdec & _)
       |[(fd1 & data1 & rest1 & c1 & w1 & _ & _ & Hd1 & _ & Hd2 & _ & H & Hp1 & _ & _ & Hts)
        |(fd1 & e & c1 & w1 & _ & Hnone & _)]]].
  - by destruct (channel_fault_not_healthy c w data rest).
  - congruence.
  - assert (data1 = data) as -> by congruence.
    assert (rest1 = rest) as -> by congruence. by exists fd1, c1, w1.
  - congruence.
Qed.

Lemma send_request_returns_response_witness :
  ∃ fd c' w',
    Client.send_request "GetVolume()" fresh_client (answering "42")
    = (Ok (Py.rstrip_nul (response_bytes "42" "2")), c', w')
    ∧ Client.pipe c' = Some fd
    ∧ Client.last_request_timestamp c'
      = clock_script (answering "42") (S (ticks (answering "42"))).
Proof.
  apply (send_request_returns_response "GetVolume()" fresh_client (answering "42")
           "42" "2").
  - reflexivity.
  - right. exists 3. reflexivity.
  - reflexivity.
  - reflexivity.
  - done.
  - reflexivity.
  - vm_compute. reflexivity.
Defined.

(** X4.  A response returned by [send_request] or [send_request_safe] never
    has more than 8193 bytes: the first byte and one read of at most 8192. *)
Theorem send_request_response_bounded (request : string) c w :
  (∀ r c' w', Client.send_request request c w = (Ok r, c', w') →
              Z.of_nat (String.length r) ≤ 8193)
  ∧ (∀ r c' w', Client.send_request_safe request c w = (Ok r, c', w') →
                Z.of_nat (String.length r) ≤ 8193).
Proof.
  assert (∀ r c' w', Client.send_request request c w = (Ok r, c', w') →
                     Z.of_nat (String.length r) ≤ 8193) as Hraw.
  { intros r c' w' Hrun.
    destruct (send_request_cases request c w)
      as [(_ & e & w1 & H & _)|[(fd1 & data & rest & c1 & w1 & _ & _ & _ & _ & H & _)
         |[(fd1 & data & rest & c1 & w1 & _ & _ & _ & _ & _ & _ & H & _)
          |(fd1 & e & c1 & w1 & _ & _ & H & _)]]];
      rewrite H in Hrun; simplify_eq.
    apply length_response. }
  split; [exact Hraw|].
  intros r c' w' Hsafe.
  destruct (Client.send_request request c w) as [[[r1|e] c1] w1] eqn:Hrun.
  - unfold Client.send_request_safe in Hsafe.
    rewrite (try_Ok _ _ _ _ _ _ _ Hrun) in Hsafe. simplify_eq. by eapply Hraw.
  - destruct (is_OSError e) eqn:He.
    + destruct (send_request_safe_of_raise _ _ _ _ _ _ Hrun He) as (w2 & Hs & _).
      rewrite Hs in Hsafe. by simplify_eq.
    + unfold Client.send_request_safe in Hsafe.
      rewrite (try_uncaught _ _ _ _ _ _ _ Hrun) in Hsafe by (by rewrite He). done.
Qed.

Lemma send_request_response_bounded_witness : Z.of_nat (String.length "0") ≤ 8193.
Proof.
  apply (proj2 (send_request_response_bounded "GetVolume()" fresh_client (answering "0"))
           "0" reply_0.1.2 reply_0.2).
  vm_compute. reflexivity.
Defined.

(** X5.  One caller at a time: the exceptions that escape
    [send_request_safe] are those of the UTF-8 codec, never an [OSError],
    and the handle is left open.  A [UnicodeEncodeError] escapes exactly
    when the request does not encode (it holds a lone surrogate) and the
    channel is open or opens.  A [UnicodeDecodeError] escapes exactly when
    the request encodes, the channel works and the bytes read do not
    decode. *)
Theorem send_request_safe_raises_only_codec_errors (request : string) c w :
  (∀ e c' w',
     Client.send_request_safe request c w = (Raise e, c', w') →
     is_OSError e = false
     ∧ is_Some (Client.pipe c')
     ∧ ((exn_cls e = UnicodeEncodeError
         ∧ Py.encode_utf8 request = None ∧ channel_available c w)
        ∨ (exn_cls e = UnicodeDecodeError
           ∧ Py.encode_utf8 request = Some request
           ∧ ∃ data rest,
               read_script w (reads w) = inr data
               ∧ read_script w (S (reads w)) = inr rest
               ∧ Py.decode_utf8 (response_bytes data rest) = None)))
  ∧ (Py.encode_utf8 request = None → channel_available c w →
     ∃ e c' w',
       Client.send_request_safe request c w = (Raise e, c', w')
       ∧ exn_cls e = UnicodeEncodeError ∧ is_Some (Client.pipe c'))
  ∧ (∀ data rest,
       Py.encode_utf8 request = Some request →
       channel_available c w → write_script w (writes w) = None →
       read_script w (reads w) = inr data → data ≠ "" →
       read_script w (S (reads w)) = inr rest →
       Py.decode_utf8 (response_bytes data rest) = None →
       ∃ e c' w',
         Client.send_request_safe request c w = (Raise e, c', w')
         ∧ exn_cls e = UnicodeDecodeError ∧ is_Some (Client.pipe c')).
Proof.
  split; [|split].
  - intros e c' w' Hsafe.
    destruct (send_request_cases request c w)
      as [(_ & e1 & w1 & H & He)
         |[(fd1 & data & rest & c1 & w1 & _ & Hd1 & Hd2 & Hdec & H & Hp1 & Henc)
          |[(fd1 & data & rest & c1 & w1 & _ & _ & _ & _ & _ & _ & H & _)
           |(fd1 & e1 & c1 & w1 & Hav & Henc & H & Hcls & Hp1)]]].
    + destruct (send_request_safe_of_raise _ _ _ _ _ _ H He) as (w2 & Hs & _).
      rewrite Hs in Hsafe. done.
    + unfold Client.send_request_safe in Hsafe.
      rewrite (try_uncaught _ _ _ _ _ _ _ H) in Hsafe by done. simplify_eq.
      split; [done|]. split; [by rewrite Hp1|]. right. eauto 10.
    + unfold Client.send_request_safe in Hsafe.
      rewrite (try_Ok _ _ _ _ _ _ _ H) in Hsafe. done.
    + assert (is_OSError e1 = false) as He1 by (unfold is_OSError; by rewrite Hcls).
      unfold Client.send_request_safe in Hsafe.
      rewrite (try_uncaught _ _ _ _ _ _ _ H) in Hsafe by (by rewrite He1).
      simplify_eq. split; [done|]. split; [by rewrite Hp1|]. by left.
  - intros Henc Hav.
    destruct (send_request_unencodable_available request c w Henc Hav)
      as (fd & e & c' & w' & H & Hcls & Hp).
    exists e, c', w'. unfold Client.send_request_safe.
    assert (is_OSError e = false) as He by (unfold is_OSError; by rewrite Hcls).
    rewrite (try_uncaught _ _ _ _ _ _ _ H) by (by rewrite He).
    split; [done|]. split; [done|]. by rewrite Hp.
  - intros data rest Henc Hav Hw Hr Hne Hr2 Hdec.
    destruct (send_request_cases request c w)
      as [(Hf & _)
         |[(fd1 & data1 & rest1 & c1 & w1 & _ & Hd1 & Hd2 & _ & H & Hp1 & _)
          |[(fd1 & data1 & rest1 & c1 & w1 & _ & _ & Hd1 & _ & Hd2 & Hsome & _)
           |(fd1 & e1 & c1 & w1 & _ & Hnone & _)]]].
    + by destruct (channel_fault_not_healthy c w data rest).
    + eexists _, c1, w1. unfold Client.send_request_safe.
      rewrite (try_uncaught _ _ _ _ _ _ _ H) by done.
      split; [done|]. split; [done|]. by rewrite Hp1.
    + congruence.
    + congruence.
Qed.

Lemma send_request_safe_raises_only_codec_errors_witness :
  (∃ e c' w',
     Client.send_request_safe lone_surrogate fresh_client (answering "R-200")
     = (Raise e, c', w')
     ∧ exn_cls e = UnicodeEncodeError ∧ is_Some (Client.pipe c'))
  ∧ (∃ e c' w',
       Client.send_request_safe "IsAlive()" fresh_client (answering undecodable_reply)
       = (Raise e, c', w')
       ∧ exn_cls e = UnicodeDecodeError ∧ is_Some (Client.pipe c')).
Proof.
  split.
  - apply (proj1 (proj2 (send_request_safe_raises_only_codec_errors lone_surrogate
                           fresh_client (answering "R-200")))).
    + vm_compute. reflexivity.
    + right. exists 3. reflexivity.
  - apply (proj2 (proj2 (send_request_safe_raises_only_codec_errors "IsAlive()"
                           fresh_client (answering undecodable_reply)))
             undecodable_reply "").
    + reflexivity.
    + right. exists 3. reflexivity.
    + reflexivity.
    + reflexivity.
    + done.
    + reflexivity.
    + vm_compute. reflexivity.
Defined.

Lemma bind_ret_world {S A B} (m : M S A) (f : A → B) s w :
  (bind m (λ a, ret (f a)) s w).2 = (m s w).2.
Proof. unfold bind. by destruct (m s w) as [[[a|e] s'] w']. Qed.

(** X6.  [set_volume] clamps: whatever the argument, the only command it can
    write is [SetVolume(v)] with [v] between 0 and 100, the argument itself
    when that is in range, and it writes it at most once (exactly once when
    the channel is open or opens). *)
Theorem set_volume_clamps (volume : Z) c w :
  ∃ v evs,
    0 ≤ v ≤ 100
    ∧ (0 ≤ volume ≤ 100 → v = volume)
    ∧ (volume < 0 → v = 0) ∧ (100 < volume → v = 100)
    ∧ trace (ClientOps.set_volume volume c w).2 = trace w ++ evs
    ∧ (written evs = [] ∨ written evs = ["SetVolume(" +:+ Py.str_int v +:+ ")"])
    ∧ (channel_available c w →
       written evs = ["SetVolume(" +:+ Py.str_int v +:+ ")"]).
Proof.
  exists (Z.max 0 (Z.min 100 volume)).
  destruct (send_request_safe_written
              ("SetVolume(" +:+ Py.str_int (Z.max 0 (Z.min 100 volume)) +:+ ")") c w)
    as (evs & Ht & Hw & Hav).
  assert (Py.encode_utf8 ("SetVolume(" +:+ Py.str_int (Z.max 0 (Z.min 100 volume))
                          +:+ ")")
          = Some ("SetVolume(" +:+ Py.str_int (Z.max 0 (Z.min 100 volume)) +:+ ")"))
    as Henc.
  { apply encode_utf8_ascii. by rewrite !isascii_app, isascii_str_int. }
  specialize (Hav Henc).
  exists evs. split; [lia|]. split; [lia|]. split; [lia|]. split; [lia|].
  split; [|done]. unfold ClientOps.set_volume. cbv zeta. by rewrite bind_ret_world.
Qed.

Lemma set_volume_clamps_witness :
  ∃ v evs,
    0 ≤ v ≤ 100
    ∧ (0 ≤ 250 ≤ 100 → v = 250)
    ∧ (250 < 0 → v = 0) ∧ (100 < 250 → v = 100)
    ∧ trace (ClientOps.set_volume 250 fresh_client (answering "R-200")).2
      = trace (answering "R-200") ++ evs
    ∧ (written evs = [] ∨ written evs = ["SetVolume(" +:+ Py.str_int v +:+ ")"])
    ∧ (channel_available fresh_client (answering "R-200") →
       written evs = ["SetVolume(" +:+ Py.str_int v +:+ ")"]).
Proof. apply (set_volume_clamps 250 fresh_client (answering "R-200")). Defined.

Lemma handle_string_response_not_marker request c w r c' w' :
  Client._handle_string_response request c w = (Ok r, c', w') →
  Py.startswith r "R" = false.
Proof.
  unfold Client._handle_string_response.
  destruct (Client.send_request_safe request c w) as [[[response|e] c1] w1] eqn:Hs.
  2: { by rewrite (bind_Raise _ _ _ _ _ _ _ Hs). }
  rewrite (bind_Ok _ _ _ _ _ _ _ Hs). cbv beta.
  destruct (Py.is_empty response).
  { destruct (print_error_run "No response from Soundpad" c1 w1) as (w2 & H2 & _).
    rewrite (bind_Ok _ _ _ _ _ _ _ H2). by intros [= <- _ _]. }
  destruct (Py.startswith response "R") eqn:HR.
  { cbv zeta.
    destruct (print_error_run (Client._handle_error_response response request) c1 w1)
      as (w2 & H2 & _).
    rewrite (bind_Ok _ _ _ _ _ _ _ H2). by intros [= <- _ _]. }
  by intros [= <- _ _].
Qed.

Lemma handle_string_response_passes request c w r c' w' :
  Client._handle_string_response request c w = (Ok r, c', w') → r ≠ "" →
  Client.send_request_safe request c w = (Ok r, c', w').
Proof.
  unfold Client._handle_string_response.
  destruct (Client.send_request_safe request c w) as [[[response|e] c1] w1] eqn:Hs.
  2: { by rewrite (bind_Raise _ _ _ _ _ _ _ Hs). }
  rewrite (bind_Ok _ _ _ _ _ _ _ Hs). cbv beta.
  destruct (Py.is_empty response).
  { destruct (print_error_run "No response from Soundpad" c1 w1) as (w2 & H2 & _).
    rewrite (bind_Ok _ _ _ _ _ _ _ H2). by intros [= <- _ _]. }
  destruct (Py.startswith response "R") eqn:HR.
  { cbv zeta.
    destruct (print_error_run (Client._handle_error_response response request) c1 w1)
      as (w2 & H2 & _).
    rewrite (bind_Ok _ _ _ _ _ _ _ H2). by intros [= <- _ _]. }
  by intros [= <- <- <-].
Qed.

(** X7.  The string queries never hand an error marker to the caller: what
    [_handle_string_response] returns, and so what [get_version],
    [get_remote_control_version], [get_categories] and [get_soundlist]
    return, does not begin with "R"; a non-empty result is the response of
    Soundpad itself.  [is_compatible] is true only when Soundpad answered
    the client's own version, "1.1.2". *)
Theorem string_queries_never_return_error_marker c w :
  (∀ request r c' w',
     Client._handle_string_response request c w = (Ok r, c', w') →
     Py.startswith r "R" = false
     ∧ (r ≠ "" → Client.send_request_safe request c w = (Ok r, c', w')))
  ∧ (∀ r c' w', ClientOps.get_version c w = (Ok r, c', w') →
                Py.startswith r "R" = false)
  ∧ (∀ r c' w', ClientOps.get_remote_control_version c w = (Ok r, c', w') →
                Py.startswith r "R" = false)
  ∧ (∀ with_sounds with_icons r c' w',
       ClientOps.get_categories with_sounds with_icons c w = (Ok r, c', w') →
       Py.startswith r "R" = false)
  ∧ (∀ from_index to_index r c' w',
       ClientOps.get_soundlist from_index to_index c w = (Ok r, c', w') →
       Py.startswith r "R" = false)
  ∧ (∀ c' w', ClientOps.is_compatible c w = (Ok true, c', w') →
              Client.send_request_safe "GetRemoteControlVersion()" c w
              = (Ok "1.1.2", c', w')).
Proof.
  split; [|split; [|split; [|split; [|split]]]].
  - intros request r c' w' H. split.
    + by eapply handle_string_response_not_marker.
    + intros Hne. by apply handle_string_response_passes.
  - intros r c' w'. apply handle_string_response_not_marker.
  - intros r c' w'. apply handle_string_response_not_marker.
  - intros ws wi r c' w'. apply handle_string_response_not_marker.
  - intros f t r c' w'. apply handle_string_response_not_marker.
  - intros c' w'. unfold ClientOps.is_compatible, ClientOps.get_remote_control_version.
    destruct (Client._handle_string_response "GetRemoteControlVersion()" c w)
      as [[[r|e] c1] w1] eqn:Hs.
    2: { by rewrite (bind_Raise _ _ _ _ _ _ _ Hs). }
    rewrite (bind_Ok _ _ _ _ _ _ _ Hs). intros [= Hv <- <-].
    apply bool_decide_eq_true in Hv. unfold Client.CLIENT_VERSION in Hv. subst r.
    by apply handle_string_response_passes.
Qed.

Lemma string_queries_never_return_error_marker_witness :
  Py.startswith "3.3.2" "R" = false.
Proof.
  refine (proj1 (proj1 (string_queries_never_return_error_marker fresh_client
                          (answering "3.3.2"))
                   "GetVersion()" "3.3.2" version_reply.1.2 version_reply.2 _)).
  vm_compute. reflexivity.
Defined.

Lemma flag_query_true (request : string) c w c' w' :
  (response <- Client.send_request_safe request ;;
   if Py.is_empty response || Py.startswith response "R" then ret false
   else
     match Py.int response with
     | Some n => ret (bool_decide (n = 1))
     | None => ret false
     end) c w = (Ok true, c', w') →
  ∃ response,
    Client.send_request_safe request c w = (Ok response, c', w')
    ∧ Py.startswith response "R" = false ∧ Py.int response = Some 1.
Proof.
  destruct (Client.send_request_safe request c w) as [[[response|e] c1] w1] eqn:Hs.
  2: { by rewrite (bind_Raise _ _ _ _ _ _ _ Hs). }
  rewrite (bind_Ok _ _ _ _ _ _ _ Hs). cbv beta.
  destruct (Py.is_empty response); [done|].
  destruct (Py.startswith response "R") eqn:HR; [done|]. simpl.
  destruct (Py.int response) as [n|] eqn:Hint; [|done].
  intros [= Hn <- <-]. apply bool_decide_eq_true in Hn as ->. by exists response.
Qed.

(** X8.  [is_trial] and [is_muted] answer [True] only when Soundpad replied
    with the number 1 (and not with an error marker); on a channel fault
    both answer [False]. *)
Theorem flag_queries_true_only_on_one c w :
  (∀ c' w', ClientOps.is_trial c w = (Ok true, c', w') →
            ∃ response,
              Client.send_request_safe "IsTrial()" c w = (Ok response, c', w')
              ∧ Py.startswith response "R" = false ∧ Py.int response = Some 1)
  ∧ (∀ c' w', ClientOps.is_muted c w = (Ok true, c', w') →
              ∃ response,
                Client.send_request_safe "IsMuted()" c w = (Ok response, c', w')
                ∧ Py.startswith response "R" = false ∧ Py.int response = Some 1)
  ∧ (channel_fault c w →
     (∃ w', ClientOps.is_trial c w = (Ok false, Client.set_pipe None c, w'))
     ∧ (∃ w', ClientOps.is_muted c w = (Ok false, Client.set_pipe None c, w'))).
Proof.
  split; [|split].
  - intros c' w'. apply flag_query_true.
  - intros c' w'. apply flag_query_true.
  - intros Hf. split.
    + destruct (send_request_safe_fault "IsTrial()" c w eq_refl Hf) as [w' Hs].
      exists w'. unfold ClientOps.is_trial. by rewrite (bind_Ok _ _ _ _ _ _ _ Hs).
    + destruct (send_request_safe_fault "IsMuted()" c w eq_refl Hf) as [w' Hs].
      exists w'. unfold ClientOps.is_muted. by rewrite (bind_Ok _ _ _ _ _ _ _ Hs).
Qed.

Lemma flag_queries_true_only_on_one_witness :
  ∃ w', ClientOps.is_muted fresh_client
          (scripted (inr 3) (Some broken_pipe) (inr "") (inr ""))
        = (Ok false, Client.set_pipe None fresh_client, w').
Proof.
  apply (flag_queries_true_only_on_one fresh_client
           (scripted (inr 3) (Some broken_pipe) (inr "") (inr ""))).
  apply (write_failure _ _ broken_pipe). reflexivity.
Defined.

Lemma uninit_resets c w :
  ∃ w', Client.uninit c w = (Ok tt, Client.set_pipe None c, w')
        ∧ trace w' = trace w ++ match Client.pipe c with
                                | Some fd => [EvClose fd]
                                | None => []
                                end.
Proof.
  destruct (Client.pipe c) as [fd|] eqn:Hp.
  - rewrite (uninit_open c w fd Hp). by eexists.
  - rewrite (uninit_closed c w Hp), (set_pipe_None_id c Hp).
    exists w. by rewrite app_nil_r.
Qed.

(** X9.  The context manager never leaks the handle: after [with client:
    body] the handle is reset whatever the body does, the body's result or
    exception is the one propagated when the channel opened, and [__exit__]
    closes the descriptor in place at that point exactly once.  Closing
    twice is closing once. *)
Theorem with_client_releases_handle {A} (body : M Client.SoundpadClient A) c w :
  Client.pipe (ClientOps.with_client body c w).1.2 = None
  ∧ (∀ c1 w1, Client.init c w = (Ok tt, c1, w1) →
              (ClientOps.with_client body c w).1.1 = (body c1 w1).1.1
              ∧ trace (ClientOps.with_client body c w).2
                = trace (body c1 w1).2
                  ++ match Client.pipe (body c1 w1).1.2 with
                     | Some fd => [EvClose fd]
                     | None => []
                     end)
  ∧ (Client.uninit ;; Client.uninit) c w = Client.uninit c w.
Proof.
  assert (∀ c1 w1, Client.init c w = (Ok tt, c1, w1) →
            Client.pipe (ClientOps.with_client body c w).1.2 = None
            ∧ (ClientOps.with_client body c w).1.1 = (body c1 w1).1.1
            ∧ trace (ClientOps.with_client body c w).2
              = trace (body c1 w1).2
                ++ match Client.pipe (body c1 w1).1.2 with
                   | Some fd => [EvClose fd]
                   | None => []
                   end) as Hok.
  { intros c1 w1 Hi. unfold ClientOps.with_client, ClientOps.__enter__.
    rewrite (bind_Ok _ _ _ _ _ _ _ Hi).
    destruct (body c1 w1) as [[r c2] w2]. unfold ClientOps.__exit__.
    destruct (uninit_resets c2 w2) as (w3 & -> & Ht). done. }
  split; [|split].
  - destruct (Client.init c w) as [[[[]|e] c1] w1] eqn:Hi.
    + by destruct (Hok c1 w1 eq_refl).
    + unfold ClientOps.with_client, ClientOps.__enter__.
      rewrite (bind_Raise _ _ _ _ _ _ _ Hi). simpl.
      destruct (Client.pipe c) as [fd|] eqn:Hp.
      * by rewrite (init_open c w fd Hp) in Hi.
      * destruct (open_script w (opens w)) as [eo|fd] eqn:Ho.
        -- destruct (init_closed_fail c w eo Hp Ho) as (e' & Hi' & _).
           rewrite Hi' in Hi. by simplify_eq.
        -- by rewrite (init_closed_ok c w fd Hp Ho) in Hi.
  - intros c1 w1 Hi. by destruct (Hok c1 w1 Hi) as (_ & ? & ?).
  - destruct (uninit_resets c w) as (w' & Hu & _).
    rewrite (bind_Ok _ _ _ _ _ _ _ Hu), Hu. by apply uninit_closed.
Qed.

Lemma with_client_releases_handle_witness :
  (ClientOps.with_client (Client.send_request "IsAlive()") fresh_client
     (answering "R-200")).1.1
  = (Client.send_request "IsAlive()" (Client.set_pipe (Some 3) fresh_client)
       (next_open (emit (EvOpen Client.PIPE_PATH) (answering "R-200")))).1.1.
Proof.
  apply (proj1 (proj2 (with_client_releases_handle (Client.send_request "IsAlive()")
                         fresh_client (answering "R-200")))).
  reflexivity.
Defined.

(** ** Key combinations, continued *)

Lemma modifier_not_alias m :
  m ∈ Keys.modifier_order →
  Py.dict_get Keys.key_aliases m = None ∧ Py.strip m = m.
Proof.
  unfold Keys.modifier_order. intros Hm.
  repeat (apply elem_of_cons in Hm as [->|Hm]; [by vm_compute|]).
  by apply elem_of_nil in Hm.
Qed.

(** A canonical key is a fixed point of the clean-up and is not the name of
    an alias. *)
Lemma canonical_key_fixed k :
  canonical_key k →
  Py.strip (Py.lower k) = k ∧ Py.dict_get Keys.key_aliases k = None.
Proof.
  intros (Hne & Hclean & Hlow). unfold Keys.clean_key in Hclean. cbv zeta in Hclean.
  rewrite Hlow in Hclean |- *.
  destruct (Py.dict_get Keys.key_aliases (Py.strip k)) as [v|] eqn:Hal;
    simpl in Hclean.
  - subst v. pose proof (alias_values _ _ Hal) as Hm.
    destruct (modifier_not_alias k Hm) as [Hnone Hstrip].
    rewrite Hstrip in Hal. congruence.
  - by rewrite Hclean in Hal.
Qed.

Lemma elem_of_collect x keys acc :
  x ∈ Keys.collect keys acc ↔ x ∈ acc ∨ (x ≠ "" ∧ x ∈ Keys.clean_key <$> keys).
Proof.
  revert acc. induction keys as [|key keys IH]; intros acc; cbn [Keys.collect].
  { rewrite fmap_nil, elem_of_nil. tauto. }
  cbv zeta. rewrite fmap_cons, elem_of_cons.
  destruct (Py.is_empty (Keys.clean_key key)) eqn:He; simpl.
  - apply is_empty_true in He. rewrite IH. split; [tauto|].
    intros [?|[Hne [-> | ?]]]; [tauto|done|tauto].
  - assert (Keys.clean_key key ≠ "") as Hne'
      by (intros Heq; by rewrite Heq in He).
    destruct (bool_decide (Keys.clean_key key ∈ acc)) eqn:Hin; simpl.
    + apply bool_decide_eq_true in Hin. rewrite IH. split; [tauto|].
      intros [?|[Hne [-> | ?]]]; tauto.
    + rewrite IH, elem_of_app, list_elem_of_singleton. split.
      * intros [[? | -> ]|[? ?]]; tauto.
      * intros [?|[Hne [-> | ?]]]; tauto.
Qed.

Lemma canonical_shape_ext l1 l2 :
  NoDup l1 → NoDup l2 → (∀ x, x ∈ l1 ↔ x ∈ l2) →
  canonical_shape l1 = canonical_shape l2.
Proof.
  intros H1 H2 Heq. unfold canonical_shape. f_equal.
  - apply filter_ext_elem. intros m _. apply Heq.
  - apply sorted_eq_iff_Permutation.
    apply NoDup_Permutation; [by apply NoDup_filter..|].
    intros x. rewrite !list_elem_of_filter, Heq. done.
Qed.

Lemma elem_of_canonical_shape x l : x ∈ canonical_shape l → x ∈ l.
Proof.
  unfold canonical_shape.
  rewrite elem_of_app, list_elem_of_filter, elem_of_sorted, list_elem_of_filter. tauto.
Qed.

Lemma length_collect keys acc :
  (length (Keys.collect keys acc) ≤ length keys + length acc)%nat.
Proof.
  revert acc. induction keys as [|key keys IH]; intros acc; cbn [Keys.collect length];
    [lia|].
  cbv zeta. destruct (_ && _).
  - specialize (IH (acc ++ [Keys.clean_key key])). rewrite length_app in IH.
    simpl in IH. lia.
  - specialize (IH acc). lia.
Qed.

(** X10.  What [normalize_key_combination] returns is clean: no key occurs
    twice, every key is non-empty, in lower case, without surrounding
    white space and is not an alias name (aliases have been replaced), and
    the result is never longer than the input. *)
Theorem normalize_result_is_clean (keys : list string) :
  NoDup (Keys.normalize_key_combination keys)
  ∧ Forall (λ k, k ≠ "" ∧ Py.lower k = k ∧ Py.strip k = k
                 ∧ Py.dict_get Keys.key_aliases k = None)
      (Keys.normalize_key_combination keys)
  ∧ (length (Keys.normalize_key_combination keys) ≤ length keys)%nat.
Proof.
  destruct (collect_invariant keys [] (Forall_nil_2 _) (NoDup_nil_2)) as [Hc Hn].
  destruct (canonical_shape_invariant _ Hc Hn) as [Hc' Hn'].
  rewrite normalize_shape. split; [done|]. split.
  - eapply Forall_impl; [exact Hc'|]. intros k Hk.
    destruct (canonical_key_fixed k Hk) as [Hfix Hal].
    destruct Hk as (Hne & _ & Hlow). rewrite Hlow in Hfix. done.
  - etransitivity; [|pose proof (length_collect keys []) as Hl; simpl in Hl;
                     rewrite Nat.add_0_r in Hl; exact Hl].
    apply submseteq_length, NoDup_submseteq; [done|].
    intros x. apply elem_of_canonical_shape.
Qed.

(** X11.  The result of [normalize_key_combination] depends only on the set
    of cleaned-up keys: two lists that clean up to the same keys, in any
    order and with any repetitions, normalise to the same combination.  In
    particular the order in which the keys are given does not matter. *)
Theorem normalize_depends_on_key_set (keys1 keys2 : list string) :
  ((∀ x, x ∈ Keys.clean_key <$> keys1 ↔ x ∈ Keys.clean_key <$> keys2) →
   Keys.normalize_key_combination keys1 = Keys.normalize_key_combination keys2)
  ∧ (keys1 ≡ₚ keys2 →
     Keys.normalize_key_combination keys1 = Keys.normalize_key_combination keys2).
Proof.
  assert ((∀ x, x ∈ Keys.clean_key <$> keys1 ↔ x ∈ Keys.clean_key <$> keys2) →
          Keys.normalize_key_combination keys1
          = Keys.normalize_key_combination keys2) as Hset.
  { intros Heq. rewrite !normalize_shape.
    destruct (collect_invariant keys1 [] (Forall_nil_2 _) (NoDup_nil_2)) as [_ Hn1].
    destruct (collect_invariant keys2 [] (Forall_nil_2 _) (NoDup_nil_2)) as [_ Hn2].
    apply canonical_shape_ext; [done..|].
    intros x. rewrite !elem_of_collect, Heq. done. }
  split; [exact Hset|].
  intros Hp. apply Hset. intros x. by rewrite Hp.
Qed.

Lemma normalize_depends_on_key_set_witness :
  Keys.normalize_key_combination ["Control"; "a"; "shift_l"]
  = Keys.normalize_key_combination [" SHIFT"; "ctrl"; "A"; "ctrl_r"; "a "].
Proof.
  apply (proj1 (normalize_depends_on_key_set ["Control"; "a"; "shift_l"]
                  [" SHIFT"; "ctrl"; "A"; "ctrl_r"; "a "])).
  intros x. vm_compute Keys.clean_key. simpl fmap.
  rewrite !elem_of_cons, !elem_of_nil. tauto.
Defined.

(** X12.  The order of a normalised combination: first the modifiers, a
    sub-sequence of ctrl, alt, shift, cmd in that order, then the other
    keys, none of them a modifier, in ascending order. *)
Theorem normalize_modifiers_first (keys : list string) :
  ∃ ms os,
    Keys.normalize_key_combination keys = ms ++ os
    ∧ ms `sublist_of` Keys.modifier_order
    ∧ Forall (λ k, k ∉ Keys.modifier_order) os
    ∧ StronglySorted String.le os.
Proof.
  rewrite normalize_shape. unfold canonical_shape. eexists _, _.
  split; [reflexivity|]. split; [apply sublist_filter|]. split.
  - apply Forall_forall. intros x [Hx _]%elem_of_sorted%list_elem_of_filter. done.
  - apply StronglySorted_merge_sort; apply _.
Qed.

(** The second loop of [normalize_key_combination], on any list. *)
Lemma split_modifiers_filter l :
  Keys.split_modifiers l
  = (Py.lower <$> filter (λ x, Py.lower x ∈ Keys.modifier_order) l,
     filter (λ x, Py.lower x ∉ Keys.modifier_order) l).
Proof.
  induction l as [|x l IH]; [done|].
  cbn [Keys.split_modifiers]. rewrite IH, !filter_cons.
  destruct (decide (Py.lower x ∈ Keys.modifier_order)) as [Hin|Hnin].
  - rewrite bool_decide_eq_true_2 by done.
    rewrite decide_False by (by intros ?). by rewrite fmap_cons.
  - rewrite bool_decide_eq_false_2 by done. by rewrite decide_True by done.
Qed.

Lemma key_combination_to_string_nonempty keys :
  keys ≠ [] →
  KeyText.key_combination_to_string keys
  = Registry.join "+"
      (omap KeyText.format_modifier
         (Keys.sort_modifiers
            (Py.lower <$> filter (λ x, Py.lower x ∈ Keys.modifier_order) keys))
       ++ (KeyText.format_key
             <$> Py.sorted (filter (λ x, Py.lower x ∉ Keys.modifier_order) keys))).
Proof.
  intros Hne. destruct keys as [|k keys]; [done|].
  unfold KeyText.key_combination_to_string. by rewrite split_modifiers_filter.
Qed.

(** X13.  The display form of a combination does not depend on the order in
    which its keys are listed: modifiers are shown first in the fixed order
    Ctrl, Alt, Shift, Win, the other keys in ascending order, joined by
    "+".  The empty combination is shown as the empty string. *)
Theorem key_combination_to_string_order_independent (keys1 keys2 : list string) :
  keys1 ≡ₚ keys2 →
  KeyText.key_combination_to_string keys1 = KeyText.key_combination_to_string keys2.
Proof.
  intros Hp. destruct (decide (keys1 = [])) as [->|Hne1].
  { by apply Permutation_nil in Hp as ->. }
  assert (keys2 ≠ []) as Hne2.
  { intros ->. by apply Permutation_nil_r in Hp. }
  rewrite !key_combination_to_string_nonempty by done.
  f_equal. f_equal.
  - f_equal. unfold Keys.sort_modifiers. apply filter_ext_elem.
    intros m _. by rewrite Hp.
  - f_equal. apply sorted_eq_iff_Permutation. by rewrite Hp.
Qed.

Lemma key_combination_to_string_order_independent_witness :
  KeyText.key_combination_to_string ["1"; "alt"; "ctrl"]
  = KeyText.key_combination_to_string ["ctrl"; "1"; "alt"].
Proof.
  apply (key_combination_to_string_order_independent ["1"; "alt"; "ctrl"]
           ["ctrl"; "1"; "alt"]).
  etransitivity; [apply perm_skip, perm_swap|]. apply perm_swap.
Defined.

Lemma hotkey_part_canonical k :
  canonical_key k →
  Registry.hotkey_part k = if decide (k = "cmd") then "windows" else k.
Proof.
  intros Hk. destruct (canonical_key_fixed k Hk) as [Hfix Hal].
  unfold Registry.hotkey_part. cbv zeta. rewrite Hfix.
  case_bool_decide as H1.
  { apply elem_of_cons in H1 as [->|H1]; [done|].
    apply list_elem_of_singleton in H1 as ->. by vm_compute in Hal. }
  case_decide as H2; [by subst|]. case_decide as H3; [by subst|].
  case_bool_decide as H4.
  { apply elem_of_cons in H4 as [->|H4]; [done|].
    apply elem_of_cons in H4 as [->|H4]; [by vm_compute in Hal|].
    apply list_elem_of_singleton in H4 as ->. by vm_compute in Hal. }
  rewrite decide_False by (intros ->; apply H4, list_elem_of_here).
  by destruct (_ && _).
Qed.

(** X14.  On a normalised combination the hotkey string handed to the
    [keyboard] library is the keys as they are, joined by "+", with the one
    renaming of [cmd] to [windows]. *)
Theorem hotkey_string_of_normalized (keys : list string) :
  Registry._keys_to_hotkey_string (Keys.normalize_key_combination keys)
  = Registry.join "+"
      ((λ k, if decide (k = "cmd") then "windows" else k)
         <$> Keys.normalize_key_combination keys).
Proof.
  destruct (collect_invariant keys [] (Forall_nil_2 _) (NoDup_nil_2)) as [Hc Hn].
  destruct (canonical_shape_invariant _ Hc Hn) as [Hc' _].
  rewrite normalize_shape. unfold Registry._keys_to_hotkey_string. f_equal.
  apply Forall_fmap_ext. eapply Forall_impl; [exact Hc'|].
  intros k. apply hotkey_part_canonical.
Qed.

(** ** The registry, continued *)

Section RegistryOpsProperties.
Context {Callback : Type} (removal_fails : nat → bool).
Implicit Types (l : Registry.KeyboardListener Callback) (w : World)
  (k : Registry.KeyCombination Callback).

Lemma set_registered_id l :
  Registry.set_registered (Registry.registered_combinations l) l = l.
Proof. by destruct l. Qed.

Lemma set_registered_twice m1 m2 l :
  Registry.set_registered m1 (Registry.set_registered m2 l)
  = Registry.set_registered m1 l.
Proof. reflexivity. Qed.

Lemma find_handler_lookup hotkey_string i0 handlers i handler :
  RegistryOps.find_handler hotkey_string i0 handlers = Some (i, handler) →
  (i0 ≤ i)%nat ∧ handlers !! (i - i0)%nat = Some (hotkey_string, handler)
  ∧ ∀ j hs h, (j < i - i0)%nat → handlers !! j = Some (hs, h) → hs ≠ hotkey_string.
Proof.
  revert i0. induction handlers as [|[hs h] handlers IH]; intros i0; simpl; [done|].
  case_decide as Hhs.
  - intros [= <- <-]. subst hs. split; [lia|]. rewrite Nat.sub_diag.
    split; [done|]. intros j ? ? Hj. lia.
  - intros Hf. destruct (IH _ Hf) as (Hle & Hl & Hbefore).
    split; [lia|]. replace (i - i0)%nat with (S (i - S i0)) by lia.
    split; [done|]. intros [|j] hs' h' Hj Hlook.
    + simpl in Hlook. by simplify_eq.
    + simpl in Hlook. apply (Hbefore j hs' h'); [lia|done].
Qed.

(** X15.  [unregister_combination]: an unknown identifier is answered
    [False] and nothing changes; on a stopped listener a known identifier
    is removed and nothing else changes, so that registering a fresh
    identifier and unregistering it again leaves the stopped listener
    exactly as it was.  On a running listener the first handler installed
    under the same hotkey string is removed from the handler list when the
    library accepts the removal, and stays in it when the library refuses;
    no handler before it in the list carries that hotkey string. *)
Theorem unregister_combination_behaviour (id : string) l w :
  (Registry.registered_combinations l !! id = None →
   RegistryOps.unregister_combination removal_fails id l w = (Ok false, l, w))
  ∧ (∀ k, Registry.registered_combinations l !! id = Some k →
          Registry.running l = false →
          RegistryOps.unregister_combination removal_fails id l w
          = (Ok true,
             Registry.set_registered (delete id (Registry.registered_combinations l)) l,
             w))
  ∧ (∀ keys cb description,
       keys ≠ [] → Registry.registered_combinations l !! id = None →
       Registry.running l = false →
       (Registry.register_combination keys cb (Some id) description ;;
        RegistryOps.unregister_combination removal_fails id) l w
       = (Ok true, l, w))
  ∧ (∀ k i handler,
       Registry.registered_combinations l !! id = Some k →
       Registry.running l = true →
       RegistryOps.find_handler (Registry._keys_to_hotkey_string (Registry.keys k)) 0
         (Registry.hotkey_handlers l) = Some (i, handler) →
       RegistryOps.unregister_combination removal_fails id l w
       = (Ok true,
          Registry.set_handlers
            (if removal_fails handler then Registry.hotkey_handlers l
             else delete i (Registry.hotkey_handlers l))
            (Registry.set_registered
               (delete id (Registry.registered_combinations l)) l),
          emit (EvRemoveHotkey handler) w))
  ∧ (∀ hs i handler,
       RegistryOps.find_handler hs 0 (Registry.hotkey_handlers l) = Some (i, handler) →
       Registry.hotkey_handlers l !! i = Some (hs, handler)
       ∧ ∀ j hs' h', (j < i)%nat →
                     Registry.hotkey_handlers l !! j = Some (hs', h') → hs' ≠ hs).
Proof.
  split; [|split; [|split; [|split]]]; cycle 4.
  { intros hs i handler Hfind.
    destruct (find_handler_lookup _ _ _ _ _ Hfind) as (_ & Hl & Hbefore).
    rewrite Nat.sub_0_r in Hl, Hbefore. done. }
  - intros Hnone. unfold RegistryOps.unregister_combination.
    by rewrite bind_get, Hnone.
  - intros k Hk Hrun. unfold RegistryOps.unregister_combination.
    rewrite bind_get, Hk. cbv beta iota zeta. rewrite bind_modify, bind_get.
    change (Registry.running (Registry.set_registered ?m l)) with (Registry.running l).
    by rewrite Hrun.
  - intros keys cb description Hne Hnone Hrun.
    destruct keys as [|key keys]; [done|].
    assert (Registry.register_combination (key :: keys) cb (Some id) description l w
            = (Ok id,
               Registry.set_registered
                 (<[id := {| Registry.keys := key :: keys; Registry.callback := cb;
                             Registry.description := description;
                             Registry.enabled := true; Registry.combo_id := id |}]>
                    (Registry.registered_combinations l)) l, w)) as Hreg.
    { unfold Registry.register_combination. cbv zeta. rewrite bind_get.
      change (default (Registry.join "+" (key :: keys)) (Some id)) with id.
      rewrite Hnone, bind_modify, bind_get.
      change (Registry.running (Registry.set_registered ?m l))
        with (Registry.running l).
      by rewrite Hrun. }
    rewrite (bind_Ok _ _ _ _ _ _ _ Hreg).
    unfold RegistryOps.unregister_combination. rewrite bind_get.
    change (Registry.registered_combinations (Registry.set_registered ?m l)) with m.
    rewrite lookup_insert_eq. cbv beta iota zeta. rewrite bind_modify, bind_get.
    change (Registry.running (Registry.set_registered ?m ?l'))
      with (Registry.running l').
    change (Registry.running (Registry.set_registered ?m l)) with (Registry.running l).
    rewrite Hrun. rewrite bind_ret. unfold ret.
    rewrite set_registered_twice.
    change (Registry.registered_combinations (Registry.set_registered ?m l)) with m.
    by rewrite delete_insert_id, set_registered_id.
  - intros k i handler Hk Hrun Hfind. unfold RegistryOps.unregister_combination.
    rewrite bind_get, Hk. cbv beta iota zeta. rewrite bind_modify, bind_get.
    change (Registry.running (Registry.set_registered ?m l)) with (Registry.running l).
    rewrite Hrun. unfold RegistryOps.remove_first_handler at 1.
    unfold bind at 1. rewrite bind_get.
    change (Registry.hotkey_handlers (Registry.set_registered ?m l))
      with (Registry.hotkey_handlers l).
    rewrite Hfind. unfold bind at 1, RegistryOps.remove_hotkey.
    by destruct (removal_fails handler).
Qed.

Lemma remove_all_run handlers l w :
  RegistryOps.remove_all handlers l w
  = (Ok tt, l,
     foldl (λ w h, emit (EvRemoveHotkey h) w) w handlers.*2).
Proof.
  revert w. induction handlers as [|[hs h] handlers IH]; intros w; [done|].
  cbn [RegistryOps.remove_all]. unfold bind at 1, Os.remove_hotkey_quietly.
  by rewrite IH.
Qed.

Lemma trace_remove_all (handlers : list nat) w :
  trace (foldl (λ w h, emit (EvRemoveHotkey h) w) w handlers)
  = trace w ++ (EvRemoveHotkey <$> handlers).
Proof.
  revert w. induction handlers as [|h handlers IH]; intros w; simpl.
  - by rewrite app_nil_r.
  - rewrite IH. simpl. by rewrite <- (assoc_L (++)).
Qed.

(** X16.  [stop]: on a stopped listener nothing happens; on a running one
    every installed handler is removed, in the order of installation, the
    handler list is emptied, and the registered combinations are kept, so
    that the listener can be started again.  Stopping twice is stopping
    once. *)
Theorem stop_removes_every_handler l w :
  (Registry.running l = false → RegistryOps.stop l w = (Ok tt, l, w))
  ∧ (Registry.running l = true →
     ∃ w',
       RegistryOps.stop l w
       = (Ok tt, Registry.set_handlers [] (RegistryOps.set_running false l), w')
       ∧ trace w'
         = trace w ++ (EvRemoveHotkey <$> (Registry.hotkey_handlers l).*2))
  ∧ Registry.registered_combinations (RegistryOps.stop l w).1.2
    = Registry.registered_combinations l
  ∧ Registry.running (RegistryOps.stop l w).1.2 = false
  ∧ (RegistryOps.stop ;; RegistryOps.stop) l w = RegistryOps.stop l w.
Proof.
  assert (Registry.running l = false → RegistryOps.stop l w = (Ok tt, l, w)) as Hoff.
  { intros Hr. unfold RegistryOps.stop. by rewrite bind_get, Hr. }
  assert (Registry.running l = true →
          RegistryOps.stop l w
          = (Ok tt, Registry.set_handlers [] (RegistryOps.set_running false l),
             foldl (λ w h, emit (EvRemoveHotkey h) w) w
               (Registry.hotkey_handlers l).*2)) as Hon.
  { intros Hr. unfold RegistryOps.stop. rewrite bind_get, Hr.
    change (negb true) with false. cbv iota.
    rewrite bind_modify. unfold RegistryOps._unregister_all_hotkeys.
    rewrite bind_get.
    change (Registry.hotkey_handlers (RegistryOps.set_running false l))
      with (Registry.hotkey_handlers l).
    by rewrite (bind_Ok _ _ _ _ _ _ _ (remove_all_run _ _ _)). }
  split; [exact Hoff|]. split.
  { intros Hr. eexists. split; [by apply Hon|]. apply trace_remove_all. }
  destruct (Registry.running l) eqn:Hr.
  - rewrite (Hon eq_refl). split; [done|]. split; [done|].
    rewrite (bind_Ok _ _ _ _ _ _ _ (Hon eq_refl)).
    unfold RegistryOps.stop. by rewrite bind_get.
  - rewrite (Hoff eq_refl). split; [done|]. split; [done|].
    rewrite (bind_Ok _ _ _ _ _ _ _ (Hoff eq_refl)). by apply Hoff.
Qed.

(** X17.  [enable_combination] and [disable_combination]: an unknown
    identifier is answered [False] and nothing changes; enabling an enabled
    combination or disabling a disabled one changes nothing; on a stopped
    listener disabling only clears the [enabled] attribute of that one
    combination, and enabling it again restores the listener exactly. *)
Theorem enable_disable_behaviour (id : string) l w :
  (Registry.registered_combinations l !! id = None →
   RegistryOps.enable_combination id l w = (Ok false, l, w)
   ∧ RegistryOps.disable_combination removal_fails id l w = (Ok false, l, w))
  ∧ (∀ k, Registry.registered_combinations l !! id = Some k →
          Registry.enabled k = true →
          RegistryOps.enable_combination id l w = (Ok true, l, w))
  ∧ (∀ k, Registry.registered_combinations l !! id = Some k →
          Registry.enabled k = false →
          RegistryOps.disable_combination removal_fails id l w = (Ok true, l, w))
  ∧ (∀ k, Registry.registered_combinations l !! id = Some k →
          Registry.enabled k = true → Registry.running l = false →
          RegistryOps.disable_combination removal_fails id l w
          = (Ok true,
             Registry.set_registered
               (<[id := RegistryOps.set_enabled false k]>
                  (Registry.registered_combinations l)) l, w)
          ∧ (RegistryOps.disable_combination removal_fails id ;;
             RegistryOps.enable_combination id) l w = (Ok true, l, w)).
Proof.
  split; [|split; [|split]].
  - intros Hnone. unfold RegistryOps.enable_combination,
      RegistryOps.disable_combination. by rewrite !bind_get, Hnone.
  - intros k Hk He. unfold RegistryOps.enable_combination.
    by rewrite bind_get, Hk, He.
  - intros k Hk He. unfold RegistryOps.disable_combination.
    by rewrite bind_get, Hk, He.
  - intros k Hk He Hrun.
    assert (RegistryOps.disable_combination removal_fails id l w
            = (Ok true,
               Registry.set_registered
                 (<[id := RegistryOps.set_enabled false k]>
                    (Registry.registered_combinations l)) l, w)) as Hdis.
    { unfold RegistryOps.disable_combination. rewrite bind_get, Hk, He.
      unfold bind at 1. rewrite bind_modify, bind_get.
      change (Registry.running (Registry.set_registered ?m l))
        with (Registry.running l).
      by rewrite Hrun. }
    split; [exact Hdis|]. rewrite (bind_Ok _ _ _ _ _ _ _ Hdis).
    unfold RegistryOps.enable_combination. rewrite bind_get.
    change (Registry.registered_combinations (Registry.set_registered ?m l)) with m.
    rewrite lookup_insert_eq.
    change (negb (Registry.enabled (RegistryOps.set_enabled false k))) with true.
    cbv iota.
    unfold bind at 1. rewrite bind_modify, bind_get.
    change (Registry.running (Registry.set_registered ?m ?l'))
      with (Registry.running l').
    change (Registry.running (Registry.set_registered ?m l)) with (Registry.running l).
    rewrite Hrun. unfold ret. rewrite set_registered_twice.
    change (Registry.registered_combinations (Registry.set_registered ?m l)) with m.
    rewrite insert_insert_eq.
    assert (RegistryOps.set_enabled true (RegistryOps.set_enabled false k) = k) as ->.
    { rewrite <- He at 1. by destruct k. }
    by rewrite (insert_id _ _ _ Hk), set_registered_id.
Qed.
End RegistryOpsProperties.

Lemma unregister_combination_behaviour_witness :
  (Registry.register_combination ["alt"; "5"] tt (Some "category_fx")
     "Play random sound from fx" ;;
   RegistryOps.unregister_combination (λ _, false) "category_fx")
    stopped_listener (answering "R-200")
  = (Ok true, stopped_listener, answering "R-200").
Proof.
  apply (proj1 (proj2 (proj2 (unregister_combination_behaviour (λ _, false)
                                "category_fx" stopped_listener (answering "R-200"))))).
  - done.
  - reflexivity.
  - reflexivity.
Defined.

Lemma stop_removes_every_handler_witness :
  RegistryOps.stop stopped_listener (answering "R-200")
  = (Ok tt, stopped_listener, answering "R-200").
Proof.
  apply (proj1 (stop_removes_every_handler stopped_listener (answering "R-200"))).
  reflexivity.
Defined.

Lemma enable_disable_behaviour_witness :
  RegistryOps.enable_combination "category_fx" stopped_listener (answering "R-200")
  = (Ok false, stopped_listener, answering "R-200").
Proof.
  apply (proj1 (enable_disable_behaviour (λ _, false) "category_fx" stopped_listener
                  (answering "R-200"))).
  reflexivity.
Defined.

(** ** Editing the configuration *)

Section DictProperties.
Context {K V : Type} `{EqDecision K}.
Implicit Types (k : K) (v : V) (d : list (K * V)).

Lemma dict_lookup_set k k' v d :
  ConfigOps.dict_lookup k (ConfigOps.dict_set k' v d)
  = if decide (k = k') then Some v else ConfigOps.dict_lookup k d.
Proof.
  induction d as [|[k0 v0] d IH]; simpl.
  - repeat case_decide; congruence.
  - destruct (decide (k0 = k')) as [->|Hne]; simpl; rewrite ?IH;
      repeat case_decide; congruence.
Qed.

Lemma dict_keys_set k v d :
  (ConfigOps.dict_set k v d).*1 = if decide (k ∈ d.*1) then d.*1 else d.*1 ++ [k].
Proof.
  induction d as [|[k0 v0] d IH]; [done|].
  cbn [ConfigOps.dict_set].
  destruct (decide (k0 = k)) as [->|Hne]; rewrite !fmap_cons; cbn [fst].
  - by rewrite decide_True by apply list_elem_of_here.
  - rewrite IH. destruct (decide (k ∈ d.*1)) as [Hin|Hnin].
    + by rewrite decide_True by (by apply list_elem_of_further).
    + rewrite decide_False; [done|].
      intros [-> | ?]%elem_of_cons; done.
Qed.

Lemma dict_NoDup_set k v d : NoDup d.*1 → NoDup (ConfigOps.dict_set k v d).*1.
Proof.
  intros Hn. rewrite dict_keys_set. destruct (decide _) as [|Hnin]; [done|].
  apply NoDup_app. split; [done|]. split; [|apply NoDup_singleton].
  intros x Hx ->%list_elem_of_singleton. done.
Qed.

Lemma dict_lookup_None k d : ConfigOps.dict_lookup k d = None ↔ k ∉ d.*1.
Proof.
  induction d as [|[k0 v0] d IH]; simpl.
  - split; [intros _; apply not_elem_of_nil | done].
  - rewrite not_elem_of_cons. case_decide as Hk.
    + split; [done|]. intros [Hne _]. by subst.
    + rewrite IH. split; [by split|]. by intros [_ ?].
Qed.

Lemma dict_lookup_elem_of k v d :
  NoDup d.*1 → (k, v) ∈ d ↔ ConfigOps.dict_lookup k d = Some v.
Proof.
  induction d as [|[k0 v0] d IH]; simpl; intros Hn.
  - split; [by intros ?%elem_of_nil | done].
  - apply NoDup_cons in Hn as [Hnin Hn].
    rewrite elem_of_cons, (IH Hn). destruct (decide (k0 = k)) as [->|Hne].
    + split.
      * intros [[= -> ]|Hget]; [done|]. exfalso. apply Hnin.
        apply IH in Hget; [|done].
        by apply (list_elem_of_fmap_2 fst) in Hget.
      * intros [= ->]. by left.
    + split; [|by right]. intros [[= ]|?]; [congruence|done].
Qed.

Lemma dict_lookup_del k k' d :
  NoDup d.*1 →
  ConfigOps.dict_lookup k (ConfigOps.dict_del k' d)
  = if decide (k = k') then None else ConfigOps.dict_lookup k d.
Proof.
  induction d as [|[k0 v0] d IH]; simpl; intros Hn.
  - by case_decide.
  - apply NoDup_cons in Hn as [Hnin Hn].
    destruct (decide (k0 = k')) as [->|Hne]; simpl.
    + destruct (decide (k = k')) as [->|Hne'].
      * by apply dict_lookup_None.
      * by rewrite decide_False by congruence.
    + rewrite (IH Hn). repeat case_decide; congruence.
Qed.

Lemma dict_del_absent k d : ConfigOps.dict_lookup k d = None → ConfigOps.dict_del k d = d.
Proof.
  induction d as [|[k0 v0] d IH]; simpl; [done|].
  case_decide; [done|]. intros Hn. by rewrite IH.
Qed.

Lemma dict_keys_del k d :
  (ConfigOps.dict_del k d).*1 `sublist_of` d.*1.
Proof.
  induction d as [|[k0 v0] d IH]; simpl; [done|].
  case_decide.
  - by apply sublist_cons.
  - rewrite fmap_cons. by apply sublist_skip.
Qed.
End DictProperties.

(** X18.  [add_category] followed by [get_category] gives back what was
    added, enabled, with no sounds counted and the shortcut given (none when
    absent); every other category, the pause/resume shortcut and the
    settings are untouched.  A name that is already configured keeps its
    place and is overwritten; a new one goes to the end; names stay
    unique. *)
Theorem add_category_then_get (name : string) (soundpad_id : Z) (folder_path : string)
    (shortcut : option (list string)) (cm : Config.ConfigManager) :
  let cm' := ConfigOps.add_category name soundpad_id folder_path shortcut cm in
  ConfigOps.get_category name cm'
  = Some {| Config.soundpad_category_id := soundpad_id;
            Config.keyboard_shortcut := default [] shortcut;
            Config.folder_path := folder_path;
            Config.enabled := true;
            Config.sound_count := 0 |}
  ∧ (∀ other, other ≠ name →
              ConfigOps.get_category other cm' = ConfigOps.get_category other cm)
  ∧ (Config.categories cm').*1
    = (if decide (name ∈ (Config.categories cm).*1)
       then (Config.categories cm).*1 else (Config.categories cm).*1 ++ [name])
  ∧ (NoDup (Config.categories cm).*1 → NoDup (Config.categories cm').*1)
  ∧ Config.get_stop_shortcut cm' = Config.get_stop_shortcut cm
  ∧ Config.settings cm' = Config.settings cm.
Proof.
  cbv zeta. unfold ConfigOps.add_category, ConfigOps.get_category. simpl.
  split; [by rewrite dict_lookup_set, decide_True|].
  split; [intros other Hne; by rewrite dict_lookup_set, decide_False|].
  split; [apply dict_keys_set|]. split; [apply dict_NoDup_set|]. done.
Qed.

(** X19.  [remove_category] answers whether the name was configured.  An
    unknown name leaves the configuration as it is; a known one is gone
    afterwards, and every other category is as before, in the same order. *)
Theorem remove_category_behaviour (name : string) (cm : Config.ConfigManager) :
  NoDup (Config.categories cm).*1 →
  let r := ConfigOps.remove_category name cm in
  r.1 = bool_decide (is_Some (ConfigOps.get_category name cm))
  ∧ (ConfigOps.get_category name cm = None → r.2 = cm)
  ∧ ConfigOps.get_category name r.2 = None
  ∧ (∀ other, other ≠ name →
              ConfigOps.get_category other r.2 = ConfigOps.get_category other cm)
  ∧ (Config.categories r.2).*1 `sublist_of` (Config.categories cm).*1.
Proof.
  intros Hn. cbv zeta. unfold ConfigOps.remove_category, ConfigOps.get_category.
  destruct (ConfigOps.dict_lookup name (Config.categories cm)) as [c|] eqn:Hl; simpl.
  - split; [done|]. split; [done|].
    split; [by rewrite dict_lookup_del, decide_True|].
    split; [intros other Hne; by rewrite dict_lookup_del, decide_False|].
    apply dict_keys_del.
  - split; [done|]. split; [done|]. split; [done|]. done.
Qed.

Lemma remove_category_behaviour_witness :
  ConfigOps.get_category "fx" (ConfigOps.remove_category "fx" sample_config).2 = None.
Proof.
  apply (remove_category_behaviour "fx" sample_config).
  apply (bool_decide_unpack (NoDup (Config.categories sample_config).*1)).
  vm_compute. reflexivity.
Defined.

Lemma update_entry_behaviour (f : Config.CategoryConfig → Config.CategoryConfig)
    (name : string) (cm : Config.ConfigManager) c :
  ConfigOps.dict_lookup name (Config.categories cm) = Some c →
  let cm' := ConfigOps.set_categories
               (ConfigOps.dict_set name (f c) (Config.categories cm)) cm in
  ConfigOps.get_category name cm' = Some (f c)
  ∧ (∀ other, other ≠ name →
              ConfigOps.get_category other cm' = ConfigOps.get_category other cm)
  ∧ (Config.categories cm').*1 = (Config.categories cm).*1.
Proof.
  intros Hl. cbv zeta. unfold ConfigOps.get_category. simpl.
  split; [by rewrite dict_lookup_set, decide_True|].
  split; [intros other Hne; by rewrite dict_lookup_set, decide_False|].
  rewrite dict_keys_set, decide_True; [done|].
  destruct (decide (name ∈ (Config.categories cm).*1)) as [|Hnin]; [done|].
  apply dict_lookup_None in Hnin. congruence.
Qed.

(** X20.  [update_category_shortcut] and [update_category_sound_count]
    answer [False] for an unknown name and leave the configuration as it
    is; for a known name they change that one attribute of that one
    category and nothing else: the other attributes, the other categories
    and the order of the names are kept. *)
Theorem update_category_behaviour (name : string) (cm : Config.ConfigManager) :
  (ConfigOps.get_category name cm = None →
   (∀ shortcut, ConfigOps.update_category_shortcut name shortcut cm = (false, cm))
   ∧ (∀ count, ConfigOps.update_category_sound_count name count cm = (false, cm)))
  ∧ (∀ c shortcut,
       ConfigOps.get_category name cm = Some c →
       let r := ConfigOps.update_category_shortcut name shortcut cm in
       r.1 = true
       ∧ ConfigOps.get_category name r.2
         = Some {| Config.soundpad_category_id := Config.soundpad_category_id c;
                   Config.keyboard_shortcut := shortcut;
                   Config.folder_path := Config.folder_path c;
                   Config.enabled := Config.enabled c;
                   Config.sound_count := Config.sound_count c |}
       ∧ (∀ other, other ≠ name →
                   ConfigOps.get_category other r.2 = ConfigOps.get_category other cm)
       ∧ (Config.categories r.2).*1 = (Config.categories cm).*1)
  ∧ (∀ c count,
       ConfigOps.get_category name cm = Some c →
       let r := ConfigOps.update_category_sound_count name count cm in
       r.1 = true
       ∧ ConfigOps.get_category name r.2
         = Some {| Config.soundpad_category_id := Config.soundpad_category_id c;
                   Config.keyboard_shortcut := Config.keyboard_shortcut c;
                   Config.folder_path := Config.folder_path c;
                   Config.enabled := Config.enabled c;
                   Config.sound_count := count |}
       ∧ (∀ other, other ≠ name →
                   ConfigOps.get_category other r.2 = ConfigOps.get_category other cm)
       ∧ (Config.categories r.2).*1 = (Config.categories cm).*1).
Proof.
  split; [|split].
  - intros Hnone. unfold ConfigOps.get_category in Hnone.
    unfold ConfigOps.update_category_shortcut,
      ConfigOps.update_category_sound_count. by rewrite Hnone.
  - intros c shortcut Hl. unfold ConfigOps.get_category in Hl.
    cbv zeta. unfold ConfigOps.update_category_shortcut.
    rewrite Hl. split; [done|].
    apply (update_entry_behaviour (ConfigOps.with_shortcut shortcut) name cm c Hl).
  - intros c count Hl. unfold ConfigOps.get_category in Hl.
    cbv zeta. unfold ConfigOps.update_category_sound_count.
    rewrite Hl. split; [done|].
    apply (update_entry_behaviour (ConfigOps.with_sound_count count) name cm c Hl).
Qed.

Lemma update_category_behaviour_witness :
  ConfigOps.update_category_shortcut "voice" ["alt"; "9"] sample_config
  = (false, sample_config).
Proof.
  apply (proj1 (update_category_behaviour "voice" sample_config)).
  reflexivity.
Defined.

Lemma elem_of_enabled_categories name c cm :
  (name, c) ∈ Config.get_enabled_categories cm
  ↔ (name, c) ∈ Config.categories cm ∧ Config.enabled c = true.
Proof.
  unfold Config.get_enabled_categories, Config.get_all_categories.
  rewrite list_elem_of_filter. simpl. tauto.
Qed.

Lemma enabled_name_iff name cm :
  NoDup (Config.categories cm).*1 →
  name ∈ (Config.get_enabled_categories cm).*1
  ↔ ∃ c, ConfigOps.get_category name cm = Some c ∧ Config.enabled c = true.
Proof.
  intros Hn. unfold ConfigOps.get_category. rewrite list_elem_of_fmap. split.
  - intros ([name' c] & -> & [Hin He]%elem_of_enabled_categories).
    exists c. split; [by apply dict_lookup_elem_of|done].
  - intros (c & Hl & He). exists (name, c). split; [done|].
    apply elem_of_enabled_categories. split; [by apply dict_lookup_elem_of|done].
Qed.

(** X21.  [set_category_enabled] answers [False] for an unknown name and
    changes nothing; for a known name the category is among the enabled
    categories afterwards exactly when it was enabled by the call, and
    whether any other category is enabled does not change. *)
Theorem set_category_enabled_behaviour (name : string) (b : bool)
    (cm : Config.ConfigManager) :
  NoDup (Config.categories cm).*1 →
  let r := ConfigOps.set_category_enabled name b cm in
  (ConfigOps.get_category name cm = None → r = (false, cm))
  ∧ (is_Some (ConfigOps.get_category name cm) →
     r.1 = true
     ∧ (name ∈ (Config.get_enabled_categories r.2).*1 ↔ b = true)
     ∧ (∀ other, other ≠ name →
                 other ∈ (Config.get_enabled_categories r.2).*1
                 ↔ other ∈ (Config.get_enabled_categories cm).*1)
     ∧ (Config.categories r.2).*1 = (Config.categories cm).*1).
Proof.
  intros Hn. cbv zeta. unfold ConfigOps.set_category_enabled.
  split.
  { unfold ConfigOps.get_category. by intros ->. }
  intros [c Hl]. unfold ConfigOps.get_category in Hl. rewrite Hl. simpl.
  destruct (update_entry_behaviour (ConfigOps.with_enabled b) name cm c Hl)
    as (Hget & Hother & Hnames).
  cbv zeta in Hget, Hother, Hnames.
  assert (NoDup (Config.categories
                   (ConfigOps.set_categories
                      (ConfigOps.dict_set name (ConfigOps.with_enabled b c)
                         (Config.categories cm)) cm)).*1) as Hn'
    by (by rewrite Hnames).
  split; [done|]. split; [|split; [|done]].
  - rewrite (enabled_name_iff _ _ Hn'), Hget. split.
    + by intros (c' & [= <-] & He).
    + intros ->. by eexists.
  - intros other Hne.
    by rewrite (enabled_name_iff _ _ Hn'), (enabled_name_iff _ _ Hn), Hother.
Qed.

Lemma set_category_enabled_behaviour_witness :
  "fx" ∈ (Config.get_enabled_categories
            (ConfigOps.set_category_enabled "fx" false sample_config).2).*1
  ↔ false = true.
Proof.
  apply (set_category_enabled_behaviour "fx" false sample_config).
  - apply (bool_decide_unpack (NoDup (Config.categories sample_config).*1)).
    vm_compute. reflexivity.
  - by eexists.
Defined.

(** *** The shortcut mapping *)

Lemma map_categories_foldl cats d :
  ConfigOps.map_categories cats d = foldl set_entry d (omap mapping_entry cats).
Proof.
  revert d. induction cats as [|[name config] cats IH]; intros d; simpl; [done|].
  unfold mapping_entry at 1. simpl.
  destruct (Config.keyboard_shortcut config) eqn:Hk; simpl; by rewrite IH.
Qed.

Lemma get_shortcut_mapping_foldl cm :
  ConfigOps.get_shortcut_mapping cm = foldl set_entry [] (mapping_entries cm).
Proof.
  unfold ConfigOps.get_shortcut_mapping, mapping_entries. cbv zeta.
  rewrite foldl_app, <- map_categories_foldl.
  by destruct (Config.get_stop_shortcut cm).
Qed.

(** In a dict filled entry by entry the last entry for a key wins. *)
Lemma lookup_foldl_set k es d :
  ConfigOps.dict_lookup k (foldl set_entry d es)
  = match last (filter (λ e, e.1 = k) es) with
    | Some e => Some e.2
    | None => ConfigOps.dict_lookup k d
    end.
Proof.
  induction es as [|e es IH] using rev_ind; [done|].
  rewrite foldl_snoc. unfold set_entry at 1. rewrite dict_lookup_set, filter_app.
  rewrite filter_cons, filter_nil. destruct (decide (k = e.1)) as [->|Hne].
  - rewrite decide_True by done. by rewrite last_snoc.
  - rewrite decide_False by congruence. by rewrite app_nil_r.
Qed.

(** The resolver's result, key by key. *)
Lemma conflicting_iff cm k v :
  (k, v) ∈ Config.get_conflicting_shortcuts cm
  ↔ v = owners_of k (omap entry_of (bindings cm)) ∧ (1 < length v)%nat.
Proof.
  destruct (filed_entries (omap entry_of (bindings cm))) as [Hn Hget].
  rewrite resolver_foldl, list_elem_of_filter. simpl.
  rewrite (dd_get_elem_of _ _ _ Hn), Hget. split.
  - intros [Hlen Hv]. destruct (owners_of k _); by simplify_eq.
  - intros [-> Hlen]. split; [done|].
    destruct (owners_of k _); [simpl in Hlen; lia|done].
Qed.

Lemma no_conflict_one_owner cm k id1 id2 :
  Config.get_conflicting_shortcuts cm = [] →
  id1 ∈ owners_of k (omap entry_of (bindings cm)) →
  id2 ∈ owners_of k (omap entry_of (bindings cm)) → id1 = id2.
Proof.
  intros Hnone H1 H2. destruct (decide (id1 = id2)) as [|Hne]; [done|].
  exfalso.
  assert ((k, owners_of k (omap entry_of (bindings cm)))
          ∈ Config.get_conflicting_shortcuts cm) as Hin.
  { apply conflicting_iff. split; [done|]. exact (two_elements _ id1 id2 H1 H2 Hne). }
  rewrite Hnone in Hin. by apply elem_of_nil in Hin.
Qed.

Lemma category_owner cm name config :
  (name, config) ∈ Config.categories cm → Config.keyboard_shortcut config ≠ [] →
  "category:" +:+ name
  ∈ owners_of (Py.sorted (Config.keyboard_shortcut config))
      (omap entry_of (bindings cm)).
Proof.
  intros Hin Hne. apply elem_of_owners_of, elem_of_entries.
  exists (Config.keyboard_shortcut config). split; [|done].
  unfold bindings, Config.get_all_categories. apply elem_of_app. left.
  apply list_elem_of_fmap. by exists (name, config).
Qed.

Lemma pause_owner cm :
  Config.get_stop_shortcut cm ≠ [] →
  "pause_resume"
  ∈ owners_of (Py.sorted (Config.get_stop_shortcut cm)) (omap entry_of (bindings cm)).
Proof.
  intros Hne. apply elem_of_owners_of, elem_of_entries.
  exists (Config.get_stop_shortcut cm). split; [|done].
  unfold bindings. apply elem_of_app. right. apply list_elem_of_here.
Qed.

Lemma elem_of_mapping_entries cm k v :
  (k, v) ∈ mapping_entries cm
  ↔ (∃ config, (v, config) ∈ Config.categories cm ∧ Config.enabled config = true
               ∧ Config.keyboard_shortcut config ≠ []
               ∧ k = Py.sorted (Config.keyboard_shortcut config))
    ∨ (v = "__pause_resume__" ∧ Config.get_stop_shortcut cm ≠ []
       ∧ k = Py.sorted (Config.get_stop_shortcut cm)).
Proof.
  unfold mapping_entries. rewrite elem_of_app, list_elem_of_omap. split.
  - intros [([name config] & [Hin He]%elem_of_enabled_categories & Hm)|Hstop].
    + left. unfold mapping_entry in Hm. simpl in Hm.
      destruct (Config.keyboard_shortcut config) as [|t ks] eqn:Hk; [done|].
      simplify_eq. exists config. by rewrite Hk.
    + right. destruct (Config.get_stop_shortcut cm) as [|t ks] eqn:Hk;
        [by apply elem_of_nil in Hstop|].
      apply list_elem_of_singleton in Hstop. by simplify_eq.
  - intros [(config & Hin & He & Hne & ->)|(-> & Hne & ->)].
    + left. exists (v, config). split; [by apply elem_of_enabled_categories|].
      unfold mapping_entry. simpl. by destruct (Config.keyboard_shortcut config).
    + right. destruct (Config.get_stop_shortcut cm); [done|]. apply list_elem_of_here.
Qed.

(** X22.  [get_shortcut_mapping]: every entry of the mapping is the sorted
    key tuple of an enabled category with a shortcut, under its name, or of
    the pause/resume shortcut; the pause/resume shortcut always wins its key
    tuple; and when the resolver reports no conflict the mapping loses
    nothing: every enabled category with a shortcut is found under its sorted
    key tuple. *)
Theorem shortcut_mapping_complete_without_conflicts (cm : Config.ConfigManager) :
  (∀ k v,
     ConfigOps.dict_lookup k (ConfigOps.get_shortcut_mapping cm) = Some v →
     (∃ config, (v, config) ∈ Config.categories cm ∧ Config.enabled config = true
                ∧ Config.keyboard_shortcut config ≠ []
                ∧ k = Py.sorted (Config.keyboard_shortcut config))
     ∨ (v = "__pause_resume__" ∧ Config.get_stop_shortcut cm ≠ []
        ∧ k = Py.sorted (Config.get_stop_shortcut cm)))
  ∧ (Config.get_stop_shortcut cm ≠ [] →
     ConfigOps.dict_lookup (Py.sorted (Config.get_stop_shortcut cm))
       (ConfigOps.get_shortcut_mapping cm) = Some "__pause_resume__")
  ∧ (Config.get_conflicting_shortcuts cm = [] →
     ∀ name config,
       (name, config) ∈ Config.categories cm → Config.enabled config = true →
       Config.keyboard_shortcut config ≠ [] →
       ConfigOps.dict_lookup (Py.sorted (Config.keyboard_shortcut config))
         (ConfigOps.get_shortcut_mapping cm) = Some name).
Proof.
  split; [|split].
  - intros k v. rewrite get_shortcut_mapping_foldl, lookup_foldl_set.
    destruct (last _) as [[k' v']|] eqn:Hlast; [|done].
    intros [= <-]. apply last_Some_elem_of, list_elem_of_filter in Hlast as [Hk Hin].
    simpl in Hk. subst k'. by apply elem_of_mapping_entries.
  - intros Hne. unfold ConfigOps.get_shortcut_mapping. cbv zeta.
    destruct (Config.get_stop_shortcut cm) as [|t ks] eqn:Hk; [done|].
    by rewrite dict_lookup_set, decide_True.
  - intros Hnone name config Hin He Hne.
    set (k := Py.sorted (Config.keyboard_shortcut config)).
    rewrite get_shortcut_mapping_foldl, lookup_foldl_set.
    assert ((k, name) ∈ filter (λ e : list string * string, e.1 = k)
                          (mapping_entries cm)) as Hmem.
    { apply list_elem_of_filter. split; [done|].
      apply elem_of_mapping_entries. left. by exists config. }
    destruct (last _) as [[k' v']|] eqn:Hlast.
    2: { apply last_None in Hlast. rewrite Hlast in Hmem.
         by apply elem_of_nil in Hmem. }
    apply last_Some_elem_of, list_elem_of_filter in Hlast as [Hk Hin'].
    simpl in Hk. subst k'. simpl. f_equal.
    pose proof (category_owner cm name config Hin Hne) as Hown. fold k in Hown.
    apply elem_of_mapping_entries in Hin'
      as [(config' & Hin' & He' & Hne' & Hk')|(-> & Hne' & Hk')].
    + pose proof (category_owner cm v' config' Hin' Hne') as Hown'.
      rewrite <- Hk' in Hown'.
      pose proof (no_conflict_one_owner cm k _ _ Hnone Hown' Hown) as Heq.
      by apply (inj (String.app "category:")) in Heq.
    + pose proof (pause_owner cm Hne') as Hown'. rewrite <- Hk' in Hown'.
      pose proof (no_conflict_one_owner cm k _ _ Hnone Hown' Hown) as Heq.
      discriminate Heq.
Qed.

Lemma shortcut_mapping_complete_without_conflicts_witness :
  ConfigOps.dict_lookup (Py.sorted ["alt"; "5"])
    (ConfigOps.get_shortcut_mapping sample_config) = Some "fx".
Proof.
  apply (proj2 (proj2 (shortcut_mapping_complete_without_conflicts sample_config))
           eq_refl "fx" category_5).
  - apply list_elem_of_here.
  - reflexivity.
  - done.
Defined.

(** ** The runtime, continued *)

Lemma length_logged entry rt :
  (length (Runtime.action_log (logged entry rt)) ≤ 50)%nat.
Proof.
  unfold logged. simpl. destruct (decide _) as [Hlt|Hge]; [|lia].
  unfold Runtime.last_50. rewrite length_drop. lia.
Qed.

Lemma suffix_logged entry rt :
  Runtime.action_log (logged entry rt) `suffix_of` (Runtime.action_log rt ++ [entry]).
Proof.
  unfold logged. simpl. destruct (decide _); [apply suffix_drop|done].
Qed.

(** X23.  [log_action] keeps the log bounded: after every call the log has
    at most 50 entries, the new entry, stamped with the current time, is the
    last one, and the log is the tail of the old log followed by the new
    entry (all of it while there is room).  Nothing else of the runtime
    changes and the call returns. *)
Theorem log_action_keeps_last_50 (action : string) (category : option string)
    (success : bool) (details : string) rt w :
  ∃ rt',
    Runtime.log_action action category success details rt w = (Ok tt, rt', next_tick w)
    ∧ (length (Runtime.action_log rt') ≤ 50)%nat
    ∧ last (Runtime.action_log rt')
      = Some {| Runtime.timestamp := clock_script w (ticks w);
                Runtime.action := action; Runtime.category := category;
                Runtime.success := success; Runtime.details := details |}
    ∧ Runtime.action_log rt'
      `suffix_of` (Runtime.action_log rt
                   ++ [{| Runtime.timestamp := clock_script w (ticks w);
                          Runtime.action := action; Runtime.category := category;
                          Runtime.success := success; Runtime.details := details |}])
    ∧ ((length (Runtime.action_log rt) < 50)%nat →
       Runtime.action_log rt'
       = Runtime.action_log rt
         ++ [{| Runtime.timestamp := clock_script w (ticks w);
                Runtime.action := action; Runtime.category := category;
                Runtime.success := success; Runtime.details := details |}])
    ∧ Runtime.stats rt' = Runtime.stats rt
    ∧ Runtime.soundpad_client rt' = Runtime.soundpad_client rt
    ∧ Runtime.soundpad_connected rt' = Runtime.soundpad_connected rt.
Proof.
  eexists. split; [apply log_action_run|].
  split; [apply length_logged|]. split; [apply last_logged|].
  split; [apply suffix_logged|]. split; [|done].
  intros Hlen. unfold logged. simpl. rewrite decide_False; [done|].
  rewrite length_app. simpl. lia.
Qed.

Lemma log_action_keeps_last_50_witness :
  ∃ rt',
    Runtime.log_action "debug" None true "KeyboardListener created"
      (sample_runtime true) (answering "R-200")
    = (Ok tt, rt', next_tick (answering "R-200"))
    ∧ Runtime.action_log rt'
      = [{| Runtime.timestamp := 0; Runtime.action := "debug";
            Runtime.category := None; Runtime.success := true;
            Runtime.details := "KeyboardListener created" |}].
Proof.
  destruct (log_action_keeps_last_50 "debug" None true "KeyboardListener created"
              (sample_runtime true) (answering "R-200"))
    as (rt' & Hrun & _ & _ & _ & Hroom & _).
  exists rt'. split; [exact Hrun|]. apply Hroom. simpl. lia.
Defined.

(** X24.  The connection monitor refreshes the cached liveness flag: with a
    client, after a pass the flag is what the [is_alive] probe found
    ([False] when the probe raised), whatever it was before.  The pass
    never raises, does not touch the statistics, and logs exactly when the
    flag changed: "reconnected" when it was set, "disconnected" when it was
    cleared.  Without a client the pass does nothing. *)
Theorem monitor_refreshes_liveness_flag rt w :
  (Runtime.soundpad_client rt = None →
   Runtime.monitor_soundpad_connection rt w = (Ok tt, rt, w))
  ∧ (∀ c, Runtime.soundpad_client rt = Some c →
      ∃ rt' w',
        Runtime.monitor_soundpad_connection rt w = (Ok tt, rt', w')
        ∧ Runtime.soundpad_connected rt' = probed_alive (Client.is_alive c w)
        ∧ Runtime.soundpad_client rt' = Some (Client.is_alive c w).1.2
        ∧ Runtime.stats rt' = Runtime.stats rt
        ∧ (Runtime.soundpad_connected rt = probed_alive (Client.is_alive c w) →
           Runtime.action_log rt' = Runtime.action_log rt
           ∧ w' = (Client.is_alive c w).2)
        ∧ (Runtime.soundpad_connected rt ≠ probed_alive (Client.is_alive c w) →
           ∃ entry,
             Runtime.action_log rt' = Runtime.action_log (logged entry rt)
             ∧ Runtime.action entry
               = (if probed_alive (Client.is_alive c w)
                  then "reconnected" else "disconnected")
             ∧ Runtime.success entry = probed_alive (Client.is_alive c w))).
Proof.
  split.
  { intros Hc. unfold Runtime.monitor_soundpad_connection. by rewrite bind_get, Hc. }
  intros c Hc. unfold Runtime.monitor_soundpad_connection. rewrite bind_get, Hc.
  pose proof (on_client_run Client.is_alive rt w c Hc) as Hcall.
  unfold probed_alive.
  destruct (Client.is_alive c w) as [[[alive|e] c'] w1]; simpl in Hcall |- *.
  - rewrite (try_bind_Ok _ _ _ _ _ _ _ _ Hcall).
    unfold try_except. rewrite bind_get.
    change (Runtime.soundpad_connected (Runtime.set_client ?x rt))
      with (Runtime.soundpad_connected rt).
    destruct alive, (Runtime.soundpad_connected rt) eqn:Hconn; simpl.
    + eexists _, _. split; [reflexivity|]. simpl. rewrite ?Hconn.
      do 3 (split; [done|]). split; [done|]. intros Hne. by destruct Hne.
    + rewrite bind_modify, log_action_run. eexists _, _. split; [reflexivity|].
      simpl. do 3 (split; [done|]). split; [by intros ?|]. intros _.
      eexists. split; [reflexivity|]. done.
    + rewrite bind_modify, log_action_run. eexists _, _. split; [reflexivity|].
      simpl. do 3 (split; [done|]). split; [by intros ?|]. intros _.
      eexists. split; [reflexivity|]. done.
    + eexists _, _. split; [reflexivity|]. simpl. rewrite ?Hconn.
      do 3 (split; [done|]). split; [done|]. intros Hne. by destruct Hne.
  - erewrite try_bind_Raise; [|exact Hcall|reflexivity].
    rewrite bind_get.
    change (Runtime.soundpad_connected (Runtime.set_client ?x rt))
      with (Runtime.soundpad_connected rt).
    destruct (Runtime.soundpad_connected rt) eqn:Hconn.
    + rewrite bind_modify, log_action_run. eexists _, _. split; [reflexivity|].
      simpl. do 3 (split; [done|]). split; [by intros ?|]. intros _.
      eexists. split; [reflexivity|]. done.
    + eexists _, _. split; [reflexivity|]. simpl. rewrite ?Hconn.
      do 3 (split; [done|]). split; [done|]. intros Hne. by destruct Hne.
Qed.

Lemma monitor_refreshes_liveness_flag_witness :
  ∃ rt' w',
    Runtime.monitor_soundpad_connection (sample_runtime false) (answering "R-200")
    = (Ok tt, rt', w')
    ∧ Runtime.soundpad_connected rt'
      = probed_alive (Client.is_alive fresh_client (answering "R-200")).
Proof.
  destruct (proj2 (monitor_refreshes_liveness_flag (sample_runtime false)
                     (answering "R-200")) fresh_client eq_refl)
    as (rt' & w' & Hrun & Hflag & _).
  by exists rt', w'.
Defined.

(** *** No exception leaves a callback *)

Section NeverRaises.
Context {S : Type}.

Lemma never_raises_ret {A} (a : A) : never_raises (S:=S) (ret a).
Proof. intros s w. by eexists _, _, _. Qed.

Lemma never_raises_get : never_raises (S:=S) get.
Proof. intros s w. by eexists _, _, _. Qed.

Lemma never_raises_modify f : never_raises (S:=S) (modify f).
Proof. intros s w. by eexists _, _, _. Qed.

Lemma never_raises_bind {A B} (m : M S A) (k : A → M S B) :
  never_raises m → (∀ a, never_raises (k a)) → never_raises (bind m k).
Proof.
  intros Hm Hk s w. destruct (Hm s w) as (a & s' & w' & Ha).
  rewrite (bind_Ok _ _ _ _ _ _ _ Ha). apply Hk.
Qed.

(** A [try] whose [except] clause catches everything and does not raise
    itself. *)
Lemma never_raises_try_except {A} (m : M S A) h :
  (∀ e, ∃ k, h e = Some k ∧ never_raises k) → never_raises (try_except m h).
Proof.
  intros Hh s w. unfold try_except.
  destruct (m s w) as [[[a|e] s'] w']; [by eexists _, _, _|].
  destruct (Hh e) as (k & -> & Hk). apply Hk.
Qed.
End NeverRaises.

Lemma never_raises_log_action action category success details :
  never_raises (Runtime.log_action action category success details).
Proof. intros rt w. rewrite log_action_run. by eexists _, _, _. Qed.

(** X25.  No [Exception] leaves a hotkey callback or the connection
    monitor: whatever the state of the runtime, of the client and of the
    channel, the category callback, the pause/resume callback and a monitor
    pass return normally. *)
Theorem callbacks_never_raise (name : string) (config : Config.CategoryConfig) :
  never_raises (Runtime.category_callback name config)
  ∧ never_raises Runtime.pause_callback
  ∧ never_raises Runtime.monitor_soundpad_connection.
Proof.
  split; [|split].
  - unfold Runtime.category_callback.
    apply never_raises_bind; [apply never_raises_log_action|intros _].
    apply never_raises_bind; [apply never_raises_get|intros rt].
    destruct (Runtime.not_connected rt); [apply never_raises_log_action|].
    apply never_raises_try_except. intros e. eexists. split; [reflexivity|].
    apply never_raises_bind; [apply never_raises_modify|intros _].
    apply never_raises_log_action.
  - unfold Runtime.pause_callback.
    apply never_raises_bind; [apply never_raises_log_action|intros _].
    apply never_raises_bind; [apply never_raises_get|intros rt].
    destruct (Runtime.not_connected rt); [apply never_raises_log_action|].
    apply never_raises_try_except. intros e. eexists. split; [reflexivity|].
    apply never_raises_bind; [apply never_raises_modify|intros _].
    apply never_raises_log_action.
  - unfold Runtime.monitor_soundpad_connection.
    apply never_raises_bind; [apply never_raises_get|intros rt].
    destruct (Runtime.soundpad_client rt); [|apply never_raises_ret].
    apply never_raises_try_except. intros e. eexists. split; [reflexivity|].
    apply never_raises_bind; [apply never_raises_get|intros rt'].
    destruct (Runtime.soundpad_connected rt'); [|apply never_raises_ret].
    apply never_raises_bind; [apply never_raises_modify|intros _].
    apply never_raises_log_action.
Qed.

(** *** The pause/resume callback *)

Lemma emits_print_error P message :
  (∀ line, P (EvPrint line)) → emits P (Client._print_error message).
Proof. intros HP. unfold Client._print_error. emits_tac. Qed.

(** What a computation that writes nothing adds after [m]. *)
Lemma bind_not_a_write {S A B} (m : M S A) (k : A → M S B) s w :
  (∀ a, emits not_a_write (k a)) →
  ∃ evs, trace (bind m k s w).2 = trace (m s w).2 ++ evs ∧ Forall not_a_write evs.
Proof.
  intros Hk. unfold bind. destruct (m s w) as [[[a|e] s'] w']; simpl.
  - apply Hk.
  - exists []. split; [by rewrite app_nil_r | constructor].
Qed.

Lemma get_play_status_written c w :
  ∃ evs, trace (Client.get_play_status c w).2 = trace w ++ evs
         ∧ (written evs = [] ∨ written evs = ["GetPlayStatus()"]).
Proof.
  destruct (send_request_safe_written "GetPlayStatus()" c w) as (evs & Ht & Hw & _).
  destruct (bind_not_a_write (Client.send_request_safe "GetPlayStatus()")
              (λ response,
                 if Py.startswith response "R" then
                   Client._print_error ("Failed to get play status: " +:+ response) ;;
                   ret Client.STOPPED
                 else
                   match Client.PlayStatus_of_value response with
                   | Some p => ret p
                   | None =>
                       Client._print_error ("Unknown play status: " +:+ response) ;;
                       ret Client.STOPPED
                   end) c w) as (evs' & Ht' & HP).
  { intros response. destruct (Py.startswith response "R").
    - apply emits_bind; [by apply emits_print_error|intros ?; apply emits_ret].
    - destruct (Client.PlayStatus_of_value response); [apply emits_ret|].
      apply emits_bind; [by apply emits_print_error|intros ?; apply emits_ret]. }
  exists (evs ++ evs'). split.
  - unfold Client.get_play_status. by rewrite Ht', Ht, (assoc_L (++)).
  - by rewrite written_app, (written_not_a_write evs' HP), app_nil_r.
Qed.

(** A response that is not empty comes from an exchange on a channel that
    was open or opened. *)
Lemma send_request_safe_response_available request c w response c' w' :
  Client.send_request_safe request c w = (Ok response, c', w') → response ≠ "" →
  channel_available c w.
Proof.
  intros Hsafe Hne.
  destruct (send_request_cases request c w)
    as [(_ & e & w1 & H & He)
       |[(fd1 & data & rest & c1 & w1 & _ & _ & _ & _ & H & _)
        |[(fd1 & data & rest & c1 & w1 & Hav & _)
         |(fd1 & e & c1 & w1 & Hav & _)]]]; [| |done|done].
  - destruct (send_request_safe_of_raise _ _ _ _ _ _ H He) as (w2 & Hs & _).
    rewrite Hs in Hsafe. by simplify_eq.
  - unfold Client.send_request_safe in Hsafe.
    rewrite (try_uncaught _ _ _ _ _ _ _ H) in Hsafe by done. done.
Qed.

Lemma toggle_pause_written c w :
  ∃ evs, trace (Client.toggle_pause c w).2 = trace w ++ evs
         ∧ (written evs = [] ∨ written evs = ["DoTogglePause()"])
         ∧ ((Client.toggle_pause c w).1.1 = Ok true →
            written evs = ["DoTogglePause()"]).
Proof.
  destruct (send_request_safe_written "DoTogglePause()" c w) as (evs & Ht & Hw & Hav).
  exists evs. unfold Client.toggle_pause. rewrite bind_ret_world.
  split; [done|]. split; [done|].
  unfold bind.
  destruct (Client.send_request_safe "DoTogglePause()" c w)
    as [[[response|e] c'] w'] eqn:Hs; [|done].
  intros [= Hok]. apply Hav; [reflexivity|].
  apply (send_request_safe_response_available _ _ _ _ _ _ Hs).
  intros ->. done.
Qed.

(** X26.  With a client and the liveness flag set, the pause/resume callback
    asks for the play status and then toggles the pause: it writes at most
    these two commands, in that order, and nothing else.  It books exactly
    one outcome: either [pauses_triggered] grows by 1, and then the toggle
    command was written and [errors] stays, or [errors] grows by 1 and
    [pauses_triggered] stays.  [sounds_played] never changes, and the
    callback returns normally. *)
Theorem pause_dispatch_accounting rt w c :
  Runtime.soundpad_client rt = Some c →
  Runtime.soundpad_connected rt = true →
  ∃ rt' w' evs,
    Runtime.pause_callback rt w = (Ok tt, rt', w')
    ∧ trace w' = trace w ++ evs
    ∧ written evs `sublist_of` ["GetPlayStatus()"; "DoTogglePause()"]
    ∧ Runtime.sounds_played (Runtime.stats rt') = Runtime.sounds_played (Runtime.stats rt)
    ∧ ((Runtime.pauses_triggered (Runtime.stats rt')
        = Runtime.pauses_triggered (Runtime.stats rt) + 1
        ∧ Runtime.errors (Runtime.stats rt') = Runtime.errors (Runtime.stats rt)
        ∧ "DoTogglePause()" ∈ written evs)
       ∨ (Runtime.pauses_triggered (Runtime.stats rt')
          = Runtime.pauses_triggered (Runtime.stats rt)
          ∧ Runtime.errors (Runtime.stats rt') = Runtime.errors (Runtime.stats rt) + 1)).
Proof.
  intros Hc Hconn. unfold Runtime.pause_callback.
  rewrite (bind_Ok _ _ _ _ _ _ _ (log_action_run _ _ _ _ _ _)), bind_get.
  set (rt0 := logged _ rt).
  assert (Runtime.not_connected rt0 = false) as ->.
  { unfold Runtime.not_connected.
    change (Runtime.soundpad_client rt0) with (Runtime.soundpad_client rt).
    change (Runtime.soundpad_connected rt0) with (Runtime.soundpad_connected rt).
    rewrite Hc, Hconn. reflexivity. }
  pose proof (on_client_run Client.get_play_status rt0 (next_tick w) c Hc) as Hcall1.
  destruct (get_play_status_written c (next_tick w)) as (evs1 & Ht1 & Hw1).
  destruct (Client.get_play_status c (next_tick w)) as [[[status|e] c1] w1];
    simpl in Hcall1, Ht1.
  2: { erewrite try_bind_Raise; [|exact Hcall1|reflexivity].
       rewrite bind_modify, log_action_run.
       eexists _, _, evs1. split; [reflexivity|]. split; [exact Ht1|].
       split.
       { destruct Hw1 as [-> | ->]; [apply sublist_nil_l|].
         by apply sublist_skip, sublist_nil_l. }
       split; [done|]. by right. }
  rewrite (try_bind_Ok _ _ _ _ _ _ _ _ Hcall1).
  set (rt1 := Runtime.set_client (Some c1) rt0).
  pose proof (on_client_run Client.toggle_pause rt1 w1 c1 eq_refl) as Hcall2.
  destruct (toggle_pause_written c1 w1) as (evs2 & Ht2 & Hw2 & Hok2).
  assert (written (evs1 ++ evs2) `sublist_of` ["GetPlayStatus()"; "DoTogglePause()"])
    as Hsub.
  { rewrite written_app. apply (sublist_app _ ["GetPlayStatus()"] _ ["DoTogglePause()"]).
    - destruct Hw1 as [-> | ->]; [apply sublist_nil_l|done].
    - destruct Hw2 as [-> | ->]; [apply sublist_nil_l|done]. }
  assert (trace w1 ++ evs2 = trace w ++ evs1 ++ evs2) as Htr
    by (by rewrite Ht1, <- (assoc_L (++))).
  destruct (Client.toggle_pause c1 w1) as [[[ok|e] c2] w2]; simpl in Hcall2, Ht2, Hok2.
  2: { erewrite try_bind_Raise; [|exact Hcall2|reflexivity].
       rewrite bind_modify, log_action_run.
       eexists _, _, (evs1 ++ evs2). split; [reflexivity|].
       split; [simpl; by rewrite Ht2|]. split; [done|]. split; [done|]. by right. }
  rewrite (try_bind_Ok _ _ _ _ _ _ _ _ Hcall2). destruct ok.
  - assert ("DoTogglePause()" ∈ written (evs1 ++ evs2)) as Hin.
    { rewrite written_app, (Hok2 eq_refl). apply elem_of_app. right.
      apply list_elem_of_here. }
    destruct status;
      (erewrite try_Ok;
       [|rewrite !bind_modify; apply log_action_run];
       eexists _, _, (evs1 ++ evs2); split; [reflexivity|];
       split; [simpl; by rewrite Ht2|]; split; [done|]; split; [done|];
       left; done).
  - erewrite try_Ok; [|rewrite bind_modify; apply log_action_run].
    eexists _, _, (evs1 ++ evs2). split; [reflexivity|].
    split; [simpl; by rewrite Ht2|]. split; [done|]. split; [done|]. by right.
Qed.

Lemma pause_dispatch_accounting_witness :
  ∃ rt' w' evs,
    Runtime.pause_callback (sample_runtime true) (answering "R-200") = (Ok tt, rt', w')
    ∧ trace w' = trace (answering "R-200") ++ evs
    ∧ written evs `sublist_of` ["GetPlayStatus()"; "DoTogglePause()"].
Proof.
  destruct (pause_dispatch_accounting (sample_runtime true) (answering "R-200")
              fresh_client eq_refl eq_refl)
    as (rt' & w' & evs & Hrun & Ht & Hsub & _).
  by exists rt', w', evs.
Defined.

(** ** Setting up the shortcuts *)

Lemma register_fresh_stopped {Callback} (keys : list string) (cb : Callback)
    (id description : string) (l : Registry.KeyboardListener Callback) w :
  keys ≠ [] → Registry.registered_combinations l !! id = None →
  Registry.running l = false →
  Registry.register_combination keys cb (Some id) description l w
  = (Ok id,
     Registry.set_registered
       (<[id := {| Registry.keys := keys; Registry.callback := cb;
                   Registry.description := description;
                   Registry.enabled := true; Registry.combo_id := id |}]>
          (Registry.registered_combinations l)) l, w).
Proof.
  intros Hne Hnone Hrun. destruct keys as [|key keys]; [done|].
  unfold Registry.register_combination. cbv zeta. rewrite bind_get.
  change (default (Registry.join "+" (key :: keys)) (Some id)) with id.
  rewrite Hnone, bind_modify, bind_get.
  change (Registry.running (Registry.set_registered ?m l)) with (Registry.running l).
  by rewrite Hrun.
Qed.

Lemma setup_log_action_run action category success details st w :
  Setup.log_action action category success details st w
  = (Ok tt,
     Setup.set_runtime
       (logged {| Runtime.timestamp := clock_script w (ticks w);
                  Runtime.action := action; Runtime.category := category;
                  Runtime.success := success; Runtime.details := details |}
          (Setup.runtime st)) st,
     next_tick w).
Proof. unfold Setup.log_action, zoom. by rewrite log_action_run. Qed.

Lemma lookup_registered_with (es : list (string * Registry.KeyCombination Setup.Callback))
    m id :
  foldl registered_with m es !! id
  = match last (filter (λ e, e.1 = id) es) with
    | Some e => Some e.2
    | None => m !! id
    end.
Proof.
  induction es as [|e es IH] using rev_ind; [done|].
  rewrite foldl_snoc. unfold registered_with at 1. rewrite filter_app.
  rewrite filter_cons, filter_nil. destruct (decide (e.1 = id)) as [<-|Hne].
  - by rewrite lookup_insert_eq, last_snoc.
  - rewrite lookup_insert_ne by done. by rewrite app_nil_r.
Qed.

Lemma elem_of_registrations (cats : list (string * Config.CategoryConfig)) id k :
  (id, k) ∈ omap registration cats
  ↔ ∃ name config, (name, config) ∈ cats ∧ Config.keyboard_shortcut config ≠ []
                   ∧ id = "category_" +:+ name ∧ k = category_combination name config.
Proof.
  rewrite list_elem_of_omap. split.
  - intros ([name config] & Hin & Hr). unfold registration in Hr. simpl in Hr.
    destruct (Config.keyboard_shortcut config) eqn:Hk; [done|]. simplify_eq.
    exists name, config. by rewrite Hk.
  - intros (name & config & Hin & Hne & -> & ->). exists (name, config).
    split; [done|]. unfold registration. simpl.
    by destruct (Config.keyboard_shortcut config).
Qed.

Lemma NoDup_registrations (cats : list (string * Config.CategoryConfig)) :
  NoDup cats.*1 → NoDup (omap registration cats).*1.
Proof.
  induction cats as [|[name config] cats IH]; simpl; [constructor|].
  intros [Hnin Hn]%NoDup_cons. unfold registration at 1. simpl.
  destruct (Config.keyboard_shortcut config) eqn:Hk; simpl; [by apply IH|].
  apply NoDup_cons. split; [|by apply IH].
  intros ([id k] & Hid & (name' & config' & Hin & _ & -> & _)%elem_of_registrations)%list_elem_of_fmap.
  simpl in Hid. apply (inj (String.app "category_")) in Hid as ->.
  apply Hnin. by apply (list_elem_of_fmap_2 fst) in Hin.
Qed.

(** With distinct identifiers every registration is found again, and
    nothing else is. *)
Lemma lookup_registrations (es : list (string * Registry.KeyCombination Setup.Callback))
    m id k :
  NoDup es.*1 → (id, k) ∈ es → foldl registered_with m es !! id = Some k.
Proof.
  intros Hn Hin. rewrite lookup_registered_with.
  assert ((id, k) ∈ filter (λ e : string * Registry.KeyCombination Setup.Callback,
                              e.1 = id) es) as Hmem
    by (by apply list_elem_of_filter).
  destruct (last _) as [[id' k']|] eqn:Hlast.
  2: { apply last_None in Hlast. rewrite Hlast in Hmem. by apply elem_of_nil in Hmem. }
  apply last_Some_elem_of, list_elem_of_filter in Hlast as [Hid Hin'].
  simpl in Hid. subst id'. simpl. f_equal.
  exact (functional_of_NoDup_fst es id _ _ Hn Hin' Hin).
Qed.

Lemma lookup_registrations_inv
    (es : list (string * Registry.KeyCombination Setup.Callback)) m id k :
  foldl registered_with m es !! id = Some k → (id, k) ∈ es ∨ m !! id = Some k.
Proof.
  rewrite lookup_registered_with.
  destruct (last _) as [[id' k']|] eqn:Hlast; [|by right].
  apply last_Some_elem_of, list_elem_of_filter in Hlast as [Hid Hin'].
  simpl in Hid. subst id'. intros [= <-]. by left.
Qed.

Lemma register_categories_run cats st w l :
  Setup.keyboard_listener st = Some l → Registry.running l = false →
  NoDup cats.*1 →
  (∀ name, name ∈ cats.*1 →
           Registry.registered_combinations l !! ("category_" +:+ name) = None) →
  ∃ rt' w',
    Setup.register_categories cats st w
    = (Ok tt,
       {| Setup.runtime := rt';
          Setup.keyboard_listener :=
            Some (Registry.set_registered
                    (foldl registered_with (Registry.registered_combinations l)
                       (omap registration cats)) l);
          Setup.shortcuts_loaded :=
            Setup.shortcuts_loaded st + Z.of_nat (length (omap registration cats)) |},
       w')
    ∧ trace w' = trace w
    ∧ Runtime.stats rt' = Runtime.stats (Setup.runtime st)
    ∧ Runtime.config_manager rt' = Runtime.config_manager (Setup.runtime st).
Proof.
  revert st w l. induction cats as [|[name config] cats IH];
    intros st w l Hl Hrun Hn Hfresh.
  { exists (Setup.runtime st), w. split; [|done]. simpl.
    rewrite Z.add_0_r, set_registered_id. unfold ret. destruct st. simpl in *.
    by rewrite Hl. }
  rewrite fmap_cons in Hn. apply NoDup_cons in Hn as [Hnin Hn]. simpl in Hnin.
  cbn [Setup.register_categories].
  change (omap registration ((name, config) :: cats))
    with (match registration (name, config) with
          | Some e => e :: omap registration cats
          | None => omap registration cats
          end).
  destruct (Config.keyboard_shortcut config) as [|t ks] eqn:Hk.
  { assert (registration (name, config) = None) as ->
      by (unfold registration; simpl; by rewrite Hk).
    rewrite bind_ret. apply IH; [done..|].
    intros name' Hin. apply Hfresh. by apply list_elem_of_further. }
  assert (registration (name, config)
          = Some ("category_" +:+ name, category_combination name config)) as ->
    by (unfold registration; simpl; by rewrite Hk).
  cbv zeta.
  set (id := "category_" +:+ name).
  set (l1 := Registry.set_registered
               (<[id := category_combination name config]>
                  (Registry.registered_combinations l)) l).
  assert (Setup.on_listener
            (Registry.register_combination (t :: ks)
               (Setup.CategoryCallback name config) (Some id)
               ("Play random sound from " +:+ name)) st w
          = (Ok id, Setup.set_listener (Some l1) st, w)) as Hreg.
  { unfold Setup.on_listener. rewrite Hl.
    rewrite (register_fresh_stopped (t :: ks)); [|done| |done].
    - unfold l1, category_combination. by rewrite Hk.
    - apply Hfresh. rewrite fmap_cons. apply list_elem_of_here. }
  pose proof (setup_log_action_run "debug" None true
                ("Registered " +:+ KeyText.key_combination_to_string (t :: ks)
                 +:+ " -> '" +:+ Registry._keys_to_hotkey_string (t :: ks)
                 +:+ "' for '" +:+ name +:+ "'")
                (Setup.set_listener (Some l1) st) w) as Hlog.
  set (st2 := Setup.incr_shortcuts_loaded
                (Setup.set_runtime
                   (logged
                      {| Runtime.timestamp := clock_script w (ticks w);
                         Runtime.action := "debug"; Runtime.category := None;
                         Runtime.success := true;
                         Runtime.details :=
                           "Registered " +:+ KeyText.key_combination_to_string (t :: ks)
                           +:+ " -> '" +:+ Registry._keys_to_hotkey_string (t :: ks)
                           +:+ "' for '" +:+ name +:+ "'" |}
                      (Setup.runtime (Setup.set_listener (Some l1) st)))
                   (Setup.set_listener (Some l1) st))).
  erewrite (bind_Ok _ _ _ _ _ st2 (next_tick w)).
  2: { rewrite (bind_Ok _ _ _ _ _ _ _ Hreg), (bind_Ok _ _ _ _ _ _ _ Hlog).
       reflexivity. }
  destruct (IH st2 (next_tick w) l1) as (rt' & w' & Hrun' & Ht & Hs & Hcm);
    [done|done|done| |].
  { intros name' Hin. unfold l1.
    change (Registry.registered_combinations (Registry.set_registered ?m l)) with m.
    rewrite lookup_insert_ne; [apply Hfresh; by apply list_elem_of_further|].
    unfold id. intros Heq%(inj (String.app "category_")). by subst. }
  exists rt', w'. split; [|done]. rewrite Hrun'. f_equal. f_equal.
  cbn [foldl length]. f_equal. unfold st2. simpl. lia.
Qed.

Lemma NoDup_enabled_categories cm :
  NoDup (Config.categories cm).*1 → NoDup (Config.get_enabled_categories cm).*1.
Proof.
  unfold Config.get_enabled_categories, Config.get_all_categories.
  induction (Config.categories cm) as [|[name config] cats IH]; [done|].
  rewrite fmap_cons. intros [Hnin Hn]%NoDup_cons. rewrite filter_cons.
  destruct (decide _); [|by apply IH].
  rewrite fmap_cons. apply NoDup_cons. split; [|by apply IH].
  intros ([name' c'] & Hname & [_ Hin]%list_elem_of_filter)%list_elem_of_fmap.
  simpl in *. subst name'. apply Hnin. by apply (list_elem_of_fmap_2 fst) in Hin.
Qed.

Lemma length_mapping_entries cm :
  length (mapping_entries cm)
  = (length (omap registration (Config.get_enabled_categories cm))
     + match Config.get_stop_shortcut cm with [] => 0 | _ :: _ => 1 end)%nat.
Proof.
  unfold mapping_entries. rewrite length_app. f_equal.
  - induction (Config.get_enabled_categories cm) as [|[name config] cats IH]; [done|].
    simpl. unfold mapping_entry at 1, registration at 1. simpl.
    destruct (Config.keyboard_shortcut config); simpl; [exact IH|by f_equal].
  - by destruct (Config.get_stop_shortcut cm).
Qed.

(** X27.  [setup_keyboard_shortcuts] registers every shortcut of the
    configuration: with the [keyboard] library available and unique category
    names it answers [True] and leaves a stopped listener that holds
    exactly one combination per enabled category with a shortcut, under the
    identifier "category_<name>", and one for the pause/resume shortcut,
    under "pause_resume"; [shortcuts_loaded] grows by their number; no
    hotkey is installed yet and nothing reaches the channel or the
    terminal.  Without a configuration it answers [False] and does
    nothing; without the library it answers [False] and registers
    nothing. *)
Theorem setup_registers_every_shortcut st w :
  (Runtime.config_manager (Setup.runtime st) = None →
   ∀ available, Setup.setup_keyboard_shortcuts available st w = (Ok false, st, w))
  ∧ (∀ cm, Runtime.config_manager (Setup.runtime st) = Some cm →
       ∃ st' w',
         Setup.setup_keyboard_shortcuts false st w = (Ok false, st', w')
         ∧ Setup.keyboard_listener st' = Setup.keyboard_listener st
         ∧ Setup.shortcuts_loaded st' = Setup.shortcuts_loaded st)
  ∧ (∀ cm, Runtime.config_manager (Setup.runtime st) = Some cm →
       NoDup (Config.categories cm).*1 →
       ∃ st' w' l,
         Setup.setup_keyboard_shortcuts true st w = (Ok true, st', w')
         ∧ Setup.keyboard_listener st' = Some l
         ∧ Registry.running l = false ∧ Registry.hotkey_handlers l = []
         ∧ (∀ name config,
              (name, config) ∈ Config.get_enabled_categories cm →
              Config.keyboard_shortcut config ≠ [] →
              Registry.registered_combinations l !! ("category_" +:+ name)
              = Some (category_combination name config))
         ∧ (Config.get_stop_shortcut cm ≠ [] →
            Registry.registered_combinations l !! "pause_resume"
            = Some (pause_combination (Config.get_stop_shortcut cm)))
         ∧ (∀ id k,
              Registry.registered_combinations l !! id = Some k →
              (id = "pause_resume" ∧ Config.get_stop_shortcut cm ≠ []
               ∧ k = pause_combination (Config.get_stop_shortcut cm))
              ∨ (∃ name config,
                   (name, config) ∈ Config.get_enabled_categories cm
                   ∧ Config.keyboard_shortcut config ≠ []
                   ∧ id = "category_" +:+ name
                   ∧ k = category_combination name config))
         ∧ Setup.shortcuts_loaded st'
           = Setup.shortcuts_loaded st + Z.of_nat (length (mapping_entries cm))
         ∧ trace w' = trace w
         ∧ Runtime.stats (Setup.runtime st') = Runtime.stats (Setup.runtime st)).
Proof.
  split; [|split].
  - intros Hnone available. unfold Setup.setup_keyboard_shortcuts.
    by rewrite bind_get, Hnone.
  - intros cm Hcm. unfold Setup.setup_keyboard_shortcuts. rewrite bind_get, Hcm.
    erewrite try_bind_Raise; [|reflexivity|reflexivity].
    rewrite bind_print, (bind_Ok _ _ _ _ _ _ _ (setup_log_action_run _ _ _ _ _ _)).
    rewrite bind_print. by eexists _, _.
  - intros cm Hcm Hnames. unfold Setup.setup_keyboard_shortcuts.
    rewrite bind_get, Hcm.
    set (l0 := {| Registry.running := false; Registry.suppress_keys := false;
                  Registry.registered_combinations := ∅;
                  Registry.hotkey_handlers := [] |}
               : Registry.KeyboardListener Setup.Callback).
    change (Setup.new_listener (S:=Setup.RuntimeShortcuts) true false)
      with (ret (S:=Setup.RuntimeShortcuts) l0).
    pose proof (setup_log_action_run "debug" None true "KeyboardListener created"
                  (Setup.set_listener (Some l0) st) w) as Hlog.
    set (st1 := Setup.set_runtime _ _) in Hlog.
    destruct (register_categories_run (Config.get_enabled_categories cm) st1
                (next_tick w) l0 eq_refl eq_refl (NoDup_enabled_categories cm Hnames))
      as (rt2 & w2 & Hcats & Ht2 & Hs2 & Hcm2).
    { intros name _. apply lookup_empty. }
    set (es := omap registration (Config.get_enabled_categories cm)) in *.
    set (l2 := Registry.set_registered (foldl registered_with ∅ es) l0) in *.
    set (st2 := {| Setup.runtime := rt2; Setup.keyboard_listener := Some l2;
                   Setup.shortcuts_loaded :=
                     Setup.shortcuts_loaded st1 + Z.of_nat (length es) |}) in *.
    assert (NoDup es.*1) as Hes
      by (apply NoDup_registrations, NoDup_enabled_categories, Hnames).
    assert (∀ name config,
              (name, config) ∈ Config.get_enabled_categories cm →
              Config.keyboard_shortcut config ≠ [] →
              foldl registered_with ∅ es !! ("category_" +:+ name)
              = Some (category_combination name config)) as Hfound.
    { intros name config Hin Hne. apply lookup_registrations; [done|].
      apply elem_of_registrations. by exists name, config. }
    assert (∀ id k,
              foldl registered_with ∅ es !! id = Some k →
              ∃ name config,
                (name, config) ∈ Config.get_enabled_categories cm
                ∧ Config.keyboard_shortcut config ≠ []
                ∧ id = "category_" +:+ name
                ∧ k = category_combination name config) as Honly.
    { intros id k [Hin|Hempty]%lookup_registrations_inv.
      - by apply elem_of_registrations.
      - by rewrite lookup_empty in Hempty. }
    assert (foldl registered_with ∅ es !! "pause_resume" = None) as Hpause.
    { destruct (foldl registered_with ∅ es !! "pause_resume") as [k|] eqn:Hl; [|done].
      destruct (Honly _ _ Hl) as (name & config & _ & _ & Hid & _).
      discriminate Hid. }
    pose proof (length_mapping_entries cm) as Hlen. fold es in Hlen.
    destruct (Config.get_stop_shortcut cm) as [|t ks] eqn:Hstop.
    + exists st2, w2, l2.
      split.
      { apply try_Ok. rewrite bind_ret, bind_modify.
        rewrite (bind_Ok _ _ _ _ _ _ _ Hlog), (bind_Ok _ _ _ _ _ _ _ Hcats).
        by rewrite bind_ret. }
      split; [done|]. split; [done|]. split; [done|].
      split; [exact Hfound|]. split; [done|].
      split; [intros id k Hl; right; by apply Honly|].
      split; [simpl; lia|]. split; [by rewrite Ht2|].
      simpl. by rewrite Hs2.
    + set (l3 := Registry.set_registered
                   (<["pause_resume" := pause_combination (t :: ks)]>
                      (Registry.registered_combinations l2)) l2).
      assert (Setup.on_listener
                (Registry.register_combination (t :: ks) Setup.PauseCallback
                   (Some "pause_resume") "Toggle pause/resume") st2 w2
              = (Ok "pause_resume", Setup.set_listener (Some l3) st2, w2)) as Hreg.
      { unfold Setup.on_listener.
        change (Setup.keyboard_listener st2) with (Some l2). cbv iota.
        by rewrite (register_fresh_stopped (t :: ks) Setup.PauseCallback
                      "pause_resume" "Toggle pause/resume" l2 w2). }
      pose proof (setup_log_action_run "debug" None true
                    ("Registered pause/resume "
                     +:+ KeyText.key_combination_to_string (t :: ks)
                     +:+ " -> '" +:+ Registry._keys_to_hotkey_string (t :: ks) +:+ "'")
                    (Setup.set_listener (Some l3) st2) w2) as Hlog3.
      eexists _, _, l3. split.
      { apply try_Ok. rewrite bind_ret, bind_modify.
        rewrite (bind_Ok _ _ _ _ _ _ _ Hlog), (bind_Ok _ _ _ _ _ _ _ Hcats).
        erewrite bind_Ok.
        2: { rewrite (bind_Ok _ _ _ _ _ _ _ Hreg), (bind_Ok _ _ _ _ _ _ _ Hlog3).
             reflexivity. }
        reflexivity. }
      split; [done|]. split; [done|]. split; [done|].
      split.
      { intros name config Hin Hne. unfold l3.
        change (Registry.registered_combinations (Registry.set_registered ?m l2)) with m.
        rewrite lookup_insert_ne by (intros Heq; discriminate Heq).
        by apply Hfound. }
      split; [intros _; apply lookup_insert_eq|].
      split.
      { intros id k. unfold l3.
        change (Registry.registered_combinations (Registry.set_registered ?m l2)) with m.
        destruct (decide (id = "pause_resume")) as [->|Hne].
        - rewrite lookup_insert_eq. intros [= <-]. by left.
        - rewrite lookup_insert_ne by done. intros Hl. right. by apply Honly. }
      split; [simpl; lia|]. split; [simpl; by rewrite Ht2|].
      simpl. by rewrite Hs2.
Qed.

Lemma setup_registers_every_shortcut_witness :
  ∃ st' w' l,
    Setup.setup_keyboard_shortcuts true sample_shortcuts (answering "R-200")
    = (Ok true, st', w')
    ∧ Setup.keyboard_listener st' = Some l
    ∧ Registry.registered_combinations l !! "category_fx"
      = Some (category_combination "fx" category_5)
    ∧ Setup.shortcuts_loaded st' = 2.
Proof.
  destruct (proj2 (proj2 (setup_registers_every_shortcut sample_shortcuts
                            (answering "R-200")))
              sample_config eq_refl)
    as (st' & w' & l & Hrun & Hl & _ & _ & Hcat & _ & _ & Hloaded & _).
  - apply (bool_decide_unpack (NoDup (Config.categories sample_config).*1)).
    vm_compute. reflexivity.
  - exists st', w', l. split; [exact Hrun|]. split; [exact Hl|]. split.
    + apply Hcat; [|done]. apply list_elem_of_here.
    + rewrite Hloaded. reflexivity.
Defined.

(** ** Validation of the configuration *)

Section ValidationProperties.
Context (path_exists path_isdir access_x access_r : string → bool).
Context (soundpad_executable_path : string).

Lemma bind_nil {A B} (f : A → list B) (l : list A) :
  l ≫= f = [] ↔ ∀ x, x ∈ l → f x = [].
Proof.
  induction l as [|x l IH]; simpl.
  - split; [|done]. intros _ x Hx. by apply elem_of_nil in Hx.
  - rewrite app_nil, IH. split.
    + intros [Hx Hl] y [-> | Hy]%elem_of_cons; auto.
    + intros H. split; [apply H, list_elem_of_here|].
      intros y Hy. by apply H, list_elem_of_further.
Qed.

Lemma fmap_nil_iff {A B} (f : A → B) (l : list A) : f <$> l = [] ↔ l = [].
Proof. split; [apply fmap_nil_inv|by intros ->]. Qed.

Lemma executable_issues_nil :
  Validation.executable_issues path_exists access_x soundpad_executable_path = []
  ↔ soundpad_executable_path ≠ ""
    ∧ path_exists soundpad_executable_path = true
    ∧ Validation.endswith (Py.lower soundpad_executable_path) ".exe" = true
    ∧ access_x soundpad_executable_path = true.
Proof.
  unfold Validation.executable_issues. cbv zeta.
  destruct soundpad_executable_path as [|a p] eqn:Hp; simpl Py.is_empty; cbv iota.
  { simpl. split; [done|]. by intros [? _]. }
  rewrite <- Hp. change (negb false) with true. cbv iota.
  destruct (path_exists _), (Validation.endswith _ _), (access_x _); simpl;
    split; try done; try (intros (_ & ? & ? & ?); done).
  intros _. by rewrite Hp.
Qed.

Lemma folder_issues_nil name config :
  Validation.folder_issues path_exists path_isdir access_r name config = []
  ↔ Config.folder_path config ≠ ""
    ∧ path_exists (Config.folder_path config) = true
    ∧ path_isdir (Config.folder_path config) = true
    ∧ access_r (Config.folder_path config) = true.
Proof.
  unfold Validation.folder_issues.
  destruct (Config.folder_path config) as [|a p] eqn:Hp; simpl Py.is_empty; cbv iota.
  { simpl. split; [done|]. by intros [? _]. }
  change (negb false) with true. cbv iota.
  destruct (path_exists _), (path_isdir _), (access_r _); simpl;
    split; try done; try (intros (_ & ? & ? & ?); done).
Qed.

Lemma id_issues_nil name config :
  Validation.id_issues name config = [] ↔ 0 < Config.soundpad_category_id config.
Proof.
  unfold Validation.id_issues.
  destruct (Z.leb_spec (Config.soundpad_category_id config) 0); split; (done || lia).
Qed.

Lemma key_issues_nil name (shortcut : list string) :
  Validation.key_issues name shortcut = []
  ↔ ∀ key, key ∈ shortcut → Py.lower key ∈ Validation.valid_keys.
Proof.
  unfold Validation.key_issues. induction shortcut as [|k ks IH]; simpl.
  - split; [|done]. intros _ key Hkey. by apply elem_of_nil in Hkey.
  - destruct (bool_decide (Py.lower k ∈ Validation.valid_keys)) eqn:Hk.
    + apply bool_decide_eq_true in Hk. rewrite IH. split.
      * intros H key [-> | Hin]%elem_of_cons; auto.
      * intros H key Hin. by apply H, list_elem_of_further.
    + apply bool_decide_eq_false in Hk. split; [done|].
      intros H. destruct Hk. apply H, list_elem_of_here.
Qed.

Lemma shortcut_issues_nil name config :
  Validation.shortcut_issues name config = []
  ↔ (length (Config.keyboard_shortcut config) ≤ 4)%nat
    ∧ ∀ key, key ∈ Config.keyboard_shortcut config →
             Py.lower key ∈ Validation.valid_keys.
Proof.
  unfold Validation.shortcut_issues.
  destruct (Config.keyboard_shortcut config) as [|k ks] eqn:Hks.
  { split; [|done]. intros _. split; [simpl; lia|].
    intros key Hkey. by apply elem_of_nil in Hkey. }
  rewrite app_nil, key_issues_nil.
  change (length (k :: ks) =? 0)%nat with false. cbv iota.
  destruct (Nat.ltb_spec 4 (length (k :: ks))) as [Hlt|Hle].
  - split; [by intros [? _]|]. intros [? _]. lia.
  - split; [by intros [_ ?]|]. by intros [_ ?].
Qed.

Lemma stop_issues_nil (stop_shortcut : list string) :
  Validation.stop_issues stop_shortcut = [] ↔ (length stop_shortcut ≤ 4)%nat.
Proof.
  unfold Validation.stop_issues. destruct stop_shortcut as [|k ks].
  { split; [simpl; lia|done]. }
  change (length (k :: ks) =? 0)%nat with false. cbv iota.
  destruct (Nat.ltb_spec 4 (length (k :: ks))); split; (done || lia).
Qed.

Lemma enabled_issues_nil cm :
  Validation.enabled_issues cm = []
  ↔ ∃ name config, (name, config) ∈ Config.get_enabled_categories cm
                   ∧ Config.keyboard_shortcut config ≠ [].
Proof.
  unfold Validation.enabled_issues. cbv zeta. rewrite app_nil.
  set (with_shortcut :=
         filter (λ nc : string * Config.CategoryConfig, Config.keyboard_shortcut nc.2 ≠ [])
           (Config.get_enabled_categories cm)).
  split.
  - intros [_ Hsome]. destruct with_shortcut as [|[name config] l] eqn:Hw; [done|].
    assert ((name, config) ∈ with_shortcut) as Hin
      by (rewrite Hw; apply list_elem_of_here).
    apply list_elem_of_filter in Hin as [Hne Hin]. by exists name, config.
  - intros (name & config & Hin & Hne).
    assert ((name, config) ∈ with_shortcut) as Hw by (by apply list_elem_of_filter).
    split.
    + destruct (Config.get_enabled_categories cm); [|done].
      by apply elem_of_nil in Hin.
    + destruct with_shortcut; [by apply elem_of_nil in Hw|done].
Qed.

(** X28.  [validate_config] returns no issue exactly for a configuration
    that can be used: the path of the Soundpad executable is set, exists,
    ends in [.exe] whatever the case of its letters, and is executable;
    every category has a folder that exists, is a directory and is readable,
    a positive Soundpad ID, at most four keys in its shortcut, each of them a
    known key name; the pause/resume shortcut has at most four keys; no two
    bindings conflict; and some enabled category has a shortcut.  Any
    violation of one of these yields at least one issue. *)
Theorem validate_config_clean_iff_usable cm :
  Validation.validate_config path_exists path_isdir access_x access_r
    soundpad_executable_path cm = []
  ↔ (soundpad_executable_path ≠ ""
     ∧ path_exists soundpad_executable_path = true
     ∧ Validation.endswith (Py.lower soundpad_executable_path) ".exe" = true
     ∧ access_x soundpad_executable_path = true)
    ∧ (∀ name config, (name, config) ∈ Config.get_all_categories cm →
         (Config.folder_path config ≠ ""
          ∧ path_exists (Config.folder_path config) = true
          ∧ path_isdir (Config.folder_path config) = true
          ∧ access_r (Config.folder_path config) = true)
         ∧ 0 < Config.soundpad_category_id config
         ∧ (length (Config.keyboard_shortcut config) ≤ 4)%nat
         ∧ ∀ key, key ∈ Config.keyboard_shortcut config →
                  Py.lower key ∈ Validation.valid_keys)
    ∧ (length (Config.get_stop_shortcut cm) ≤ 4)%nat
    ∧ Config.get_conflicting_shortcuts cm = []
    ∧ ∃ name config, (name, config) ∈ Config.get_enabled_categories cm
                     ∧ Config.keyboard_shortcut config ≠ [].
Proof.
  unfold Validation.validate_config.
  rewrite !app_nil, executable_issues_nil, bind_nil, stop_issues_nil,
    fmap_nil_iff, enabled_issues_nil.
  assert ((∀ x, x ∈ Config.get_all_categories cm →
             Validation.category_issues path_exists path_isdir access_r x = [])
          ↔ (∀ name config, (name, config) ∈ Config.get_all_categories cm →
               (Config.folder_path config ≠ ""
                ∧ path_exists (Config.folder_path config) = true
                ∧ path_isdir (Config.folder_path config) = true
                ∧ access_r (Config.folder_path config) = true)
               ∧ 0 < Config.soundpad_category_id config
               ∧ (length (Config.keyboard_shortcut config) ≤ 4)%nat
               ∧ ∀ key, key ∈ Config.keyboard_shortcut config →
                        Py.lower key ∈ Validation.valid_keys)) as ->; [|done].
  split.
  - intros H name config Hin. specialize (H _ Hin).
    unfold Validation.category_issues in H. simpl in H.
    rewrite !app_nil, folder_issues_nil, id_issues_nil, shortcut_issues_nil in H.
    exact H.
  - intros H [name config] Hin. specialize (H _ _ Hin).
    unfold Validation.category_issues. simpl.
    rewrite !app_nil, folder_issues_nil, id_issues_nil, shortcut_issues_nil.
    exact H.
Qed.

End ValidationProperties.

Lemma validate_config_clean_iff_usable_witness :
  Validation.validate_config (λ _, true) (λ _, true) (λ _, true) (λ _, true)
    "C:\Program Files\Soundpad\Soundpad.exe" sample_config = []
  ∧ Config.get_conflicting_shortcuts sample_config = [].
Proof.
  assert (Validation.validate_config (λ _, true) (λ _, true) (λ _, true) (λ _, true)
            "C:\Program Files\Soundpad\Soundpad.exe" sample_config = []) as Hclean
    by (vm_compute; reflexivity).
  split; [exact Hclean|].
  exact (proj1 (proj2 (proj2 (proj2
           (proj1 (validate_config_clean_iff_usable _ _ _ _ _ _) Hclean))))).
Defined.

(** ** The conflict check of the configuration tool *)

Lemma lookup_collect_existing selected_category
    (categories : list (string * Config.CategoryConfig)) m key item :
  SoundpadConfig.collect_existing selected_category categories m !! key = Some item →
  m !! key = Some item
  ∨ ∃ config, (item, config) ∈ categories ∧ item ≠ selected_category
              ∧ Config.keyboard_shortcut config ≠ []
              ∧ Py.sorted (Config.keyboard_shortcut config) = key.
Proof.
  revert m. induction categories as [|[name config] categories IH]; intros m; simpl.
  { by left. }
  intros [Hm | (config' & Hin & ?)]%IH.
  2: { right. exists config'. split; [by apply list_elem_of_further|done]. }
  destruct (bool_decide (name ≠ selected_category)) eqn:Hname; [|by left].
  apply bool_decide_eq_true in Hname.
  destruct (Config.keyboard_shortcut config) as [|k ks] eqn:Hks; [by left|].
  cbv zeta in Hm.
  destruct (decide (Py.sorted (k :: ks) = key)) as [<-|Hne].
  - rewrite lookup_insert_eq in Hm. simplify_eq. right. exists config.
    split; [apply list_elem_of_here|]. by rewrite Hks.
  - rewrite lookup_insert_ne in Hm by done. by left.
Qed.

Lemma collect_existing_keeps selected_category
    (categories : list (string * Config.CategoryConfig)) m key :
  is_Some (m !! key) →
  is_Some (SoundpadConfig.collect_existing selected_category categories m !! key).
Proof.
  revert m. induction categories as [|[name config] categories IH]; intros m Hm; simpl.
  { done. }
  apply IH. destruct (bool_decide (name ≠ selected_category)); [|done].
  destruct (Config.keyboard_shortcut config) as [|k ks]; [done|]. cbv zeta.
  destruct (decide (Py.sorted (k :: ks) = key)) as [<-|Hne].
  - by rewrite lookup_insert_eq.
  - by rewrite lookup_insert_ne.
Qed.

Lemma collect_existing_finds selected_category
    (categories : list (string * Config.CategoryConfig)) m name config :
  (name, config) ∈ categories → name ≠ selected_category →
  Config.keyboard_shortcut config ≠ [] →
  is_Some (SoundpadConfig.collect_existing selected_category categories m
           !! Py.sorted (Config.keyboard_shortcut config)).
Proof.
  revert m. induction categories as [|[name' config'] categories IH];
    intros m Hin Hname Hks.
  { by apply elem_of_nil in Hin. }
  apply elem_of_cons in Hin as [[= <- <-] | Hin]; simpl; [|by apply IH].
  apply collect_existing_keeps. rewrite bool_decide_eq_true_2 by done.
  destruct (Config.keyboard_shortcut config) as [|k ks]; [done|]. cbv zeta.
  by rewrite lookup_insert_eq.
Qed.

Lemma existing_shortcuts_Some cm selected_category new_shortcut item :
  SoundpadConfig.existing_shortcuts selected_category cm !! Py.sorted new_shortcut
  = Some item →
  claims_keys cm selected_category new_shortcut item
  ∧ (Config.get_stop_shortcut cm ≠ [] →
     Config.get_stop_shortcut cm ≡ₚ new_shortcut → item = "stop_playback").
Proof.
  unfold SoundpadConfig.existing_shortcuts. cbv zeta.
  assert (∀ item,
            SoundpadConfig.collect_existing selected_category
              (Config.get_all_categories cm) ∅ !! Py.sorted new_shortcut = Some item →
            claims_keys cm selected_category new_shortcut item) as Hcat.
  { intros item' [Hm | (config & Hin & Hne & Hks & Heq)]%lookup_collect_existing.
    { by rewrite lookup_empty in Hm. }
    right. exists config. by rewrite <- sorted_eq_iff_Permutation. }
  destruct (Config.get_stop_shortcut cm) as [|k ks] eqn:Hstop.
  { intros Hl. split; [by apply Hcat|done]. }
  destruct (decide (Py.sorted (k :: ks) = Py.sorted new_shortcut)) as [Heq|Hne].
  - rewrite Heq, lookup_insert_eq. intros [= <-]. split; [|done].
    left. rewrite Hstop. by rewrite <- sorted_eq_iff_Permutation.
  - rewrite lookup_insert_ne by done. intros Hl. split; [by apply Hcat|].
    intros _ Hperm. by apply sorted_eq_iff_Permutation in Hperm.
Qed.

Lemma existing_shortcuts_None cm selected_category new_shortcut item :
  SoundpadConfig.existing_shortcuts selected_category cm !! Py.sorted new_shortcut = None →
  ¬ claims_keys cm selected_category new_shortcut item.
Proof.
  unfold SoundpadConfig.existing_shortcuts. cbv zeta. intros Hnone Hclaims.
  assert (is_Some (SoundpadConfig.existing_shortcuts selected_category cm
                   !! Py.sorted new_shortcut)) as [x Hx];
    [|unfold SoundpadConfig.existing_shortcuts in Hx; cbv zeta in Hx; congruence].
  unfold SoundpadConfig.existing_shortcuts. cbv zeta.
  destruct Hclaims as [(_ & Hne & Hperm) | (config & Hin & Hname & Hks & Hperm)].
  - apply sorted_eq_iff_Permutation in Hperm.
    destruct (Config.get_stop_shortcut cm) as [|k ks]; [done|].
    by rewrite Hperm, lookup_insert_eq.
  - apply sorted_eq_iff_Permutation in Hperm. rewrite <- Hperm.
    pose proof (collect_existing_finds selected_category
                  (Config.get_all_categories cm) ∅ item config Hin Hname Hks) as Hfound.
    destruct (Config.get_stop_shortcut cm) as [|k ks]; [done|].
    destruct (decide (Py.sorted (k :: ks) = Py.sorted (Config.keyboard_shortcut config)))
      as [Heq|Hne].
    + by rewrite Heq, lookup_insert_eq.
    + by rewrite lookup_insert_ne.
Qed.

Section ConflictCheck.
Context (Confirm_ask : string → M (option Config.ConfigManager) bool).
Context (input : string → M (option Config.ConfigManager) string).

Lemma assign_anyway_returns s w :
  ∃ b s' w', SoundpadConfig.assign_anyway Confirm_ask input s w = (Ok b, s', w').
Proof.
  unfold SoundpadConfig.assign_anyway, try_except.
  destruct (Confirm_ask _ s w) as [[[b|e] s1] w1]; [by eexists _, _, _|].
  unfold bind. destruct (input _ s1 w1) as [[[response|e'] s2] w2];
    by eexists _, _, _.
Qed.

(** X29.  The check of a new shortcut for a category lets it pass without a
    word, returning [True], exactly when nothing else holds the same keys:
    no other category with a shortcut that has the keys of the new one in
    some order, and not the pause/resume shortcut.  The shortcut that the
    category itself holds never counts.  When something holds the keys, the
    check prints the two lines of the warning, naming a holder
    ([stop_playback] whenever the pause/resume shortcut is one), and then
    asks the user; with a configuration in place no [Exception] leaves the
    check, also when asking fails. *)
Theorem shortcut_conflict_check (selected_category : string)
    (new_shortcut : list string) cm w :
  ((∀ item, ¬ claims_keys cm selected_category new_shortcut item) →
   SoundpadConfig._check_shortcut_conflicts Confirm_ask input selected_category
     new_shortcut (Some cm) w = (Ok true, Some cm, w))
  ∧ (∀ item, claims_keys cm selected_category new_shortcut item →
     ∃ holder,
       claims_keys cm selected_category new_shortcut holder
       ∧ (Config.get_stop_shortcut cm ≠ [] →
          Config.get_stop_shortcut cm ≡ₚ new_shortcut → holder = "stop_playback")
       ∧ SoundpadConfig._check_shortcut_conflicts Confirm_ask input selected_category
           new_shortcut (Some cm) w
         = SoundpadConfig.assign_anyway Confirm_ask input (Some cm)
             (warned new_shortcut holder w))
  ∧ ∃ b s' w',
      SoundpadConfig._check_shortcut_conflicts Confirm_ask input selected_category
        new_shortcut (Some cm) w = (Ok b, s', w').
Proof.
  unfold SoundpadConfig._check_shortcut_conflicts. cbv zeta. rewrite bind_get.
  destruct (SoundpadConfig.existing_shortcuts selected_category cm
            !! Py.sorted new_shortcut) as [holder|] eqn:Hl.
  - apply existing_shortcuts_Some in Hl as [Hclaims Hstop].
    rewrite !bind_print. split; [|split].
    + intros Hno. by destruct (Hno holder).
    + intros _ _. by exists holder.
    + apply assign_anyway_returns.
  - split; [done|]. split; [|by eexists _, _, _].
    intros item Hclaims. by destruct (existing_shortcuts_None _ _ _ item Hl).
Qed.

End ConflictCheck.

Lemma shortcut_conflict_check_witness :
  SoundpadConfig._check_shortcut_conflicts (λ _, ret true) (λ _, ret "y") "fx"
    ["5"; "alt"] (Some sample_config) (answering "R-200")
  = (Ok true, Some sample_config, answering "R-200").
Proof.
  apply (proj1 (shortcut_conflict_check (λ _, ret true) (λ _, ret "y") "fx"
                  ["5"; "alt"] sample_config (answering "R-200"))).
  intros item [(_ & _ & Hperm) | (config & Hin & Hname & _)].
  - apply Permutation_length in Hperm. done.
  - apply list_elem_of_singleton in Hin. by simplify_eq.
Defined.
